(** * GoldenTestAutomationFramework: the reporting core

    A shallow embedding of the result formatter
    (CustomJsonReportFormatter/custom_json_formatter.py), the run context
    store (Utility/frameworkDataContext.py), the report aggregator
    (runner.py: merge_json_reports, generate_report_statistics) and the data
    preparation of the generic HTML sub-report
    (Utility/HTMLReportGenerator.py).

    Python values are an inductive type; a dict is an association list in
    insertion order with unique keys. A function that only computes
    returns [Ok] or [Raise]; a callback of the formatter returns [Done] or
    [Failed], each with the formatter, the output and the store as the
    call left them. *)

From Stdlib Require Import ZArith Ascii Floats.SpecFloat.
From stdpp Require Import base option list strings.

(** ** Python values *)

(** The values that cross the reporting core: what [json.load] returns and
    what steps put into the context store. A [str] is a sequence of code
    points below 256. *)
#[local] Unset Elimination Schemes.
Inductive value : Type :=
| VNone
| VBool (b : bool)
| VInt (z : Z)
| VFloat (f : spec_float)
| VStr (s : string)
| VList (l : list value)
| VDict (d : list (string * value)).
#[local] Set Elimination Schemes.

Abbreviation dict := (list (string * value)).

(** Induction over values that reaches below lists and dicts. *)
Section value_ind.
Variable P : value → Prop.
Hypothesis HNone : P VNone.
Hypothesis HBool : ∀ b, P (VBool b).
Hypothesis HInt : ∀ z, P (VInt z).
Hypothesis HFloat : ∀ f, P (VFloat f).
Hypothesis HStr : ∀ s, P (VStr s).
Hypothesis HList : ∀ l, Forall P l → P (VList l).
Hypothesis HDict : ∀ d, Forall (λ kv, P kv.2) d → P (VDict d).

Fixpoint value_ind (v : value) : P v :=
  match v with
  | VNone => HNone
  | VBool b => HBool b
  | VInt z => HInt z
  | VFloat f => HFloat f
  | VStr s => HStr s
  | VList l =>
      HList l ((fix go (l : list value) : Forall P l :=
                  match l with
                  | [] => Forall_nil_2 P
                  | x :: l' => Forall_cons_2 P x l' (value_ind x) (go l')
                  end) l)
  | VDict d =>
      HDict d ((fix go (d : dict) : Forall (λ kv, P kv.2) d :=
                  match d with
                  | [] => Forall_nil_2 _
                  | kv :: d' =>
                      Forall_cons_2 (λ kv, P kv.2) kv d'
                        (value_ind kv.2) (go d')
                  end) d)
  end.
End value_ind.

(** ** Dicts: [d.get(k)], [d[k] = v], [d.keys()] *)

Fixpoint dict_get (k : string) (d : dict) : option value :=
  match d with
  | [] => None
  | (k', v) :: d' => if String.eqb k k' then Some v else dict_get k d'
  end.

(** [d[k] = v]: an existing key keeps its place, a new key goes last. *)
Fixpoint dict_set (k : string) (v : value) (d : dict) : dict :=
  match d with
  | [] => [(k, v)]
  | (k', v') :: d' =>
      if String.eqb k k' then (k', v) :: d' else (k', v') :: dict_set k v d'
  end.

Definition dict_keys (d : dict) : list string := d.*1.

(** ** Truth value and equality *)

(** [bool(x)] *)
Definition truthy (v : value) : bool :=
  match v with
  | VNone => false
  | VBool b => b
  | VInt z => negb (z =? 0)%Z
  | VFloat f => negb (SFeqb f (S754_zero false))
  | VStr s => negb (String.eqb s "")
  | VList l => negb (Nat.eqb (length l) 0)
  | VDict d => negb (Nat.eqb (length d) 0)
  end.

(** A float equals an int when it denotes exactly that integer. *)
Definition float_eq_Z (f : spec_float) (z : Z) : bool :=
  match f with
  | S754_zero _ => (z =? 0)%Z
  | S754_finite s m e =>
      let v := if s then Z.neg m else Z.pos m in
      if (0 <=? e)%Z then (z =? v * 2 ^ e)%Z else (z * 2 ^ (- e) =? v)%Z
  | _ => false
  end.

Inductive number := NZ (z : Z) | NF (f : spec_float).

(** [bool] is a subclass of [int]: [True == 1]. *)
Definition as_number (v : value) : option number :=
  match v with
  | VBool b => Some (NZ (if b then 1 else 0)%Z)
  | VInt z => Some (NZ z)
  | VFloat f => Some (NF f)
  | _ => None
  end.

Definition number_eq (a b : number) : bool :=
  match a, b with
  | NZ x, NZ y => (x =? y)%Z
  | NF f, NF g => SFeqb f g
  | NZ x, NF g => float_eq_Z g x
  | NF f, NZ y => float_eq_Z f y
  end.

(** [a == b]: numbers by value, strings by content, lists pointwise, dicts
    key by key whatever the insertion order. *)
Fixpoint py_eq (a b : value) : bool :=
  match a, b with
  | VNone, VNone => true
  | VStr s, VStr t => String.eqb s t
  | VList l1, VList l2 =>
      (fix go (l1 l2 : list value) : bool :=
         match l1, l2 with
         | [], [] => true
         | x :: l1', y :: l2' => py_eq x y && go l1' l2'
         | _, _ => false
         end) l1 l2
  | VDict d1, VDict d2 =>
      Nat.eqb (length d1) (length d2)
      && (fix go (d1 : dict) : bool :=
            match d1 with
            | [] => true
            | (k, v) :: d1' =>
                match dict_get k d2 with
                | Some w => py_eq v w && go d1'
                | None => false
                end
            end) d1
  | _, _ =>
      match as_number a, as_number b with
      | Some x, Some y => number_eq x y
      | _, _ => false
      end
  end.

Definition py_ne (a b : value) : bool := negb (py_eq a b).

(** ** Exceptions *)

Inductive exn :=
| AssertionError | AttributeError | IndexError | KeyError | TypeError | ValueError.

(** The outcome of a call that returns or raises. *)
Inductive res (A : Type) : Type :=
| Ok (a : A)
| Raise (e : exn).
Arguments Ok {A} a.
Arguments Raise {A} e.

#[global] Instance res_ret : MRet res := λ A a, Ok a.
#[global] Instance res_bind : MBind res := λ A B k m,
  match m with
  | Ok a => k a
  | Raise e => Raise e
  end.

Definition raises {A} (m : res A) : bool :=
  match m with Ok _ => false | Raise _ => true end.

(** [for x in xs: acc = f(acc, x)], leaving at the first exception. *)
Fixpoint foldM {A B} (f : A → B → res A) (a : A) (l : list B) : res A :=
  match l with
  | [] => Ok a
  | x :: l' => a' ← f a x; foldM f a' l'
  end.

Definition LF : ascii := "010"%char.
Definition CR : ascii := "013"%char.

(** ** Run context store (Utility/frameworkDataContext.py) *)

Module CustomContext.

(** The singleton instance: every [CustomContext()] is this one object,
    so the store is one value threaded through the calls. *)
Record t := mk {
  user_data : dict;
  test_data : dict;
  step_data : dict;
  feature_data : dict;
}.

Definition new : t := mk [] [] [] [].

Definition with_user_data (ud : dict) (c : t) : t :=
  mk ud (test_data c) (step_data c) (feature_data c).

Definition set_user_data (key : string) (v : value) (c : t) : t :=
  with_user_data (dict_set key v (user_data c)) c.

(** [user_data.get(key)]: [None] for a key that is not there. *)
Definition get_user_data (key : string) (c : t) : value :=
  default VNone (dict_get key (user_data c)).

(** [user_data[key] = None]: the one key named, whether or not present. *)
Definition reset_user_data (key : string) (c : t) : t :=
  with_user_data (dict_set key VNone (user_data c)) c.

Definition set_test_data (key : string) (v : value) (c : t) : t :=
  mk (user_data c) (dict_set key v (test_data c)) (step_data c) (feature_data c).

Definition get_test_data (key : string) (c : t) : value :=
  default VNone (dict_get key (test_data c)).

Definition reset_step_data (c : t) : t :=
  mk (user_data c) (test_data c) [] (feature_data c).

Definition set_step_data (key : string) (v : value) (c : t) : t :=
  mk (user_data c) (test_data c) (dict_set key v (step_data c)) (feature_data c).

Definition get_step_data (key : string) (c : t) : value :=
  default VNone (dict_get key (step_data c)).

Definition set_feature_data (key : string) (v : value) (c : t) : t :=
  mk (user_data c) (test_data c) (step_data c) (dict_set key v (feature_data c)).

Definition get_feature_data (key : string) (c : t) : value :=
  default VNone (dict_get key (feature_data c)).

Definition reset_feature_data (c : t) : t :=
  mk (user_data c) (test_data c) (step_data c) [].

End CustomContext.

(** ** Generic sub-report data (Utility/HTMLReportGenerator.py) *)

Module HTMLReportGenerator.

Definition handle_none_values (v : value) : value :=
  match v with
  | VNone => VStr "N/A"
  | VDict [] => VStr "No Data Available"
  | VList [] => VStr "No Data Available"
  | _ => v
  end.

(** The dict comprehension rebuilds the dict entry by entry, the list
    comprehension item by item; anything else is returned as it is. *)
Fixpoint handle_nested_data (data : value) : value :=
  match data with
  | VDict d => VDict (map (λ '(key, v), (key, handle_nested_data v)) d)
  | VList l => VList (map handle_nested_data l)
  | _ => data
  end.

(** No constructor of [value] is a [datetime]: the [isinstance] test is
    false on every JSON value. *)
Definition format_datetime (data : value) (date_format : string) : value :=
  data.

(** Lines 46-48 of [generate_html_report]: the value bound to [data]
    when the template is rendered. *)
Definition generate_html_report_data (data : value) (date_format : string) : value :=
  let data := handle_nested_data data in
  let data := handle_none_values data in
  format_datetime data date_format.

(** What the renderer is said to do: every [None] leaf and every empty
    dict or list, at any depth, replaced by its placeholder. *)
Fixpoint replace_leaves_spec (data : value) : value :=
  match data with
  | VNone => VStr "N/A"
  | VDict [] => VStr "No Data Available"
  | VList [] => VStr "No Data Available"
  | VDict d => VDict (map (λ '(key, v), (key, replace_leaves_spec v)) d)
  | VList l => VList (map replace_leaves_spec l)
  | _ => data
  end.

End HTMLReportGenerator.

(** ** Report aggregator (runner.py) *)

Module runner.

(** *** The file system and the log, as [merge_json_reports] meets them *)

Inductive file_state :=
| NoFile                    (* [os.path.isfile] is false *)
| OpenFails (msg : string)  (* [open] raises [OSError] *)
| ReadFails (msg : string)  (* reading inside [json.load] raises *)
| Content (text : string).

Inductive load_result :=
| Loaded (v : value)
| DecodeError (msg : string)  (* [json.JSONDecodeError] *)
| OtherError (msg : string).  (* any other [Exception] *)

Inductive level := WARNING | ERROR.

Record world := mk_world {
  files : string → file_state;
  log : list (level * string);
}.

Definition logging (lv : level) (msg : string) (w : world) : world :=
  mk_world (files w) (log w ++ [(lv, msg)]).

Section merge.

(** [json.load] on the text of a file. *)
Variable json_load : string → load_result.

(** The body of the loop over [json_report_files]. *)
Definition merge_file (st : list value * world) (file : string)
  : list value * world :=
  let '(merged_results, w) := st in
  match files w file with
  | Content text =>
      match json_load text with
      | Loaded (VList report_data) => (merged_results ++ report_data, w)
      | Loaded _ =>
          (merged_results,
           logging WARNING
             ("Report in " +:+ file +:+ " is not a list, skipping this file.") w)
      | DecodeError e =>
          (merged_results,
           logging ERROR
             ("Error decoding JSON in report " +:+ file +:+ ": " +:+ e) w)
      | OtherError e =>
          (merged_results,
           logging ERROR
             ("Unexpected error while processing " +:+ file +:+ ": " +:+ e) w)
      end
  | ReadFails e =>
      (merged_results,
       logging ERROR
         ("Unexpected error while processing " +:+ file +:+ ": " +:+ e) w)
  | OpenFails e =>
      (merged_results,
       logging ERROR ("Error opening file " +:+ file +:+ ": " +:+ e) w)
  | NoFile =>
      (merged_results,
       logging WARNING
         ("Report file " +:+ file +:+ " not found or is not a valid file.") w)
  end.

(** The loop. An entry of the list is a path or [None], which is what
    [run_behave_test] returns for a worker that failed before it named
    its report: on [None] the test [os.path.isfile], which is outside
    every [try], raises [TypeError], and the loop is left with what the
    paths before it logged. *)
Fixpoint merge_files (st : list value * world)
    (json_report_files : list (option string)) : res (list value) * world :=
  match json_report_files with
  | [] => (Ok st.1, st.2)
  | Some file :: files' => merge_files (merge_file st file) files'
  | None :: _ => (Raise TypeError, st.2)
  end.

Definition merge_json_reports (json_report_files : list (option string))
    (w : world) : res (list value) * world :=
  match merge_files ([], w) json_report_files with
  | (Ok merged_results, w') =>
      match VList merged_results with
      | VList l => (Ok l, w')
      | _ => (Raise ValueError, w')
      end
  | (Raise e, w') => (Raise e, w')
  end.

(** The array a shard contributes, when it is a valid shard. *)
Definition shard_array (w : world) (file : string) : option (list value) :=
  match files w file with
  | Content text =>
      match json_load text with
      | Loaded (VList l) => Some l
      | _ => None
      end
  | _ => None
  end.

(** The paths that are no valid shard. *)
Definition skipped_paths (w : world) (paths : list string) : list string :=
  filter (λ p, shard_array w p = None) paths.

(** The paths before the first entry that is [None]. *)
Fixpoint paths_before_none (json_report_files : list (option string))
    : list string :=
  match json_report_files with
  | Some file :: files' => file :: paths_before_none files'
  | _ => []
  end.

(** Every entry is a path. *)
Definition all_paths (json_report_files : list (option string)) : bool :=
  forallb (λ file, bool_decide (is_Some file)) json_report_files.

End merge.

(** *** Tallies *)

(** [obj.get(key, default)]: only a dict has the method. *)
Definition py_get (key : string) (dflt : value) (obj : value) : res value :=
  match obj with
  | VDict d => Ok (default dflt (dict_get key d))
  | _ => Raise AttributeError
  end.

Fixpoint chars (s : string) : list value :=
  match s with
  | EmptyString => []
  | String c s' => VStr (String c EmptyString) :: chars s'
  end.

(** [for x in obj]: the items of a list, the keys of a dict, the
    characters of a string. *)
Definition py_iter (obj : value) : res (list value) :=
  match obj with
  | VList l => Ok l
  | VDict d => Ok (VStr <$> dict_keys d)
  | VStr s => Ok (chars s)
  | _ => Raise TypeError
  end.

Record tallies := mk_tallies {
  passed : nat; failed : nat; skipped : nat; errors : nat;
}.

(** The body of the inner loop. *)
Definition tally_scenario (t : tallies) (scenario : value) : res tallies :=
  scenario_status ← py_get "status" (VStr "unknown") scenario;
  if py_eq scenario_status (VStr "passed") then
    Ok (mk_tallies (passed t + 1) (failed t) (skipped t) (errors t))
  else if py_eq scenario_status (VStr "failed") then
    Ok (mk_tallies (passed t) (failed t + 1) (skipped t) (errors t))
  else if py_eq scenario_status (VStr "skipped") then
    Ok (mk_tallies (passed t) (failed t) (skipped t + 1) (errors t))
  else if py_eq scenario_status (VStr "undefined") then
    Ok (mk_tallies (passed t) (failed t) (skipped t) (errors t + 1))
  else Ok t.

(** The body of the outer loop. *)
Definition tally_result (t : tallies) (result : value) : res tallies :=
  elements ← py_get "elements" (VList []) result;
  scenarios ← py_iter elements;
  foldM tally_scenario t scenarios.

Definition generate_report_statistics (merged_results : list value) : res tallies :=
  foldM tally_result (mk_tallies 0 0 0 0) merged_results.

(** *** Feature records, for stating what the tallies count *)

Definition is_dict (v : value) : bool :=
  match v with VDict _ => true | _ => false end.

(** A feature record: an object whose [elements], when present, is an
    array of objects. *)
Definition is_feature_record (v : value) : bool :=
  match v with
  | VDict d =>
      match dict_get "elements" d with
      | None => true
      | Some (VList els) => forallb is_dict els
      | Some _ => false
      end
  | _ => false
  end.

Definition elements_of (v : value) : list value :=
  match v with
  | VDict d =>
      match dict_get "elements" d with
      | Some (VList els) => els
      | _ => []
      end
  | _ => []
  end.

Definition status_is (name : string) (element : value) : bool :=
  match element with
  | VDict d =>
      match dict_get "status" d with
      | Some (VStr s) => String.eqb s name
      | _ => false
      end
  | _ => false
  end.

Definition count_in (name : string) (elements : list value) : nat :=
  length (filter (λ e, status_is name e = true) elements).

Definition count_status (name : string) (records : list value) : nat :=
  count_in name (records ≫= elements_of).

(** The tallies [t] after the elements with one of the four counted
    statuses have been added. *)
Definition add_counts (t : tallies) (elements : list value) : tallies :=
  mk_tallies (passed t + count_in "passed" elements)
    (failed t + count_in "failed" elements)
    (skipped t + count_in "skipped" elements)
    (errors t + count_in "undefined" elements).

(** The tallies as the specification words them: passed, failed and
    skipped each to its own tally, every other element to [errors]. *)
Definition computeTallies_spec (records : list value) : tallies :=
  let all := records ≫= elements_of in
  let p := count_status "passed" records in
  let f := count_status "failed" records in
  let s := count_status "skipped" records in
  mk_tallies p f s (length all - (p + f + s)).

End runner.

(** ** Strings *)

(** The line boundaries of [str.splitlines] below code point 256. *)
Definition is_linebreak (c : ascii) : bool :=
  match nat_of_ascii c with
  | 10 | 11 | 12 | 13 | 28 | 29 | 30 | 133 => true
  | _ => false
  end.

(** [s.splitlines()]: a carriage return followed by a line feed is one
    boundary, and a final boundary opens no further line. [line] is the
    line read so far. *)
Fixpoint splitlines_from (line : string) (s : string) : list string :=
  match s with
  | EmptyString => if String.eqb line "" then [] else [line]
  | String c s' =>
      if is_linebreak c then
        match Ascii.eqb c CR, s' with
        | true, String c' s'' =>
            if Ascii.eqb c' LF then line :: splitlines_from "" s''
            else line :: splitlines_from "" s'
        | _, _ => line :: splitlines_from "" s'
        end
      else splitlines_from (line +:+ String c EmptyString) s'
  end.

Definition splitlines (s : string) : list string := splitlines_from "" s.

(** ["\n" in s] *)
Fixpoint contains_newline (s : string) : bool :=
  match s with
  | EmptyString => false
  | String c s' => Ascii.eqb c LF || contains_newline s'
  end.

(** ** What the BDD runner hands to the formatter *)

Module behave.

Module Status.
Inductive t :=
| untested | skipped | passed | failed | undefined | executing | error.

Definition name (s : t) : string :=
  match s with
  | untested => "untested"
  | skipped => "skipped"
  | passed => "passed"
  | failed => "failed"
  | undefined => "undefined"
  | executing => "executing"
  | error => "error"
  end.

Definition eqb (a b : t) : bool := String.eqb (name a) (name b).
End Status.

Record Table := mk_Table {
  headings : list string;
  rows : list (list string);
}.

(** [text] is [None] or a string, [table] is [None] or a table;
    [duration] is the int 0 until the step has run, then a float. *)
Record Step := mk_Step {
  st_keyword : string;
  st_step_type : string;
  st_name : string;
  st_location : string;
  st_text : option string;
  st_table : option Table;
  st_status : Status.t;
  st_duration : number;
  st_error_message : option string;
}.

Record Feature := mk_Feature {
  f_keyword : string;
  f_name : string;
  f_tags : list string;
  f_location : string;
  f_description : list string;
  f_status : Status.t;
}.

Record Background := mk_Background {
  b_keyword : string;
  b_name : string;
  b_location : string;
  b_steps : list Step;
}.

(** [retry_attempts] is an attribute a scenario may lack. *)
Record Scenario := mk_Scenario {
  sc_keyword : string;
  sc_name : string;
  sc_tags : list string;
  sc_location : string;
  sc_description : list string;
  sc_status : Status.t;
  sc_retry_attempts : option Z;
}.

Record Argument := mk_Argument {
  arg_value : value;
  arg_name : option string;
  arg_original : value;
}.

(** [location] is [None] for a step with no definition. *)
Record Match := mk_Match {
  m_location : option string;
  m_arguments : list Argument;
}.

End behave.

(** ** Step result collector
       (CustomJsonReportFormatter/custom_json_formatter.py) *)

Module CustomJSONFormatter.
Import behave.

(** *** The feature tree under construction *)

(** A step record is the dict the code builds: its keys arrive in the
    order of the calls. Elements and features have a fixed set of keys
    and are records, with the optional keys as options. *)
Record element := mk_element {
  e_type : string;
  e_keyword : string;
  e_name : string;
  e_tags : list string;
  e_location : string;
  e_steps : list dict;
  e_status : value;
  e_start_time : string;
  e_end_time : value;
  e_retry_attempts : option Z;
  e_description : option (list string);
}.

Record feature_data := mk_feature_data {
  fd_keyword : string;
  fd_name : string;
  fd_tags : list string;
  fd_location : string;
  fd_status : value;
  fd_start_time : string;
  fd_end_time : value;
  fd_description : option (list string);
  fd_elements : option (list element);
}.

Definition set_steps (steps : list dict) (e : element) : element :=
  mk_element (e_type e) (e_keyword e) (e_name e) (e_tags e) (e_location e)
    steps (e_status e) (e_start_time e) (e_end_time e)
    (e_retry_attempts e) (e_description e).

Definition set_elements (els : list element) (fd : feature_data) : feature_data :=
  mk_feature_data (fd_keyword fd) (fd_name fd) (fd_tags fd) (fd_location fd)
    (fd_status fd) (fd_start_time fd) (fd_end_time fd) (fd_description fd)
    (Some els).

(** *** The dicts that [json.dumps] receives *)

Definition strs (l : list string) : value := VList (VStr <$> l).

Definition opt_key (key : string) (o : option value) : dict :=
  match o with
  | Some v => [(key, v)]
  | None => []
  end.

Definition element_to_value (e : element) : value :=
  if String.eqb (e_type e) "background" then
    VDict [("type", VStr (e_type e)); ("keyword", VStr (e_keyword e));
           ("name", VStr (e_name e)); ("location", VStr (e_location e));
           ("status", e_status e); ("steps", VList (VDict <$> e_steps e));
           ("start_time", VStr (e_start_time e)); ("end_time", e_end_time e);
           ("tags", strs (e_tags e))]
  else
    VDict ([("type", VStr (e_type e)); ("keyword", VStr (e_keyword e));
            ("name", VStr (e_name e)); ("tags", strs (e_tags e));
            ("location", VStr (e_location e));
            ("steps", VList (VDict <$> e_steps e));
            ("status", e_status e);
            ("start_time", VStr (e_start_time e)); ("end_time", e_end_time e)]
           ++ opt_key "retry_attempts" (VInt <$> e_retry_attempts e)
           ++ opt_key "description" (strs <$> e_description e)).

Definition feature_to_value (fd : feature_data) : value :=
  VDict ([("keyword", VStr (fd_keyword fd)); ("name", VStr (fd_name fd));
          ("tags", strs (fd_tags fd)); ("location", VStr (fd_location fd));
          ("status", fd_status fd);
          ("start_time", VStr (fd_start_time fd)); ("end_time", fd_end_time fd)]
         ++ opt_key "description" (strs <$> fd_description fd)
         ++ opt_key "elements"
              ((λ els, VList (element_to_value <$> els)) <$> fd_elements fd)).

(** *** The formatter, its output and the store *)

(** What [self.stream.write] received: literal text, or the text
    [json.dumps] made of a value. *)
Inductive chunk :=
| Text (s : string)
| Dump (v : value).

(** [stream_open] is false once [close_stream] has run. *)
Record formatter := mk_formatter {
  stream_open : bool;
  feature_count : nat;
  current_feature : option Feature;
  current_feature_data : option feature_data;
  current_scenario : option Scenario;
  step_index : nat;
}.

Record world := mk_world {
  fmt : formatter;
  out : list chunk;
  ctx : CustomContext.t;
}.

(** A callback returns or raises; either way the world it leaves. *)
Inductive outcome :=
| Done (w : world)
| Failed (e : exn) (w : world).

Definition world_of (o : outcome) : world :=
  match o with
  | Done w => w
  | Failed _ w => w
  end.

Definition and_then (o : outcome) (k : world → outcome) : outcome :=
  match o with
  | Done w => k w
  | Failed e w => Failed e w
  end.

Definition set_fmt (fm : formatter) (w : world) : world :=
  mk_world fm (out w) (ctx w).

(** A callback that touches the formatter alone and raises before it
    changes anything. *)
Definition on_fmt (f : formatter → res formatter) (w : world) : outcome :=
  match f (fmt w) with
  | Ok fm => Done (set_fmt fm w)
  | Raise e => Failed e w
  end.

Definition init : formatter := mk_formatter true 0 None None None 0.

Definition init_world : world := mk_world init [] CustomContext.new.

Definition reset (fm : formatter) : formatter :=
  mk_formatter (stream_open fm) (feature_count fm) None None None 0.

Definition set_feature_data (fd : feature_data) (fm : formatter) : formatter :=
  mk_formatter (stream_open fm) (feature_count fm) (current_feature fm)
    (Some fd) (current_scenario fm) (step_index fm).

Definition set_scenario (sc : Scenario) (fm : formatter) : formatter :=
  mk_formatter (stream_open fm) (feature_count fm) (current_feature fm)
    (current_feature_data fm) (Some sc) (step_index fm).

Definition set_step_index (i : nat) (fm : formatter) : formatter :=
  mk_formatter (stream_open fm) (feature_count fm) (current_feature fm)
    (current_feature_data fm) (current_scenario fm) i.

(** [l[-1] = f(l[-1])]: the in-place change of the last item. *)
Fixpoint alter_last {A} (f : A → A) (l : list A) : list A :=
  match l with
  | [] => []
  | [x] => [f x]
  | x :: l' => x :: alter_last f l'
  end.

(** *** Feature and elements *)

Definition feature (now : string) (f : Feature) (fm : formatter) : formatter :=
  let fm := reset fm in
  mk_formatter (stream_open fm) (feature_count fm) (Some f)
    (Some (mk_feature_data (f_keyword f) (f_name f) (f_tags f) (f_location f)
             VNone now VNone
             (match f_description f with
              | [] => None
              | d => Some d
              end)
             None))
    (current_scenario fm) (step_index fm).

Definition add_feature_element (e : element) (fm : formatter) : res formatter :=
  match current_feature_data fm with
  | None => Raise AssertionError
  | Some fd =>
      Ok (set_feature_data (set_elements (default [] (fd_elements fd) ++ [e]) fd) fm)
  end.

(** The property [current_feature_element]. *)
Definition current_feature_element (fm : formatter) : res element :=
  match current_feature_data fm with
  | None => Raise AssertionError
  | Some fd =>
      match fd_elements fd with
      | None => Raise KeyError
      | Some els =>
          match last els with
          | None => Raise IndexError
          | Some e => Ok e
          end
      end
  end.

(** A change made through the reference [current_feature_element]
    returned: it lands in the last element of the feature. *)
Definition update_feature_element (f : element → element) (fm : formatter)
  : formatter :=
  match current_feature_data fm with
  | Some fd =>
      match fd_elements fd with
      | Some els => set_feature_data (set_elements (alter_last f els) fd) fm
      | None => fm
      end
  | None => fm
  end.

Definition finish_element (now : string) (sc : Scenario) (e : element) : element :=
  mk_element (e_type e) (e_keyword e) (e_name e) (e_tags e) (e_location e)
    (e_steps e) (VStr (Status.name (sc_status sc))) (e_start_time e) (VStr now)
    (Some (default 0%Z (sc_retry_attempts sc))) (e_description e).

Definition finish_previous_element_data (now : string) (fm : formatter)
  : res formatter :=
  match current_feature_data fm with
  | None => Ok fm
  | Some fd =>
      match fd_elements fd with
      | None => Ok fm
      | Some els =>
          match last els with
          | None => Raise IndexError
          | Some element =>
              match String.eqb (e_type element) "scenario", current_scenario fm with
              | true, Some sc => Ok (update_feature_element (finish_element now sc) fm)
              | _, _ => Ok fm
              end
          end
      end
  end.

Definition make_table (table : Table) : value :=
  VDict [("headings", strs (headings table));
         ("rows", VList (strs <$> rows table))].

(** [split_text_into_lines] is the class constant [True]. *)
Definition split_text (text : string) : value :=
  if contains_newline text then strs (splitlines text) else VStr text.

(** The dict [s] that [step] builds. *)
Definition step_record (now : string) (step : Step) : dict :=
  let s := [("keyword", VStr (st_keyword step));
            ("step_type", VStr (st_step_type step));
            ("name", VStr (st_name step));
            ("location", VStr (st_location step));
            ("start_time", VStr now);
            ("end_time", VNone)] in
  let s :=
    match st_text step with
    | Some text =>
        if String.eqb text "" then s else dict_set "text" (split_text text) s
    | None => s
    end in
  match st_table step with
  | Some table => dict_set "table" (make_table table) s
  | None => s
  end.

Definition step (now : string) (st : Step) (fm : formatter) : res formatter :=
  element ← current_feature_element fm;
  Ok (update_feature_element
        (λ e, set_steps (e_steps e ++ [step_record now st]) e) fm).

(** The clock is read at every write of a time: each callback takes
    one reading for each place that reads it. [background] reads it
    when it finishes the previous element, for the start of the
    background, and once for each step it replays: [step_now i] for
    step number [i]. *)
Definition replayed (step_now : nat → string) (steps : list Step)
    : list (string * Step) :=
  imap (λ i step_, (step_now i, step_)) steps.

Definition background (now_finish now : string) (step_now : nat → string)
    (b : Background) (fm : formatter) : res formatter :=
  fm ← finish_previous_element_data now_finish fm;
  fm ← add_feature_element
         (mk_element "background" (b_keyword b) (b_name b) [] (b_location b)
            [] (VStr "") now VNone None None) fm;
  let fm := set_step_index 0 fm in
  foldM (λ fm a, step a.1 a.2 fm) fm (replayed step_now (b_steps b)).

(** [self.current_scenario] is assigned before [add_feature_element]
    can raise. *)
Definition scenario (now_finish now : string) (sc : Scenario) (w : world)
    : outcome :=
  match finish_previous_element_data now_finish (fmt w) with
  | Raise e => Failed e w
  | Ok fm =>
      let fm := set_scenario sc fm in
      match add_feature_element
              (mk_element "scenario" (sc_keyword sc) (sc_name sc) (sc_tags sc)
                 (sc_location sc) [] VNone now VNone
                 (Some (default 0%Z (sc_retry_attempts sc)))
                 (match sc_description sc with
                  | [] => None
                  | d => Some d
                  end)) fm with
      | Raise e => Failed e (set_fmt fm w)
      | Ok fm => Done (set_fmt (set_step_index 0 fm) w)
      end
  end.

(** *** Match *)

(** [isinstance(v, json_scalar_types)]: int, float, str, bool, None. *)
Definition is_json_scalar (v : value) : bool :=
  match v with
  | VList _ | VDict _ => false
  | _ => true
  end.

(** The body of the loop over [match.arguments]. *)
Definition match_argument (argument : Argument) : res value :=
  let argument_value :=
    if is_json_scalar (arg_value argument) then arg_value argument
    else arg_original argument in
  if is_json_scalar argument_value then
    let arg := [("value", argument_value)] in
    let arg :=
      match arg_name argument with
      | Some n => if String.eqb n "" then arg else dict_set "name" (VStr n) arg
      | None => arg
      end in
    let arg :=
      if py_ne (arg_original argument) argument_value
      then dict_set "original" (arg_original argument) arg
      else arg in
    Ok (VDict arg)
  else Raise AssertionError.

Fixpoint match_arguments (arguments : list Argument) : res (list value) :=
  match arguments with
  | [] => Ok []
  | argument :: rest =>
      arg ← match_argument argument;
      args ← match_arguments rest;
      Ok (arg :: args)
  end.

(** [steps[i][key] = v] on the current element. *)
Definition set_step_key (i : nat) (key : string) (v : value) (e : element)
  : element :=
  set_steps (alter (dict_set key v) i (e_steps e)) e.

Definition match_ (m : Match) (fm : formatter) : res formatter :=
  args ← match_arguments (m_arguments m);
  let match_data :=
    VDict [("location", VStr (default "None" (m_location m)));
           ("arguments", VList args)] in
  match m_location m with
  | Some _ =>
      element ← current_feature_element fm;
      match e_steps element !! step_index fm with
      | None => Raise IndexError
      | Some _ =>
          Ok (update_feature_element
                (set_step_key (step_index fm) "match" match_data) fm)
      end
  | None => Ok fm
  end.

(** *** Result *)

(** One of the three loops over [user_data.keys()]: the entries whose
    key starts with [prefix], read through [get_user_data]. *)
Definition drain (prefix : string) (c : CustomContext.t) : dict :=
  foldl (λ data key,
           if String.prefix prefix key
           then dict_set key (CustomContext.get_user_data key c) data
           else data)
    [] (dict_keys (CustomContext.user_data c)).

(** [if data: CustomContext.reset_user_data(key)] *)
Definition reset_if_drained (data : dict) (key : string) (c : CustomContext.t)
  : CustomContext.t :=
  if truthy (VDict data) then CustomContext.reset_user_data key c else c.

Definition error_message_of (step : Step) : option value :=
  match st_error_message step with
  | Some msg =>
      if String.eqb msg "" then None
      else if Status.eqb (st_status step) Status.failed
              || Status.eqb (st_status step) Status.error
      then Some (split_text msg)
      else None
  | None => None
  end.

Section builtins.

(** [round(x, 2)] on floats and [base64.b64encode(data).decode(...)]. *)
Variable round2 : spec_float → spec_float.
Variable b64encode : string → string.

(** [round(step.duration, 2)]: an int, which is what a step that was
    never executed holds, is its own rounding. *)
Definition rounded_duration (duration : number) : value :=
  match duration with
  | NZ z => VInt z
  | NF f => VFloat (round2 f)
  end.

Definition result_record (now : string) (step : Step) : dict :=
  let r := [("status", VStr (Status.name (st_status step)));
            ("end_time", VStr now);
            ("duration", rounded_duration (st_duration step))] in
  match error_message_of step with
  | Some msg => dict_set "error_message" msg r
  | None => r
  end.

Definition result (now : string) (step : Step) (w : world) : outcome :=
  let c := ctx w in
  let input_data := drain "inputdata" c in
  let output_data := drain "outputdata" c in
  let screenshot_data := drain "screenshot" c in
  let c := CustomContext.set_user_data "Input Data" (VDict input_data) c in
  let c := CustomContext.set_user_data "Output Data" (VDict output_data) c in
  let c := CustomContext.set_user_data "Screenshot Data" (VDict screenshot_data) c in
  let fm := fmt w in
  match current_feature_element fm with
  | Raise e => Failed e (mk_world fm (out w) c)
  | Ok element =>
      let i := step_index fm in
      match e_steps element !! i with
      | None => Failed IndexError (mk_world fm (out w) c)
      | Some _ =>
          let fm :=
            update_feature_element
              (λ e,
                 set_step_key i "result" (VDict (result_record now step))
                   (set_step_key i "Screenshot_data" (VDict screenshot_data)
                      (set_step_key i "Test_Output_data" (VDict output_data)
                         (set_step_key i "Test_data" (VDict input_data) e))))
              fm in
          let fm := set_step_index (step_index fm + 1) fm in
          let c := reset_if_drained input_data "inputdata" c in
          let c := reset_if_drained output_data "outputdata" c in
          let c := reset_if_drained screenshot_data "screenshot" c in
          Done (mk_world fm (out w) c)
      end
  end.

(** *** Embedding *)

Definition add_embedding (emb : value) (s : dict) : dict :=
  match dict_get "embeddings" s with
  | Some (VList l) => dict_set "embeddings" (VList (l ++ [emb])) s
  | _ => dict_set "embeddings" (VList [emb]) s
  end.

(** [if "embeddings" not in step: step["embeddings"] = []] *)
Definition ensure_embeddings (s : dict) : dict :=
  match dict_get "embeddings" s with
  | Some _ => s
  | None => dict_set "embeddings" (VList []) s
  end.

(** The list is put into the step before the record is built. The
    record reads [self.stream.encoding], and the stream is [None] once
    [close_stream] has run; a value under [embeddings] that is no list
    has no [append]: both are an [AttributeError], raised with the list
    already in the step. *)
Definition embedding (mime_type : string) (data : string) (w : world)
    : outcome :=
  let fm := fmt w in
  match current_feature_element fm with
  | Raise e => Failed e w
  | Ok element =>
      match e_steps element !! step_index fm with
      | None => Failed IndexError w
      | Some step =>
          let listed :=
            update_feature_element
              (λ e, set_steps
                      (alter ensure_embeddings (step_index fm) (e_steps e)) e)
              fm in
          match dict_get "embeddings" (ensure_embeddings step) with
          | Some (VList _) =>
              if stream_open fm then
                let emb := VDict [("mime_type", VStr mime_type);
                                  ("data", VStr (b64encode data))] in
                Done (set_fmt
                        (update_feature_element
                           (λ e, set_steps
                                   (alter (add_embedding emb) (step_index fm)
                                      (e_steps e)) e)
                           fm) w)
              else Failed AttributeError (set_fmt listed w)
          | _ => Failed AttributeError (set_fmt listed w)
          end
      end
  end.

(** *** Writer, end of feature, end of run *)

(** [self.stream.write]. The stream comes from the base class of the
    runner's library, which is not part of the sources: it is kept as the
    list of what was written and a flag, and a write after [close_stream]
    raises. *)
Definition write (c : chunk) (w : world) : outcome :=
  if stream_open (fmt w) then Done (mk_world (fmt w) (out w ++ [c]) (ctx w))
  else Failed AttributeError w.

(** The three literals: an opening bracket and a line feed; a line
    feed, a closing bracket and a line feed; a comma and two line
    feeds. *)
Definition header : chunk := Text (String "[" (String LF EmptyString)).
Definition footer : chunk := Text (String LF (String "]" (String LF EmptyString))).
Definition separator : chunk := Text (String "," (String LF (String LF EmptyString))).

Definition write_json_header : world → outcome := write header.

Definition write_json_footer : world → outcome := write footer.

Definition write_json_feature_separator : world → outcome := write separator.

Definition write_json_feature (fd : feature_data) : world → outcome :=
  write (Dump (feature_to_value fd)).

Definition update_status_data (now : string) (fm : formatter) : res formatter :=
  match current_feature fm, current_feature_data fm with
  | Some f, Some fd =>
      Ok (set_feature_data
            (mk_feature_data (fd_keyword fd) (fd_name fd) (fd_tags fd)
               (fd_location fd) (VStr (Status.name (f_status f)))
               (fd_start_time fd) (VStr now) (fd_description fd)
               (fd_elements fd)) fm)
  | _, _ => Raise AssertionError
  end.

Definition bump_feature_count (fm : formatter) : formatter :=
  mk_formatter (stream_open fm) (feature_count fm + 1) (current_feature fm)
    (current_feature_data fm) (current_scenario fm) (step_index fm).

Definition eof (now_finish now : string) (w : world) : outcome :=
  match current_feature_data (fmt w) with
  | None => Done w
  | Some _ =>
      and_then (on_fmt (finish_previous_element_data now_finish) w) (λ w,
      and_then (on_fmt (update_status_data now) w) (λ w,
      and_then (if Nat.eqb (feature_count (fmt w)) 0
                then write_json_header w
                else write_json_feature_separator w) (λ w,
      match current_feature_data (fmt w) with
      | Some fd =>
          and_then (write_json_feature fd w) (λ w,
          Done (set_fmt (bump_feature_count (reset (fmt w))) w))
      | None => Failed AssertionError w
      end)))
  end.

Definition close_stream (fm : formatter) : formatter :=
  mk_formatter false (feature_count fm) (current_feature fm)
    (current_feature_data fm) (current_scenario fm) (step_index fm).

Definition close (w : world) : outcome :=
  and_then (if Nat.eqb (feature_count (fmt w)) 0
            then write_json_header w
            else Done w) (λ w,
  and_then (write_json_footer w) (λ w,
  Done (set_fmt (close_stream (fmt w)) w))).

(** *** The runner drives the formatter *)

(** The formatter keeps references to the feature and the scenario it
    was given; the runner sets their status as it executes them. A
    store write is what a step or a page object does between calls. *)
Inductive runner_update :=
| SetFeatureStatus (s : Status.t)
| SetScenarioStatus (s : Status.t)
| SetScenarioRetry (n : Z)
| SetUserData (key : string) (v : value).

Definition update (u : runner_update) (w : world) : world :=
  let fm := fmt w in
  match u with
  | SetFeatureStatus s =>
      match current_feature fm with
      | Some f =>
          set_fmt
            (mk_formatter (stream_open fm) (feature_count fm)
               (Some (mk_Feature (f_keyword f) (f_name f) (f_tags f)
                        (f_location f) (f_description f) s))
               (current_feature_data fm) (current_scenario fm) (step_index fm))
            w
      | None => w
      end
  | SetScenarioStatus s =>
      match current_scenario fm with
      | Some sc =>
          set_fmt
            (set_scenario
               (mk_Scenario (sc_keyword sc) (sc_name sc) (sc_tags sc)
                  (sc_location sc) (sc_description sc) s (sc_retry_attempts sc))
               fm) w
      | None => w
      end
  | SetScenarioRetry n =>
      match current_scenario fm with
      | Some sc =>
          set_fmt
            (set_scenario
               (mk_Scenario (sc_keyword sc) (sc_name sc) (sc_tags sc)
                  (sc_location sc) (sc_description sc) (sc_status sc) (Some n))
               fm) w
      | None => w
      end
  | SetUserData key v =>
      mk_world fm (out w) (CustomContext.set_user_data key v (ctx w))
  end.

Inductive call :=
| CFeature (now : string) (f : Feature)
| CBackground (now_finish now : string) (step_now : nat → string)
    (b : Background)
| CScenario (now_finish now : string) (sc : Scenario)
| CStep (now : string) (st : Step)
| CMatch (m : Match)
| CResult (now : string) (st : Step)
| CEmbedding (mime_type data : string)
| CEof (now_finish now : string)
| CClose
| CUpdate (u : runner_update).

Definition dispatch (c : call) (w : world) : outcome :=
  match c with
  | CFeature now f => Done (set_fmt (feature now f (fmt w)) w)
  | CBackground now_finish now step_now b =>
      on_fmt (background now_finish now step_now b) w
  | CScenario now_finish now sc => scenario now_finish now sc w
  | CStep now st => on_fmt (step now st) w
  | CMatch m => on_fmt (match_ m) w
  | CResult now st => result now st w
  | CEmbedding mime_type data => embedding mime_type data w
  | CEof now_finish now => eof now_finish now w
  | CClose => close w
  | CUpdate u => Done (update u w)
  end.

(** The calls in order; the first exception ends the run. *)
Fixpoint run (calls : list call) (w : world) : outcome :=
  match calls with
  | [] => Done w
  | c :: calls' => and_then (dispatch c w) (run calls')
  end.

End builtins.

(** *** Reading the output back *)

(** The output as [json.load] meets it: brackets, commas and white space
    of the literal text, and one token per dumped value, which stands
    for the text [json.dumps] wrote and [json.load] reads back. *)
Inductive token :=
| TOpen
| TClose
| TComma
| TValue (v : value)
| TOther (c : ascii).

Definition is_json_space (c : ascii) : bool :=
  match nat_of_ascii c with
  | 9 | 10 | 13 | 32 => true
  | _ => false
  end.

Fixpoint tokens_of_text (s : string) : list token :=
  match s with
  | EmptyString => []
  | String c s' =>
      if is_json_space c then tokens_of_text s'
      else if Ascii.eqb c "["%char then TOpen :: tokens_of_text s'
      else if Ascii.eqb c "]"%char then TClose :: tokens_of_text s'
      else if Ascii.eqb c ","%char then TComma :: tokens_of_text s'
      else TOther c :: tokens_of_text s'
  end.

Definition tokens (o : list chunk) : list token :=
  o ≫= λ c,
    match c with
    | Text s => tokens_of_text s
    | Dump v => [TValue v]
    end.

Fixpoint array_items (ts : list token) : option (list value) :=
  match ts with
  | [TClose] => Some []
  | TComma :: TValue v :: ts' => (v ::.) <$> array_items ts'
  | _ => None
  end.

(** The document, when it is one array and nothing else. *)
Definition json_load_output (o : list chunk) : option value :=
  match tokens o with
  | [TOpen; TClose] => Some (VList [])
  | TOpen :: TValue v :: ts => (λ vs, VList (v :: vs)) <$> array_items ts
  | _ => None
  end.

Definition steps_of (element : value) : list value :=
  match element with
  | VDict d =>
      match dict_get "steps" d with
      | Some (VList steps) => steps
      | _ => []
      end
  | _ => []
  end.

(** *** Well-formed runs *)

(** The calls made while one element is current. *)
Inductive step_call :=
| SStep (now : string) (st : Step)
| SMatch (m : Match)
| SResult (now : string) (st : Step)
| SEmbedding (mime_type data : string)
| SUpdate (u : runner_update).

Inductive element_start :=
| BackgroundStart (now_finish now : string) (step_now : nat → string)
    (b : Background)
| ScenarioStart (now_finish now : string) (sc : Scenario).

Record element_run := mk_element_run {
  er_start : element_start;
  er_calls : list step_call;
}.

Record feature_run := mk_feature_run {
  fr_now : string;
  fr_feature : Feature;
  fr_elements : list element_run;
  fr_finish : string;
  fr_eof : string;
}.

Definition call_of_step_call (c : step_call) : call :=
  match c with
  | SStep now st => CStep now st
  | SMatch m => CMatch m
  | SResult now st => CResult now st
  | SEmbedding mime_type data => CEmbedding mime_type data
  | SUpdate u => CUpdate u
  end.

Definition calls_of_element (er : element_run) : list call :=
  match er_start er with
  | BackgroundStart now_finish now step_now b =>
      CBackground now_finish now step_now b
  | ScenarioStart now_finish now sc => CScenario now_finish now sc
  end :: (call_of_step_call <$> er_calls er).

Definition calls_of_feature (fr : feature_run) : list call :=
  CFeature (fr_now fr) (fr_feature fr)
    :: (fr_elements fr ≫= calls_of_element)
    ++ [CEof (fr_finish fr) (fr_eof fr)].

(** A whole run: the features one after the other, then the end. *)
Definition calls_of_run (frs : list feature_run) : list call :=
  (frs ≫= calls_of_feature) ++ [CClose].

Definition announced_by (c : step_call) : option (string * Step) :=
  match c with
  | SStep now st => Some (now, st)
  | _ => None
  end.

(** The [onStep] calls made while the element is current, with their
    clock readings: those a background replays, then the runner's. *)
Definition onStep_calls (er : element_run) : list (string * Step) :=
  match er_start er with
  | BackgroundStart _ _ step_now b => replayed step_now (b_steps b)
  | ScenarioStart _ _ _ => []
  end
  ++ omap announced_by (er_calls er).

Definition match_serializable (m : Match) : bool :=
  forallb (λ a, is_json_scalar (arg_value a) || is_json_scalar (arg_original a))
    (m_arguments m).

(** [n] steps announced so far, [c] of them with a result: a result, a
    located match and an embedding need a step at the cursor. *)
Fixpoint wf_calls (n c : nat) (calls : list step_call) : bool :=
  match calls with
  | [] => true
  | SStep _ _ :: calls' => wf_calls (S n) c calls'
  | SMatch m :: calls' =>
      match_serializable m
      && (match m_location m with Some _ => c <? n | None => true end)
      && wf_calls n c calls'
  | SResult _ _ :: calls' => (c <? n) && wf_calls n (S c) calls'
  | SEmbedding _ _ :: calls' => (c <? n) && wf_calls n c calls'
  | SUpdate _ :: calls' => wf_calls n c calls'
  end.

Definition wf_element (er : element_run) : bool :=
  wf_calls
    (match er_start er with
     | BackgroundStart _ _ _ b => length (b_steps b)
     | ScenarioStart _ _ _ => 0
     end) 0 (er_calls er).

Definition wf_run (frs : list feature_run) : bool :=
  forallb (λ fr, forallb wf_element (fr_elements fr)) frs.



(** A stored step still shows what [onStep] recorded: the keys [step]
    wrote are there with the values it gave them, and what it lists
    under [embeddings], if anything, is a list. *)
Definition embeddings_listed (d : dict) : bool :=
  match dict_get "embeddings" d with
  | None | Some (VList _) => true
  | Some _ => false
  end.

Definition dict_extends (d : dict) (a : string * Step) : Prop :=
  (∀ key v, dict_get key (step_record a.1 a.2) = Some v →
            dict_get key d = Some v)
  ∧ embeddings_listed d = true.

Definition step_extends (stored : value) (a : string * Step) : Prop :=
  ∃ d, stored = VDict d ∧ dict_extends d a.

(** The steps of an element are those announced while it was current,
    in the order of the calls. *)
Definition element_matches (e : element) (er : element_run) : Prop :=
  Forall2 dict_extends (e_steps e) (onStep_calls er).

Definition feature_matches (fv : value) (fr : feature_run) : Prop :=
  Forall2 (λ e er, Forall2 step_extends (steps_of e) (onStep_calls er))
    (runner.elements_of fv) (fr_elements fr).



(** *** The state between the calls of a well-formed run *)

(** The keys written to a step after [step] made it. *)
Definition late_key (key : string) : bool :=
  existsb (String.eqb key)
    ["match"; "Test_data"; "Test_Output_data"; "Screenshot_data"; "result";
     "embeddings"].

(** The key [elements] is missing until the first element is added. *)
Definition elements_field (els : list element) : option (list element) :=
  match els with
  | [] => None
  | _ => Some els
  end.

Definition frame (k : nat) (fm : formatter) : Prop :=
  stream_open fm = true ∧ feature_count fm = k ∧ is_Some (current_feature fm).

(** Inside an element: the elements before it match the runs [ers], its
    steps are those announced so far, the cursor is [c]. *)
Definition building (k : nat) (ers : list element_run)
    (an : list (string * Step)) (c : nat) (fm : formatter) : Prop :=
  frame k fm ∧ step_index fm = c
  ∧ ∃ fd els e,
      current_feature_data fm = Some fd
      ∧ fd_elements fd = Some (els ++ [e])
      ∧ Forall2 element_matches els ers
      ∧ Forall2 dict_extends (e_steps e) an.

(** Between two elements of a feature. *)
Definition open_feature (k : nat) (ers : list element_run) (fm : formatter)
  : Prop :=
  frame k fm
  ∧ ∃ fd els,
      current_feature_data fm = Some fd
      ∧ fd_elements fd = elements_field els
      ∧ Forall2 element_matches els ers.


(** The output of a run that wrote the features [fs]. *)
Definition document (fs : list value) : list chunk :=
  match fs with
  | [] => [header; footer]
  | f :: fs' => header :: Dump f :: (fs' ≫= λ g, [separator; Dump g]) ++ [footer]
  end.

(** What the features [fvs] add to the output when [k] features were
    written before them. *)
Fixpoint feature_chunks (k : nat) (fvs : list value) : list chunk :=
  match fvs with
  | [] => []
  | fv :: fvs' =>
      (if Nat.eqb k 0 then header else separator) :: Dump fv
        :: feature_chunks (S k) fvs'
  end.

End CustomJSONFormatter.

(** * Example inputs *)

Import behave CustomJSONFormatter.

(** Scenario 4 of the specification: the bound value is a nested object. *)
Definition nested_argument : Argument :=
  mk_Argument (VDict [("user", VDict [("id", VInt 7)])]) (Some "payload")
    (VStr "{user: {id: 7}}").

(** The steps of the examples. *)
Definition plain_step : Step :=
  mk_Step "Given" "given" "a user" "features/a.feature:4"
    (Some "single line") None Status.passed (NF (S754_zero false)) None.

Definition two_line_step : Step :=
  mk_Step "When" "when" "the user logs in" "features/a.feature:5"
    (Some (String "a" (String LF (String "b" EmptyString)))) None
    Status.failed (NF (S754_zero false))
    (Some (String "x" (String LF (String "y" EmptyString)))).

(** A step whose text block is empty. *)
Definition empty_text_step : Step :=
  mk_Step "Then" "then" "nothing" "features/a.feature:6"
    (Some EmptyString) None Status.passed (NF (S754_zero false)) None.

Definition example_feature : Feature :=
  mk_Feature "Feature" "Login" ["smoke"] "features/a.feature:1" []
    Status.untested.

Definition example_scenario : Scenario :=
  mk_Scenario "Scenario" "Valid login" [] "features/a.feature:3" []
    Status.untested None.

(** One feature with one scenario of two steps, both executed. *)
Definition example_run : list feature_run :=
  [mk_feature_run "2026-01-01 10:00:00" example_feature
     [mk_element_run
        (ScenarioStart "2026-01-01 10:00:01" "2026-01-01 10:00:01"
           example_scenario)
        [SStep "2026-01-01 10:00:01" plain_step;
         SStep "2026-01-01 10:00:01" two_line_step;
         SMatch (mk_Match (Some "steps/login.py:3") [nested_argument]);
         SResult "2026-01-01 10:00:02" plain_step;
         SResult "2026-01-01 10:00:03" two_line_step;
         SUpdate (SetScenarioStatus Status.failed)]]
     "2026-01-01 10:00:04" "2026-01-01 10:00:04"].


(** Scenario 2 of the specification: two entries are put into the store
    and the next step completes. *)
Definition scenario2_calls : list call :=
  [CFeature "2026-01-01 10:00:00" example_feature;
   CScenario "2026-01-01 10:00:01" "2026-01-01 10:00:01" example_scenario;
   CStep "2026-01-01 10:00:01" plain_step;
   CUpdate (SetUserData "inputdata_x" (VDict [("a", VInt 1)]));
   CUpdate (SetUserData "outputdata_y" (VDict [("b", VInt 2)]));
   CResult "2026-01-01 10:00:02" plain_step].

(** The three keys [result] writes back into the store. *)
Definition report_keys : list string :=
  ["Input Data"; "Output Data"; "Screenshot Data"].

Definition holds_mapping (key : string) (c : CustomContext.t) : Prop :=
  ∃ d, dict_get key (CustomContext.user_data c) = Some (VDict d).

(** A call that is no store write to one of the three keys. *)
Definition keeps_report_keys (c : call) : bool :=
  match c with
  | CUpdate (SetUserData key _) => negb (existsb (String.eqb key) report_keys)
  | _ => true
  end.

(** An argument whose value and whose original text are both unfit. *)
Definition unserializable_argument : Argument :=
  mk_Argument (VList [VInt 1]) None (VList [VStr "1"]).

(** A callback that leaves the store as it found it. *)
Definition ctx_stable (f : world → outcome) : Prop :=
  ∀ w, ctx (world_of (f w)) = ctx w.

(** Scenario 1 of the specification: two passed scenarios and a failed one. *)
Definition three_scenarios : list value :=
  [VDict [("name", VStr "F");
          ("elements",
           VList [VDict [("type", VStr "scenario"); ("status", VStr "passed")];
                  VDict [("type", VStr "scenario"); ("status", VStr "passed")];
                  VDict [("type", VStr "scenario"); ("status", VStr "failed")]])]].

(** One feature with one element whose status is 'error'. *)
Definition one_error_element : list value :=
  [VDict [("name", VStr "F");
          ("elements", VList [VDict [("status", VStr "error")]])]].

(** A dict with a [None] and an empty list below the top. *)
Definition nested_none : value :=
  VDict [("mapping_condition", VNone); ("when", VList [])].

(** Scenario 3 of the specification: a shard with one feature, a shard
    that is corrupted, and a path with no file. The parser of the example
    knows the one text. *)
Definition shard_text : string := "[{name: F1}]".

Definition example_json_load (text : string) : runner.load_result :=
  if String.eqb text shard_text
  then runner.Loaded (VList [VDict [("name", VStr "F1")]])
  else runner.DecodeError "Expecting value: line 1 column 1 (char 0)".

Definition example_files : runner.world :=
  runner.mk_world
    (λ path,
       if String.eqb path "reports/shard_1.json" then runner.Content shard_text
       else if String.eqb path "reports/shard_2.json" then runner.Content "[{na"
       else runner.NoFile)
    [].

Definition example_paths : list string :=
  ["reports/shard_2.json"; "reports/shard_1.json"; "reports/shard_3.json"].

(** * The rest of the reporting path *)

(** ** Sharding of the feature files (runner.py, run_behave_tests) *)

Module runner_parallel.

(** [l[i::k]] for a step [k] of at least one, the only steps the
    comprehension below reaches: the items at [i], [i + k], [i + 2k], ...
    [skip] items are passed over before the next one is taken. *)
Fixpoint every {A} (k skip : nat) (l : list A) : list A :=
  match l with
  | [] => []
  | x :: l' =>
      match skip with
      | 0 => x :: every k (k - 1) l'
      | S skip' => every k skip' l'
      end
  end.

(** [[feature_dirs[i::max_parallel_jobs] for i in range(max_parallel_jobs)]] *)
Definition feature_dirs_split {A} (max_parallel_jobs : nat)
    (feature_dirs : list A) : list (list A) :=
  (λ i, every max_parallel_jobs i feature_dirs) <$> seq 0 max_parallel_jobs.

(** The loop over the results: a return code that is not zero replaces
    the overall one. *)
Definition overall_return_code {A} (results : list (A * Z)) : Z :=
  foldl (λ overall r, if (r.2 =? 0)%Z then overall else r.2) 0%Z results.

Section run.
(** A worker: its index and its feature files to its report file and
    its return code. *)
Variable run_behave_test : nat → list string → option string * Z.

(** [construct_behave_args] returns four values when it is given
    feature files and three when the list is empty: the fourth value
    as an option. *)
Definition construct_behave_args_files (feature_files : list string)
    : option (list string) :=
  match feature_files with
  | [] => None
  | _ => Some feature_files
  end.

(** [run_behave_tests] up to the merge: the report files in the order
    of the workers, and the overall return code. Three values do not
    unpack into four names, and a pool of no process is refused: both
    are a [ValueError], which the handler logs and raises again. *)
Definition run_shards (parallel_run : bool) (max_parallel_jobs : nat)
    (found : list string) : res (list (option string) * Z) :=
  match construct_behave_args_files found with
  | None => Raise ValueError
  | Some feature_dirs =>
      if parallel_run && (max_parallel_jobs <=? length feature_dirs) then
        let feature_dirs_split :=
          feature_dirs_split max_parallel_jobs feature_dirs in
        if Nat.eqb max_parallel_jobs 0 then Raise ValueError
        else
          let results := imap run_behave_test feature_dirs_split in
          Ok (results.*1, overall_return_code results)
      else
        let results := [run_behave_test 0 feature_dirs] in
        Ok (results.*1, overall_return_code results)
  end.
End run.

End runner_parallel.

(** ** The instance file (runner.py, save_instance_to_file and
    load_instance_from_file) *)

Module runner_instance.

Section attempts.
Context {A : Type}.

(** What attempt number [attempt] at the file meets: the body of the
    inner [try] returns or raises. *)
Variable try_file : nat → res A.

(** [for attempt in range(retries)] of [load_instance_from_file], with
    the number of sleeps so far: the first attempt that succeeds
    returns; after a failure the loop sleeps when the attempt is not
    the last and goes on; at its end the function returns [None]. *)
Fixpoint load_loop (retries : nat) (attempts : list nat) (sleeps : nat)
    : option A * nat :=
  match attempts with
  | [] => (None, sleeps)
  | attempt :: attempts' =>
      match try_file attempt with
      | Ok instance_data => (Some instance_data, sleeps)
      | Raise _ =>
          if attempt <? retries - 1
          then load_loop retries attempts' (S sleeps)
          else load_loop retries attempts' sleeps
      end
  end.

Definition load_instance_from_file (file_exists : bool) : option A * nat :=
  if file_exists then load_loop 5 (seq 0 5) 0 else (None, 0).

(** How [save_instance_to_file] ends: it returns, or the exception of
    the last attempt reaches the outer handler, which exits with
    status 2. *)
Inductive saved :=
| Saved
| Exit (status : Z).

Fixpoint save_loop (retries : nat) (attempts : list nat) (sleeps : nat)
    : saved * nat :=
  match attempts with
  | [] => (Saved, sleeps)
  | attempt :: attempts' =>
      match try_file attempt with
      | Ok _ => (Saved, sleeps)
      | Raise _ =>
          if attempt <? retries - 1
          then save_loop retries attempts' (S sleeps)
          else (Exit 2, sleeps)
      end
  end.

Definition save_instance_to_file : saved * nat := save_loop 5 (seq 0 5) 0.

End attempts.

End runner_instance.

(** ** Details for the HTML report (runner.py, extract_report_details) *)

Module runner_report.

(** [obj[key]] for a string key. *)
Definition py_item (key : string) (obj : value) : res value :=
  match obj with
  | VDict d =>
      match dict_get key d with
      | Some v => Ok v
      | None => Raise KeyError
      end
  | _ => Raise TypeError
  end.

(** [sep.join(parts)] on strings. *)
Fixpoint join (sep : string) (parts : list string) : string :=
  match parts with
  | [] => ""
  | s :: parts' =>
      match parts' with
      | [] => s
      | _ :: _ => s +:+ sep +:+ join sep parts'
      end
  end.

Fixpoint strs_of (items : list value) : res (list string) :=
  match items with
  | [] => Ok []
  | VStr s :: items' => parts ← strs_of items'; Ok (s :: parts)
  | _ :: _ => Raise TypeError
  end.

(** [sep.join(obj)]: [obj] is iterated, and an item that is not a
    string is a [TypeError]. *)
Definition py_join (sep : string) (obj : value) : res string :=
  items ← runner.py_iter obj;
  parts ← strs_of items;
  Ok (join sep parts).

(** [s or dflt] on strings. *)
Definition str_or (s dflt : string) : string :=
  if String.eqb s "" then dflt else s.

(** [[f(x) for x in l]], leaving at the first exception. *)
Fixpoint map_res {A B} (f : A → res B) (l : list A) : res (list B) :=
  match l with
  | [] => Ok []
  | x :: l' => y ← f x; ys ← map_res f l'; Ok (y :: ys)
  end.

(** A set of values as the list of its members in the order they were
    first added; lists and dicts cannot be members. *)
Definition hashable (v : value) : bool :=
  match v with
  | VList _ | VDict _ => false
  | _ => true
  end.

Definition set_add (members : list value) (v : value) : res (list value) :=
  if hashable v then
    Ok (if existsb (py_eq v) members then members else members ++ [v])
  else Raise TypeError.

(** [members.update(obj)] *)
Definition set_update (members : list value) (obj : value)
    : res (list value) :=
  items ← runner.py_iter obj;
  foldM set_add members items.

(** The four counters of the features, and of the scenarios. *)
Record counts := mk_counts {
  n_passed : nat; n_failed : nat; n_skipped : nat; n_error : nat;
}.

(** The [if]/[elif]/[else] chain on a status. *)
Definition count (status : value) (c : counts) : counts :=
  if py_eq status (VStr "passed") then
    mk_counts (n_passed c + 1) (n_failed c) (n_skipped c) (n_error c)
  else if py_eq status (VStr "failed") then
    mk_counts (n_passed c) (n_failed c + 1) (n_skipped c) (n_error c)
  else if py_eq status (VStr "skipped") then
    mk_counts (n_passed c) (n_failed c) (n_skipped c + 1) (n_error c)
  else
    mk_counts (n_passed c) (n_failed c) (n_skipped c) (n_error c + 1).

(** What the loops of [extract_report_details] carry. *)
Record details := mk_details {
  features : list value;
  tags : list value;
  feature_counts : counts;
  scenario_counts : counts;
}.

Section report.

(** [str.upper]; [datetime.strptime], [None] for a string the format
    rejects; and the seconds between two times, as [f"{d:.2f}"] prints
    them. *)
Variable upper : string → string.
Variable datetime : Type.
Variable strptime : string → string → option datetime.
Variable total_seconds : datetime → datetime → string.
(** [list(tags)]: the members of a set in the order of its iteration. *)
Variable list_of_set : list value → list value.

Definition formats : list string :=
  ["%Y-%m-%dT%H:%M:%S.%f"; "%Y-%m-%dT%H:%M:%S"].

(** [parse_time]: the first format that reads the string; a value that
    is not a string is a [TypeError] at each format, which is caught. *)
Definition parse_time (time_str : value) : option datetime :=
  match time_str with
  | VStr s =>
      (fix loop (fmts : list string) : option datetime :=
         match fmts with
         | [] => None
         | fmt :: fmts' =>
             match strptime s fmt with
             | Some t => Some t
             | None => loop fmts'
             end
         end) formats
  | _ => None
  end.

(** [calculate_duration]: on a value that is not a dict the handler
    itself calls [scenario.get] and raises. *)
Definition calculate_duration (scenario : value) : res value :=
  match scenario with
  | VDict d =>
      let start_time := parse_time (default VNone (dict_get "start_time" d)) in
      let end_time := parse_time (default VNone (dict_get "end_time" d)) in
      match start_time, end_time with
      | Some t0, Some t1 => Ok (VStr (total_seconds t0 t1 +:+ " seconds"))
      | _, _ => Ok (VStr "N/A")
      end
  | _ => Raise AttributeError
  end.

(** [step_type.upper()] *)
Definition py_upper (v : value) : res value :=
  match v with
  | VStr s => Ok (VStr (upper s))
  | _ => Raise AttributeError
  end.

(** The dict built for one step. *)
Definition step_details (step : value) : res value :=
  name ← py_item "name" step;
  step_type ← py_item "step_type" step;
  keyword ← py_upper step_type;
  result ← runner.py_get "result" (VStr "N/A") step;
  test_data ← runner.py_get "Test_data" (VStr "N/A") step;
  test_output_data ← runner.py_get "Test_Output_data" (VStr "N/A") step;
  screenshot ← runner.py_get "Screenshot_data" VNone step;
  table ← runner.py_get "table" (VStr "N/A") step;
  result' ← runner.py_get "result" (VDict []) step;
  error_message ← runner.py_get "error_message" (VList []) result';
  failure_reason ← py_join " " error_message;
  Ok (VDict [("name", name); ("keyword", keyword); ("result", result);
             ("test_data", test_data);
             ("test_output_data", test_output_data);
             ("screenshot", screenshot); ("table", table);
             ("failure_reason", VStr (str_or failure_reason "N/A"))]).

(** The body of the loop over the elements of a feature: the tags and
    the scenario counters so far, to these and the dict of the
    scenario. *)
Definition scenario_details (tags : list value) (c : counts)
    (scenario : value) : res (list value * counts * value) :=
  name ← py_item "name" scenario;
  status ← py_item "status" scenario;
  start_time ← py_item "start_time" scenario;
  end_time ← py_item "end_time" scenario;
  scenario_duration ← calculate_duration scenario;
  scenario_tags ← py_item "tags" scenario;
  let c := count status c in
  steps ← py_item "steps" scenario;
  steps ← runner.py_iter steps;
  steps_data ← map_res step_details steps;
  tags ← set_update tags scenario_tags;
  Ok (tags, c,
      VDict [("name", name); ("status", status);
             ("start_time", start_time); ("end_time", end_time);
             ("scenario_duration", scenario_duration);
             ("scenario_tags", scenario_tags);
             ("steps", VList steps_data)]).

(** The loop over the elements of one feature. *)
Fixpoint scenarios_details (tags : list value) (c : counts)
    (scenarios : list value) : res (list value * counts * list value) :=
  match scenarios with
  | [] => Ok (tags, c, [])
  | scenario :: scenarios' =>
      r ← scenario_details tags c scenario;
      rs ← scenarios_details r.1.1 r.1.2 scenarios';
      Ok (rs.1.1, rs.1.2, r.2 :: rs.2)
  end.

(** The body of the loop over the features. *)
Definition feature_details (acc : details) (feature : value) : res details :=
  name ← py_item "name" feature;
  status ← py_item "status" feature;
  location ← py_item "location" feature;
  feature_tags ← py_item "tags" feature;
  let fc := count status (feature_counts acc) in
  elements ← py_item "elements" feature;
  scenarios ← runner.py_iter elements;
  rs ← scenarios_details (tags acc) (scenario_counts acc) scenarios;
  Ok (mk_details
        (features acc
         ++ [VDict [("name", name); ("status", status);
                    ("location", location); ("tags", feature_tags);
                    ("scenarios", VList rs.2)]])
        rs.1.1 fc rs.1.2).

Definition int (n : nat) : value := VInt (Z.of_nat n).

Definition extract_report_details (merged_results : list value) : res dict :=
  acc ← foldM feature_details
         (mk_details [] [] (mk_counts 0 0 0 0) (mk_counts 0 0 0 0))
         merged_results;
  let fc := feature_counts acc in
  let sc := scenario_counts acc in
  Ok [("features", VList (features acc));
      ("tags", VList (list_of_set (tags acc)));
      ("passed_features", int (n_passed fc));
      ("failed_features", int (n_failed fc));
      ("skipped_features", int (n_skipped fc));
      ("error_features", int (n_error fc));
      ("passed_scenarios", int (n_passed sc));
      ("failed_scenarios", int (n_failed sc));
      ("skipped_scenarios", int (n_skipped sc));
      ("error_scenarios", int (n_error sc));
      ("feature_count", int (length (features acc)));
      ("scenario_count",
       int (n_passed sc + n_failed sc + n_skipped sc + n_error sc))].

End report.

(** *** Records the extraction accepts *)

Definition is_str (v : value) : bool :=
  match v with VStr _ => true | _ => false end.

Definition has_key (key : string) (d : dict) : bool :=
  bool_decide (is_Some (dict_get key d)).

(** A step with a name and a step type, and whose result, when it has
    one, is an object whose error message, when it has one, is a string
    or an array of strings. *)
Definition step_ok (step : value) : bool :=
  match step with
  | VDict d =>
      has_key "name" d
      && match dict_get "step_type" d with
         | Some (VStr _) => true
         | _ => false
         end
      && match dict_get "result" d with
         | None => true
         | Some (VDict r) =>
             match dict_get "error_message" r with
             | None | Some (VStr _) => true
             | Some (VList lines) => forallb is_str lines
             | Some _ => false
             end
         | Some _ => false
         end
  | _ => false
  end.

(** An element with the six keys that are read, an array of strings
    for tags and an array of steps. *)
Definition scenario_ok (scenario : value) : bool :=
  match scenario with
  | VDict d =>
      has_key "name" d && has_key "status" d
      && has_key "start_time" d && has_key "end_time" d
      && match dict_get "tags" d with
         | Some (VList ts) => forallb is_str ts
         | _ => false
         end
      && match dict_get "steps" d with
         | Some (VList steps) => forallb step_ok steps
         | _ => false
         end
  | _ => false
  end.

(** A feature with the five keys that are read and an array of
    elements. *)
Definition feature_ok (feature : value) : bool :=
  match feature with
  | VDict d =>
      has_key "name" d && has_key "status" d
      && has_key "location" d && has_key "tags" d
      && match dict_get "elements" d with
         | Some (VList els) => forallb scenario_ok els
         | _ => false
         end
  | _ => false
  end.

(** The characters of a string with [sep] between them. *)
Fixpoint spaced (sep : string) (s : string) : string :=
  match s with
  | EmptyString => ""
  | String c EmptyString => s
  | String c s' => String c (sep +:+ spaced sep s')
  end.

(** The one-character strings of a string. *)
Fixpoint letters (s : string) : list string :=
  match s with
  | EmptyString => []
  | String c s' => String c EmptyString :: letters s'
  end.

(** An element that is neither passed, failed nor skipped. *)
Definition other (e : value) : bool :=
  negb (runner.status_is "passed" e || runner.status_is "failed" e
        || runner.status_is "skipped" e).

(** The counters [c] after the elements [els] have been counted. *)
Definition add_elements (c : counts) (els : list value) : counts :=
  mk_counts (n_passed c + runner.count_in "passed" els)
    (n_failed c + runner.count_in "failed" els)
    (n_skipped c + runner.count_in "skipped" els)
    (n_error c + length (filter (λ e, other e = true) els)).

End runner_report.

(** ** The statistics of merged shards *)

(** Tallies added counter by counter. *)
Definition add_tallies (t u : runner.tallies) : runner.tallies :=
  runner.mk_tallies (runner.passed t + runner.passed u)
    (runner.failed t + runner.failed u)
    (runner.skipped t + runner.skipped u)
    (runner.errors t + runner.errors u).

(** ** The formatter, for stating what its callbacks keep *)

(** The elements of the feature under construction. *)
Definition current_elements (fm : formatter) : list element :=
  default [] (current_feature_data fm ≫= fd_elements).

(** The feature under construction has no element list yet, or a list
    that is not empty. *)
Definition elements_ready (fm : formatter) : bool :=
  match current_feature_data fm ≫= fd_elements with
  | Some [] => false
  | _ => true
  end.

(** The embedding record that [embedding] appends. *)
Definition embedding_record (b64encode : string → string)
    (item : string * string) : value :=
  VDict [("mime_type", VStr item.1); ("data", VStr (b64encode item.2))].

(** The list under [embeddings] of a step, empty when the key is missing. *)
Definition embeddings_of (s : dict) : list value :=
  match dict_get "embeddings" s with
  | Some (VList l) => l
  | _ => []
  end.

(** The values [handle_none_values] replaces. *)
Definition needs_placeholder (v : value) : bool :=
  match v with
  | VNone | VDict [] | VList [] => true
  | _ => false
  end.

(** The exception of a call that needs the step at the cursor, when
    there is none. *)
Definition step_error (fm : formatter) : option exn :=
  match current_feature_element fm with
  | Raise e => Some e
  | Ok element =>
      match e_steps element !! step_index fm with
      | None => Some IndexError
      | Some _ => None
      end
  end.

(** The four keys [result] writes to a step. *)
Definition result_key (key : string) : bool :=
  existsb (String.eqb key)
    ["Test_data"; "Test_Output_data"; "Screenshot_data"; "result"].

(** The six entries of the store [result] may write. *)
Definition result_store_key (key : string) : bool :=
  existsb (String.eqb key)
    ["Input Data"; "Output Data"; "Screenshot Data";
     "inputdata"; "outputdata"; "screenshot"].

(** The three prefixes [result] drains. *)
Definition drained_prefix (prefix : string) : bool :=
  existsb (String.eqb prefix) ["inputdata"; "outputdata"; "screenshot"].

(** *** What the formatter writes, as the extraction of the details
    reads it *)

(** The steps of an element all pass [step_ok]. *)
Definition steps_ok (e : element) : Prop :=
  Forall (λ s, runner_report.step_ok (VDict s) = true) (e_steps e).

Definition formatter_ok (fm : formatter) : Prop :=
  Forall steps_ok (current_elements fm).

(** The values dumped to the output, in order. *)
Definition written (o : list chunk) : list value :=
  o ≫= λ c,
    match c with
    | Dump v => [v]
    | Text _ => []
    end.

Definition has_elements (v : value) : bool :=
  match v with
  | VDict d => bool_decide (is_Some (dict_get "elements" d))
  | _ => false
  end.

(** A written value that has elements is a feature the extraction
    accepts. *)
Definition accepted (v : value) : Prop :=
  has_elements v = true → runner_report.feature_ok v = true.

Definition world_ok (w : world) : Prop :=
  formatter_ok (fmt w) ∧ Forall accepted (written (out w)).

(** ** Further example inputs *)

(** A feature, a scenario and one announced step, with one entry put
    into the store: the world in which the result of the step arrives. *)
Definition example_open_calls : list call :=
  [CFeature "2026-01-01 10:00:00" example_feature;
   CScenario "2026-01-01 10:00:01" "2026-01-01 10:00:01" example_scenario;
   CStep "2026-01-01 10:00:01" plain_step;
   CUpdate (SetUserData "inputdata_x" (VDict [("a", VInt 1)]))].

Definition example_open_world : world :=
  world_of (run (λ f, f) (λ s, s) example_open_calls init_world).

(** The features the formatter writes for the example run, read back. *)
Definition example_report : list value :=
  match
    json_load_output
      (out (world_of (run (λ f, f) (λ s, s) (calls_of_run example_run)
                        init_world)))
  with
  | Some (VList fvs) => fvs
  | _ => []
  end.

(** * Properties *)

(** ** Dicts *)

Lemma dict_get_set_eq k v d : dict_get k (dict_set k v d) = Some v.
Proof.
  induction d as [|[k' v'] d IH]; simpl.
  - by rewrite String.eqb_refl.
  - destruct (String.eqb k k') eqn:E; simpl; rewrite E; [done|apply IH].
Qed.

Lemma dict_get_set_ne k k' v d :
  k ≠ k' → dict_get k' (dict_set k v d) = dict_get k' d.
Proof.
  intros Hne. induction d as [|[k0 v0] d IH]; simpl.
  - destruct (String.eqb k' k) eqn:E; [|done].
    apply String.eqb_eq in E. congruence.
  - destruct (String.eqb k k0) eqn:E; simpl.
    + apply String.eqb_eq in E. subst k0.
      destruct (String.eqb k' k) eqn:E'; [|done].
      apply String.eqb_eq in E'. congruence.
    + by rewrite IH.
Qed.

Lemma py_eq_str v s :
  py_eq v (VStr s) = match v with VStr t => String.eqb t s | _ => false end.
Proof. by destruct v. Qed.

(** ** Tallies *)

Section tallies.
Import runner.

Lemma count_in_cons name e els :
  count_in name (e :: els)
  = (if status_is name e then 1 else 0) + count_in name els.
Proof.
  unfold count_in. rewrite filter_cons.
  destruct (decide (status_is name e = true)) as [->|H]; [done|].
  by apply not_true_is_false in H as ->.
Qed.

Lemma count_in_app name l1 l2 :
  count_in name (l1 ++ l2) = count_in name l1 + count_in name l2.
Proof. unfold count_in. by rewrite filter_app, length_app. Qed.

Lemma tallies_eq p f s e p' f' s' e' :
  p = p' → f = f' → s = s' → e = e' →
  mk_tallies p f s e = mk_tallies p' f' s' e'.
Proof. by intros -> -> -> ->. Qed.

Lemma add_counts_nil t : add_counts t [] = t.
Proof. destruct t. unfold add_counts, count_in. simpl. apply tallies_eq; lia. Qed.

Lemma add_counts_app t l1 l2 :
  add_counts (add_counts t l1) l2 = add_counts t (l1 ++ l2).
Proof.
  unfold add_counts. simpl. rewrite !count_in_app. apply tallies_eq; lia.
Qed.

(** One element: the four comparisons exclude one another. *)
Lemma tally_scenario_counts t e :
  is_dict e = true → tally_scenario t e = Ok (add_counts t [e]).
Proof.
  destruct e as [| | | | | |d]; try done. intros _.
  unfold tally_scenario, add_counts. simpl.
  rewrite !count_in_cons. unfold count_in, status_is. simpl.
  destruct (dict_get "status" d) as [v|]; simpl.
  - rewrite !py_eq_str. destruct v; simpl;
      try (destruct t; simpl; f_equal; apply tallies_eq; lia).
    destruct (String.eqb s "passed") eqn:E1.
    { apply String.eqb_eq in E1 as ->. simpl. f_equal. apply tallies_eq; lia. }
    destruct (String.eqb s "failed") eqn:E2.
    { apply String.eqb_eq in E2 as ->. simpl. f_equal. apply tallies_eq; lia. }
    destruct (String.eqb s "skipped") eqn:E3.
    { apply String.eqb_eq in E3 as ->. simpl. f_equal. apply tallies_eq; lia. }
    destruct (String.eqb s "undefined") eqn:E4.
    { apply String.eqb_eq in E4 as ->. simpl. f_equal. apply tallies_eq; lia. }
    destruct t; simpl; f_equal; apply tallies_eq; lia.
  - destruct t; simpl; f_equal; apply tallies_eq; lia.
Qed.

Lemma tally_scenarios_counts els : ∀ t,
  forallb is_dict els = true →
  foldM tally_scenario t els = Ok (add_counts t els).
Proof.
  induction els as [|e els IH]; intros t H; simpl.
  - by rewrite add_counts_nil.
  - apply andb_prop in H as [He Hels].
    rewrite (tally_scenario_counts t e He). simpl.
    rewrite (IH _ Hels). by rewrite add_counts_app.
Qed.

Lemma tally_result_counts t r :
  is_feature_record r = true →
  tally_result t r = Ok (add_counts t (elements_of r)).
Proof.
  destruct r as [| | | | | |d]; try done.
  unfold tally_result, is_feature_record, elements_of. simpl.
  destruct (dict_get "elements" d) as [[| | | | |els|]|]; try done; simpl.
  - apply tally_scenarios_counts.
  - intros _. by rewrite add_counts_nil.
Qed.

Lemma tally_results_counts records : ∀ t,
  forallb is_feature_record records = true →
  foldM tally_result t records = Ok (add_counts t (records ≫= elements_of)).
Proof.
  induction records as [|r records IH]; intros t H; simpl.
  - by rewrite add_counts_nil.
  - apply andb_prop in H as [Hr Hrs].
    rewrite (tally_result_counts t r Hr). simpl.
    rewrite (IH _ Hrs). by rewrite add_counts_app.
Qed.

End tallies.

(** C2, as the code has it. Over feature records, the tallies are the
    numbers of elements whose status is 'passed', 'failed', 'skipped' and
    'undefined': only 'undefined' is counted as an error, and an element
    with any other status, or with none, is counted nowhere. *)
Theorem generate_report_statistics_counts (records : list value) :
  forallb runner.is_feature_record records = true →
  runner.generate_report_statistics records
  = Ok (runner.mk_tallies
          (runner.count_status "passed" records)
          (runner.count_status "failed" records)
          (runner.count_status "skipped" records)
          (runner.count_status "undefined" records)).
Proof.
  intros H. unfold runner.generate_report_statistics.
  by rewrite (tally_results_counts records _ H).
Qed.

Lemma generate_report_statistics_counts_witness :
  forallb runner.is_feature_record three_scenarios = true
  ∧ runner.generate_report_statistics three_scenarios
    = Ok (runner.mk_tallies 2 1 0 0).
Proof.
  split; [reflexivity|].
  exact (generate_report_statistics_counts three_scenarios eq_refl).
Defined.

(** An element whose status is 'error': the specification counts it as an
    error, the code counts nothing. *)
Lemma generate_report_statistics_skips_error :
  runner.generate_report_statistics one_error_element
  = Ok (runner.mk_tallies 0 0 0 0)
  ∧ runner.computeTallies_spec one_error_element = runner.mk_tallies 0 0 0 1.
Proof. split; reflexivity. Qed.

(** ** Merging shards *)

Section merge_facts.
Import runner.
Variable json_load : string → load_result.

Lemma shard_array_files w w' file :
  files w' = files w →
  shard_array json_load w' file = shard_array json_load w file.
Proof. unfold shard_array. by intros ->. Qed.

Lemma skipped_paths_files w w' paths :
  files w' = files w →
  skipped_paths json_load w' paths = skipped_paths json_load w paths.
Proof.
  intros H. unfold skipped_paths. apply list_filter_iff. intros p.
  by rewrite (shard_array_files w w' p H).
Qed.

(** One file: a valid shard extends the result and logs nothing; any
    other leaves the result and logs one line. *)
Lemma merge_file_cases acc w file :
  ∃ new,
    merge_file json_load (acc, w) file
    = (acc ++ default [] (shard_array json_load w file),
       mk_world (files w) (log w ++ new))
    ∧ length new = length (skipped_paths json_load w [file]).
Proof.
  unfold merge_file, skipped_paths, shard_array, logging.
  rewrite filter_cons, filter_nil.
  destruct (files w file) as [|msg|msg|text]; simpl.
  1-3: eexists [_]; by rewrite app_nil_r.
  destruct (json_load text) as [[| | | | |l|]|msg|msg]; simpl.
  all: try (eexists [_]; by rewrite app_nil_r).
  exists []. rewrite app_nil_r. by destruct w.
Qed.

Lemma merge_fold paths : ∀ acc w,
  ∃ new,
    foldl (merge_file json_load) (acc, w) paths
    = (acc ++ mjoin (omap (shard_array json_load w) paths),
       mk_world (files w) (log w ++ new))
    ∧ length new = length (skipped_paths json_load w paths).
Proof.
  induction paths as [|file paths IH]; intros acc w.
  - exists []. simpl. rewrite !app_nil_r. by destruct w.
  - destruct (merge_file_cases acc w file) as (new1 & E1 & L1).
    cbn [foldl]. rewrite E1.
    destruct (IH (acc ++ default [] (shard_array json_load w file))
                (mk_world (files w) (log w ++ new1))) as (new2 & E2 & L2).
    exists (new1 ++ new2). split.
    + rewrite E2. simpl files. simpl log. rewrite <- !app_assoc. f_equal.
      change (shard_array json_load (mk_world (files w) (log w ++ new1)))
        with (shard_array json_load w).
      cbn [omap list_omap]. by destruct (shard_array json_load w file).
    + rewrite length_app, L1, L2.
      rewrite (skipped_paths_files w (mk_world (files w) (log w ++ new1))
                 paths eq_refl).
      unfold skipped_paths.
      rewrite (filter_cons _ file paths), filter_cons, filter_nil.
      destruct (decide _); simpl; lia.
Qed.

(** The loop over entries: the paths before the first [None] are
    merged as above, and the loop raises there when there is one. *)
Lemma merge_files_spec entries : ∀ acc w,
  merge_files json_load (acc, w) entries
  = (if all_paths entries
     then Ok (foldl (merge_file json_load) (acc, w)
                (paths_before_none entries)).1
     else Raise TypeError,
     (foldl (merge_file json_load) (acc, w) (paths_before_none entries)).2).
Proof.
  induction entries as [|[file|] entries IH]; intros acc w; [done| |done].
  cbn [merge_files paths_before_none foldl].
  destruct (merge_file json_load (acc, w) file) as [acc1 w1] eqn:E.
  rewrite (IH acc1 w1). done.
Qed.

Lemma merge_json_reports_spec entries w :
  ∃ new,
    merge_json_reports json_load entries w
    = (if all_paths entries
       then Ok (mjoin (omap (shard_array json_load w)
                         (paths_before_none entries)))
       else Raise TypeError,
       mk_world (files w) (log w ++ new))
    ∧ length new
      = length (skipped_paths json_load w (paths_before_none entries)).
Proof.
  destruct (merge_fold (paths_before_none entries) [] w) as (new & E & L).
  exists new. split; [|done].
  unfold merge_json_reports. rewrite merge_files_spec, E.
  by destruct (all_paths entries).
Qed.

Lemma paths_before_none_paths paths :
  paths_before_none (Some <$> paths) = paths ∧ all_paths (Some <$> paths) = true.
Proof.
  induction paths as [|p paths [IH1 IH2]]; [done|].
  rewrite fmap_cons. cbn [paths_before_none all_paths forallb].
  split; [by rewrite IH1|exact IH2].
Qed.

Lemma paths_before_none_app paths rest :
  paths_before_none ((Some <$> paths) ++ None :: rest) = paths
  ∧ all_paths ((Some <$> paths) ++ None :: rest) = false.
Proof.
  induction paths as [|p paths [IH1 IH2]]; [done|].
  rewrite fmap_cons. cbn [app paths_before_none all_paths forallb].
  split; [by rewrite IH1|exact IH2].
Qed.

End merge_facts.

(** Scenario 3: the valid record is returned, each of the two other
    paths leaves one line in the log. *)
Example merge_example :
  (runner.merge_json_reports example_json_load (Some <$> example_paths)
     example_files).1
  = Ok [VDict [("name", VStr "F1")]]
  ∧ (runner.log
       (runner.merge_json_reports example_json_load (Some <$> example_paths)
          example_files).2).*1
    = [runner.ERROR; runner.WARNING].
Proof. split; reflexivity. Qed.

(** C4. For a list of paths the merge returns, without raising, the
    concatenation of the arrays of the valid shards, in the order of the
    paths and with each array in its own order; the files are left as
    they were, and the log grows by one line for each path that is
    missing, unreadable, not JSON or not an array. But an entry that is
    [None], which is what the runner passes for a worker that failed
    before it named its report, aborts the merge: it raises [TypeError],
    whatever the shards before and after it hold, and what the shards
    before it gave is lost. *)
Theorem merge_json_reports_concatenates
  (json_load : string → runner.load_result) (w : runner.world) :
  (∀ paths : list string,
     ∃ new,
       runner.merge_json_reports json_load (Some <$> paths) w
       = (Ok (mjoin (omap (runner.shard_array json_load w) paths)),
          runner.mk_world (runner.files w) (runner.log w ++ new))
       ∧ length new = length (runner.skipped_paths json_load w paths))
  ∧ (∀ (paths : list string) (rest : list (option string)),
       ∃ new,
         runner.merge_json_reports json_load
           ((Some <$> paths) ++ None :: rest) w
         = (Raise TypeError,
            runner.mk_world (runner.files w) (runner.log w ++ new))
         ∧ length new = length (runner.skipped_paths json_load w paths)).
Proof.
  split.
  - intros paths.
    destruct (merge_json_reports_spec json_load (Some <$> paths) w)
      as (new & E & L).
    destruct (paths_before_none_paths paths) as [H1 H2].
    rewrite H1, H2 in E. rewrite H1 in L. by exists new.
  - intros paths rest.
    destruct (merge_json_reports_spec json_load
                ((Some <$> paths) ++ None :: rest) w) as (new & E & L).
    destruct (paths_before_none_app paths rest) as [H1 H2].
    rewrite H1, H2 in E. rewrite H1 in L. by exists new.
Qed.

(** The valid shard of scenario 3 followed by the entry of a worker
    that failed before it named its report: the merge raises, and the
    record of the valid shard is not returned. *)
Lemma merge_json_reports_none_aborts :
  (runner.merge_json_reports example_json_load
     [Some "reports/shard_1.json"; None] example_files).1
  = Raise TypeError
  ∧ (runner.merge_json_reports example_json_load
       [Some "reports/shard_1.json"] example_files).1
    = Ok [VDict [("name", VStr "F1")]].
Proof. split; reflexivity. Qed.

(** C9. Two merges of the same paths, the second in the world the first
    left, return the same list, and the files are after each what they
    were before: a merge only reads the paths and the files, and writes
    nothing but the log. With an entry that is [None] both merges raise
    the same exception. *)
Theorem merge_json_reports_twice
  (json_load : string → runner.load_result)
  (paths : list (option string)) (w : runner.world) :
  let first := runner.merge_json_reports json_load paths w in
  let second := runner.merge_json_reports json_load paths first.2 in
  first.1 = second.1
  ∧ runner.files first.2 = runner.files w
  ∧ runner.files second.2 = runner.files w.
Proof.
  destruct (merge_json_reports_spec json_load paths w) as (new1 & E1 & _).
  simpl. rewrite E1. simpl.
  destruct (merge_json_reports_spec json_load paths
              (runner.mk_world (runner.files w) (runner.log w ++ new1)))
    as (new2 & E2 & _).
  rewrite E2. simpl. repeat split.
Qed.

(** ** Generic sub-report data *)

Lemma handle_nested_data_id v : HTMLReportGenerator.handle_nested_data v = v.
Proof.
  induction v as [| | | | |l IH|d IH] using value_ind; simpl; try done.
  - f_equal. induction IH as [|x l Hx _ IHl]; simpl; [done|].
    by rewrite Hx, IHl.
  - f_equal. induction IH as [|[k x] l Hx _ IHl]; simpl; [done|].
    simpl in Hx. by rewrite Hx, IHl.
Qed.

(** C3, where the code departs from it. The recursion over dicts and lists
    returns every leaf as it found it, so the placeholders reach the top
    value only: a [None] inside a dict is still [None] when the template
    is rendered, where the specification has 'N/A'. *)
Theorem generate_html_report_data_top_level_only :
  (∀ data date_format,
     HTMLReportGenerator.generate_html_report_data data date_format
     = HTMLReportGenerator.handle_none_values data)
  ∧ HTMLReportGenerator.generate_html_report_data nested_none "%Y-%m-%d"
    = nested_none
  ∧ HTMLReportGenerator.replace_leaves_spec nested_none
    = VDict [("mapping_condition", VStr "N/A"); ("when", VStr "No Data Available")].
Proof.
  split; [|split; reflexivity].
  intros data date_format.
  unfold HTMLReportGenerator.generate_html_report_data,
    HTMLReportGenerator.format_datetime.
  by rewrite handle_nested_data_id.
Qed.

(** ** The formatter: steps and the cursor *)


Lemma alter_last_snoc {A} (f : A → A) l x : alter_last f (l ++ [x]) = l ++ [f x].
Proof.
  induction l as [|y l IH]; [done|]. simpl. rewrite IH.
  by destruct (l ++ [x]) eqn:E; [destruct l; discriminate|].
Qed.

Lemma late_key_cases key :
  late_key key = true →
  key ∈ ["match"; "Test_data"; "Test_Output_data"; "Screenshot_data"; "result"; "embeddings"].
Proof.
  unfold late_key. intros H. apply existsb_exists in H as (k & Hin & E).
  apply String.eqb_eq in E as ->. by apply list_elem_of_In.
Qed.

Lemma step_record_late now st key :
  late_key key = true → dict_get key (step_record now st) = None.
Proof.
  intros H. apply late_key_cases in H.
  unfold step_record.
  assert (key ≠ "text" ∧ key ≠ "table"
          ∧ dict_get key [("keyword", VStr (st_keyword st));
              ("step_type", VStr (st_step_type st));
              ("name", VStr (st_name st));
              ("location", VStr (st_location st));
              ("start_time", VStr now);
              ("end_time", VNone)] = None) as (Htext & Htable & Hb).
  { repeat (apply elem_of_cons in H as [->|H]; [done|]). by apply elem_of_nil in H. }
  destruct (st_table st), (st_text st) as [text|]; try destruct (String.eqb text "");
    rewrite ?dict_get_set_ne by done; done.
Qed.

Lemma dict_extends_refl now st : dict_extends (step_record now st) (now, st).
Proof.
  split; [by intros key v|]. unfold embeddings_listed.
  by rewrite step_record_late.
Qed.

Lemma dict_extends_keys d a key v :
  late_key key = true → dict_extends d a →
  ∀ key' v', dict_get key' (step_record a.1 a.2) = Some v' →
             dict_get key' (dict_set key v d) = Some v'.
Proof.
  intros Hk [Hd _] key' v' Hget.
  rewrite dict_get_set_ne; [by apply Hd|].
  intros ->. by rewrite step_record_late in Hget.
Qed.

Lemma dict_extends_set d a key v :
  late_key key = true → String.eqb key "embeddings" = false →
  dict_extends d a → dict_extends (dict_set key v d) a.
Proof.
  intros Hk Hne Hd. split; [by apply dict_extends_keys|].
  unfold embeddings_listed. rewrite dict_get_set_ne; [apply Hd|].
  intros ->. by rewrite String.eqb_refl in Hne.
Qed.

Lemma dict_extends_embeddings d a l :
  dict_extends d a → dict_extends (dict_set "embeddings" (VList l) d) a.
Proof.
  intros Hd. split; [by apply dict_extends_keys|].
  unfold embeddings_listed. by rewrite dict_get_set_eq.
Qed.

Lemma building_current k ers an c fm :
  building k ers an c fm →
  ∃ e, current_feature_element fm = Ok e ∧ length (e_steps e) = length an.
Proof.
  intros (_ & _ & fd & els & e & Hfd & Hels & _ & Hsteps).
  exists e. split; [|by eapply Forall2_length].
  unfold current_feature_element. by rewrite Hfd, Hels, last_snoc.
Qed.

Lemma building_update k ers an an' c fm g :
  building k ers an c fm →
  (∀ e, Forall2 dict_extends (e_steps e) an →
        Forall2 dict_extends (e_steps (g e)) an') →
  building k ers an' c (update_feature_element g fm).
Proof.
  intros ((Ho & Hk & Hf) & Hc & fd & els & e & Hfd & Hels & Hdone & Hsteps) Hg.
  unfold update_feature_element. rewrite Hfd, Hels, alter_last_snoc.
  split; [done|]. split; [done|].
  eexists _, els, (g e). simpl. repeat split; [done|by apply Hg].
Qed.

Lemma building_index k ers an c c' fm :
  building k ers an c fm → building k ers an c' (set_step_index c' fm).
Proof.
  intros ((Ho & Hk & Hf) & Hc & fd & els & e & Hfd & Hels & Hdone & Hsteps).
  split; [done|]. split; [done|]. by exists fd, els, e.
Qed.

Lemma extends_alter an i g steps :
  (∀ d a, dict_extends d a → dict_extends (g d) a) →
  Forall2 dict_extends steps an →
  Forall2 dict_extends (alter g i steps) an.
Proof. intros Hg H. apply Forall2_alter_l; [done|]. intros; by apply Hg. Qed.

Lemma extends_set_step_key an i key v e :
  late_key key = true → String.eqb key "embeddings" = false →
  Forall2 dict_extends (e_steps e) an →
  Forall2 dict_extends (e_steps (set_step_key i key v e)) an.
Proof.
  intros Hk Hne H. simpl. apply extends_alter; [|done].
  intros d a. by apply dict_extends_set.
Qed.

Section step_calls.
Variable round2 : spec_float → spec_float.
Variable b64encode : string → string.

Lemma step_fm_building k ers an c now st fm :
  building k ers an c fm →
  ∃ fm', step now st fm = Ok fm' ∧ building k ers (an ++ [(now, st)]) c fm'.
Proof.
  intros H. destruct (building_current _ _ _ _ _ H) as (e & He & _).
  eexists. unfold step. rewrite He. simpl. split; [done|].
  apply (building_update _ _ an); [done|].
  intros e' He'. simpl. apply Forall2_app; [done|].
  constructor; [|done]. apply dict_extends_refl.
Qed.

Lemma step_building k ers an c now st w :
  building k ers an c (fmt w) →
  ∃ w', dispatch round2 b64encode (CStep now st) w = Done w' ∧ out w' = out w
        ∧ building k ers (an ++ [(now, st)]) c (fmt w').
Proof.
  intros H. destruct (step_fm_building _ _ _ _ now st _ H) as (fm' & E & H').
  eexists. simpl. unfold on_fmt. rewrite E. split; [done|]. by split.
Qed.

Lemma match_arguments_ok args :
  forallb (λ a, is_json_scalar (arg_value a) || is_json_scalar (arg_original a)) args
  = true →
  ∃ vs, match_arguments args = Ok vs.
Proof.
  induction args as [|a args IH]; simpl; [by eexists|].
  intros H. apply andb_prop in H as [Ha Hargs].
  destruct (IH Hargs) as (vs & ->).
  unfold match_argument.
  destruct (is_json_scalar (arg_value a)) eqn:E; simpl in *.
  - rewrite E. simpl. by eexists.
  - rewrite Ha. simpl. by eexists.
Qed.

Lemma match_building k ers an c m w :
  building k ers an c (fmt w) →
  match_serializable m = true →
  match m_location m with Some _ => c < length an | None => True end →
  ∃ w', dispatch round2 b64encode (CMatch m) w = Done w' ∧ out w' = out w
        ∧ building k ers an c (fmt w').
Proof.
  intros H Hm Hc. destruct (building_current _ _ _ _ _ H) as (e & He & Hlen).
  destruct (match_arguments_ok _ Hm) as (vs & Hvs).
  simpl. unfold on_fmt, match_. rewrite Hvs. simpl.
  destruct (m_location m) as [loc|]; [|by exists w; destruct w].
  rewrite He. simpl.
  assert (step_index (fmt w) = c) as Hi by apply H. rewrite Hi.
  destruct (lookup_lt_is_Some_2 (e_steps e) c) as [s Hs]; [lia|].
  rewrite Hs. eexists. split; [done|]. split; [done|]. simpl.
  apply (building_update _ _ an); [done|].
  intros e'. by apply extends_set_step_key.
Qed.

Lemma embedding_building k ers an c mime data w :
  building k ers an c (fmt w) → c < length an →
  ∃ w', dispatch round2 b64encode (CEmbedding mime data) w = Done w' ∧ out w' = out w
        ∧ building k ers an c (fmt w').
Proof.
  intros H Hc. destruct (building_current _ _ _ _ _ H) as (e & He & Hlen).
  assert (Hsteps : Forall2 dict_extends (e_steps e) an).
  { destruct H as (_ & _ & fd & els & e0 & Hfd & Hels & _ & Hsteps).
    unfold current_feature_element in He.
    rewrite Hfd, Hels, last_snoc in He. by injection He as <-. }
  simpl. unfold embedding. rewrite He.
  assert (step_index (fmt w) = c) as Hi by apply H. rewrite Hi.
  destruct (lookup_lt_is_Some_2 (e_steps e) c) as [s Hs]; [lia|].
  rewrite Hs.
  assert (Hl : embeddings_listed s = true).
  { destruct (Forall2_lookup_l _ _ _ _ _ Hsteps Hs) as (a & _ & Ha).
    apply Ha. }
  assert (Ho : stream_open (fmt w) = true) by apply H. rewrite Ho.
  unfold ensure_embeddings, embeddings_listed in *.
  destruct (dict_get "embeddings" s) as [[| | | | |l|]|] eqn:Eg; try done.
  - rewrite Eg. eexists. split; [done|]. split; [done|]. simpl.
    apply (building_update _ _ an); [done|].
    intros e' He'. simpl. apply extends_alter; [|done].
    intros d a Hd. unfold add_embedding.
    destruct (dict_get "embeddings" d) as [[| | | | | |]|];
      by apply dict_extends_embeddings.
  - rewrite dict_get_set_eq. eexists. split; [done|]. split; [done|]. simpl.
    apply (building_update _ _ an); [done|].
    intros e' He'. simpl. apply extends_alter; [|done].
    intros d a Hd. unfold add_embedding.
    destruct (dict_get "embeddings" d) as [[| | | | | |]|];
      by apply dict_extends_embeddings.
Qed.

Lemma result_building k ers an c now st w :
  building k ers an c (fmt w) → c < length an →
  ∃ w', dispatch round2 b64encode (CResult now st) w = Done w' ∧ out w' = out w
        ∧ building k ers an (S c) (fmt w').
Proof.
  intros H Hc. destruct (building_current _ _ _ _ _ H) as (e & He & Hlen).
  simpl. unfold result. rewrite He.
  assert (step_index (fmt w) = c) as Hi by apply H. rewrite Hi.
  destruct (lookup_lt_is_Some_2 (e_steps e) c) as [s Hs]; [lia|].
  rewrite Hs. eexists. split; [done|]. split; [done|]. simpl fmt.
  replace (S c) with (step_index (update_feature_element
    (λ e0, set_step_key c "result" (VDict (result_record round2 now st))
       (set_step_key c "Screenshot_data" (VDict (drain "screenshot" (ctx w)))
         (set_step_key c "Test_Output_data" (VDict (drain "outputdata" (ctx w)))
           (set_step_key c "Test_data" (VDict (drain "inputdata" (ctx w))) e0))))
    (fmt w)) + 1).
  2:{ assert (∀ g, step_index (update_feature_element g (fmt w)) = step_index (fmt w)) as ->.
      { intros g. unfold update_feature_element.
        destruct (current_feature_data (fmt w)) as [fd|]; [|done].
        by destruct (fd_elements fd). }
      lia. }
  apply (building_index _ _ _ c). apply (building_update _ _ an); [done|].
  intros e' He'. by repeat apply extends_set_step_key.
Qed.

Lemma update_building k ers an c u w :
  building k ers an c (fmt w) →
  ∃ w', dispatch round2 b64encode (CUpdate u) w = Done w' ∧ out w' = out w
        ∧ building k ers an c (fmt w').
Proof.
  intros H. eexists. split; [done|].
  destruct H as ((Ho & Hk & Hf) & Hc & HH).
  destruct u; simpl; unfold update;
    try destruct (current_feature (fmt w)) eqn:E;
    try destruct (current_scenario (fmt w)) eqn:E';
    (split; [done|]); repeat split; try done; by eexists.
Qed.

Lemma run_app l1 l2 w : run round2 b64encode (l1 ++ l2) w
  = and_then (run round2 b64encode l1 w) (run round2 b64encode l2).
Proof.
  revert w. induction l1 as [|c l1 IH]; intros w; simpl; [done|].
  destruct (dispatch round2 b64encode c w); simpl; [apply IH|done].
Qed.

Lemma step_calls_building k ers calls : ∀ an c w,
  building k ers an c (fmt w) →
  wf_calls (length an) c calls = true →
  ∃ w' c', run round2 b64encode (call_of_step_call <$> calls) w = Done w' ∧ out w' = out w
           ∧ building k ers (an ++ omap announced_by calls) c' (fmt w').
Proof.
  induction calls as [|call calls IH]; intros an c w H Hwf.
  - exists w, c. simpl. by rewrite app_nil_r.
  - destruct call as [now st|m|now st|mime data|u]; simpl in Hwf.
    + destruct (step_building _ _ _ _ now st _ H) as (w1 & E1 & O1 & H1).
      destruct (IH (an ++ [(now, st)]) c w1 H1) as (w2 & c2 & E2 & O2 & H2).
      { by rewrite length_app, Nat.add_1_r. }
      exists w2, c2. cbn [fmap list_fmap run call_of_step_call].
      rewrite E1. simpl. split; [done|]. split; [congruence|].
      by rewrite <- app_assoc in H2.
    + apply andb_prop in Hwf as [Hwf Hrest]. apply andb_prop in Hwf as [Hm Hloc].
      destruct (match_building _ _ _ _ m _ H Hm) as (w1 & E1 & O1 & H1).
      { destruct (m_location m); [|done]. by apply Nat.ltb_lt. }
      destruct (IH an c w1 H1 Hrest) as (w2 & c2 & E2 & O2 & H2).
      exists w2, c2. cbn [fmap list_fmap run call_of_step_call].
      rewrite E1. simpl. split; [done|]. split; [congruence|done].
    + apply andb_prop in Hwf as [Hc Hrest]. apply Nat.ltb_lt in Hc.
      destruct (result_building _ _ _ _ now st _ H Hc) as (w1 & E1 & O1 & H1).
      destruct (IH an (S c) w1 H1 Hrest) as (w2 & c2 & E2 & O2 & H2).
      exists w2, c2. cbn [fmap list_fmap run call_of_step_call].
      rewrite E1. simpl. split; [done|]. split; [congruence|done].
    + apply andb_prop in Hwf as [Hc Hrest]. apply Nat.ltb_lt in Hc.
      destruct (embedding_building _ _ _ _ mime data _ H Hc) as (w1 & E1 & O1 & H1).
      destruct (IH an c w1 H1 Hrest) as (w2 & c2 & E2 & O2 & H2).
      exists w2, c2. cbn [fmap list_fmap run call_of_step_call].
      rewrite E1. simpl. split; [done|]. split; [congruence|done].
    + destruct (update_building _ _ _ _ u _ H) as (w1 & E1 & O1 & H1).
      destruct (IH an c w1 H1 Hwf) as (w2 & c2 & E2 & O2 & H2).
      exists w2, c2. cbn [fmap list_fmap run call_of_step_call].
      rewrite E1. simpl. split; [done|]. split; [congruence|done].
Qed.
End step_calls.

Lemma elements_field_snoc els e : elements_field (els ++ [e]) = Some (els ++ [e]).
Proof. by destruct els. Qed.

Lemma building_open k ers er an c fm :
  building k ers an c fm → an = onStep_calls er →
  open_feature k (ers ++ [er]) fm.
Proof.
  intros (Hf & _ & fd & els & e & Hfd & Hels & Hdone & Hsteps) ->.
  split; [done|]. exists fd, (els ++ [e]).
  rewrite elements_field_snoc. split; [done|]. split; [done|].
  apply Forall2_app; [done|]. constructor; [|done]. exact Hsteps.
Qed.

Lemma finish_open k ers now fm :
  open_feature k ers fm →
  ∃ fm', finish_previous_element_data now fm = Ok fm' ∧ open_feature k ers fm'.
Proof.
  intros (Hf & fd & els & Hfd & Hels & Hdone).
  unfold finish_previous_element_data. rewrite Hfd, Hels.
  destruct els as [|e els _] using rev_ind.
  { exists fm. split; [done|]. split; [done|]. by exists fd, []. }
  rewrite elements_field_snoc, last_snoc.
  assert (open_feature k ers fm) as Hopen.
  { split; [done|]. by exists fd, (els ++ [e]). }
  destruct (String.eqb (e_type e) "scenario"); [|by exists fm].
  destruct (current_scenario fm) as [sc|]; [|by exists fm].
  eexists. split; [done|].
  unfold update_feature_element. rewrite Hfd, Hels, elements_field_snoc, alter_last_snoc.
  split; [by destruct Hf as (? & ? & ?)|].
  eexists _, (els ++ [finish_element now sc e]). simpl.
  rewrite elements_field_snoc. repeat split.
  apply Forall2_app_inv_l in Hdone as (ers1 & ers2 & H1 & H2 & ->).
  apply Forall2_app; [done|].
  inversion H2 as [|? er ? ? He Hnil]; subst. inversion Hnil; subst.
  by constructor.
Qed.

Lemma add_element_building k ers e fm :
  open_feature k ers fm → e_steps e = [] →
  ∃ fm', add_feature_element e fm = Ok fm' ∧ building k ers [] (step_index fm) fm'.
Proof.
  intros (Hf & fd & els & Hfd & Hels & Hdone) He.
  unfold add_feature_element. rewrite Hfd, Hels. eexists. split; [done|].
  split; [by destruct Hf as (? & ? & ?)|]. split; [done|].
  eexists _, els, e. simpl. repeat split.
  - by destruct els.
  - done.
  - by rewrite He.
Qed.

Section element_runs.
Variable round2 : spec_float → spec_float.
Variable b64encode : string → string.

Lemma replay_building k ers pairs : ∀ an c fm,
  building k ers an c fm →
  ∃ fm', foldM (λ fm a, step a.1 a.2 fm) fm pairs = Ok fm'
         ∧ building k ers (an ++ pairs) c fm'.
Proof.
  induction pairs as [|[now st] pairs IH]; intros an c fm H.
  - exists fm. simpl. by rewrite app_nil_r.
  - destruct (step_fm_building _ _ _ _ now st _ H) as (fm1 & E1 & H1).
    destruct (IH _ _ _ H1) as (fm2 & E2 & H2).
    exists fm2. simpl. rewrite E1. simpl. split; [done|].
    by rewrite <- app_assoc in H2.
Qed.

Lemma element_start_building k ers er w :
  open_feature k ers (fmt w) →
  ∃ w', dispatch round2 b64encode
          (match er_start er with
           | BackgroundStart now_finish now step_now b =>
               CBackground now_finish now step_now b
           | ScenarioStart now_finish now sc => CScenario now_finish now sc
           end) w = Done w'
        ∧ out w' = out w
        ∧ building k ers
            (match er_start er with
             | BackgroundStart _ _ step_now b => replayed step_now (b_steps b)
             | ScenarioStart _ _ _ => []
             end) 0 (fmt w').
Proof.
  intros H. destruct (er_start er) as [nowf now step_now b|nowf now sc]; simpl.
  - destruct (finish_open _ _ nowf _ H) as (fm1 & E1 & H1).
    unfold on_fmt, background. rewrite E1. simpl.
    destruct (add_element_building _ _
                (mk_element "background" (b_keyword b) (b_name b) []
                   (b_location b) [] (VStr "") now VNone None None) _ H1 eq_refl)
      as (fm2 & E2 & H2).
    rewrite E2. simpl.
    destruct (replay_building k ers (replayed step_now (b_steps b)) [] 0
                (set_step_index 0 fm2))
      as (fm3 & E3 & H3).
    { by eapply building_index. }
    rewrite E3. by eexists.
  - destruct (finish_open _ _ nowf _ H) as (fm1 & E1 & H1).
    unfold scenario. rewrite E1.
    assert (open_feature k ers (set_scenario sc fm1)) as H1'.
    { destruct H1 as ((? & ? & ?) & ?). by split. }
    destruct (add_element_building _ _
                (mk_element "scenario" (sc_keyword sc) (sc_name sc) (sc_tags sc)
                   (sc_location sc) [] VNone now VNone
                   (Some (default 0%Z (sc_retry_attempts sc)))
                   (match sc_description sc with [] => None | d => Some d end))
                _ H1' eq_refl) as (fm2 & E2 & H2).
    rewrite E2. eexists. split; [done|]. split; [done|].
    simpl. by eapply building_index.
Qed.

Lemma element_run_open k ers er w :
  open_feature k ers (fmt w) → wf_element er = true →
  ∃ w', run round2 b64encode (calls_of_element er) w = Done w' ∧ out w' = out w
        ∧ open_feature k (ers ++ [er]) (fmt w').
Proof.
  intros H Hwf.
  destruct (element_start_building _ _ er _ H) as (w1 & E1 & O1 & H1).
  unfold calls_of_element. cbn [run]. rewrite E1. simpl.
  destruct (step_calls_building round2 b64encode k ers (er_calls er) _ 0 w1 H1)
    as (w2 & c2 & E2 & O2 & H2).
  { unfold wf_element in Hwf. destruct (er_start er); simpl;
      unfold replayed; by rewrite ?length_imap. }
  exists w2. split; [done|]. split; [congruence|].
  eapply building_open; [done|]. unfold onStep_calls. done.
Qed.

Lemma element_runs_open k ers' : ∀ ers w,
  open_feature k ers (fmt w) → forallb wf_element ers' = true →
  ∃ w', run round2 b64encode (ers' ≫= calls_of_element) w = Done w' ∧ out w' = out w
        ∧ open_feature k (ers ++ ers') (fmt w').
Proof.
  induction ers' as [|er ers' IH]; intros ers w H Hwf.
  - exists w. simpl. by rewrite app_nil_r.
  - simpl in Hwf. apply andb_prop in Hwf as [Her Hers'].
    destruct (element_run_open _ _ er _ H Her) as (w1 & E1 & O1 & H1).
    destruct (IH _ _ H1 Hers') as (w2 & E2 & O2 & H2).
    exists w2. rewrite bind_cons, run_app, E1. simpl.
    split; [done|]. split; [congruence|]. by rewrite <- app_assoc in H2.
Qed.
End element_runs.

Lemma steps_of_element_to_value e :
  steps_of (element_to_value e) = VDict <$> e_steps e.
Proof. unfold element_to_value. by destruct (String.eqb (e_type e) "background"). Qed.

Lemma elements_of_feature_to_value fd els :
  fd_elements fd = elements_field els →
  runner.elements_of (feature_to_value fd) = element_to_value <$> els.
Proof.
  intros H. unfold feature_to_value, runner.elements_of. rewrite H.
  destruct (fd_description fd), els; reflexivity.
Qed.

Lemma feature_to_value_matches fd els fr :
  fd_elements fd = elements_field els →
  Forall2 element_matches els (fr_elements fr) →
  feature_matches (feature_to_value fd) fr.
Proof.
  intros Hels H. unfold feature_matches.
  rewrite (elements_of_feature_to_value fd els Hels).
  apply Forall2_fmap_l. eapply Forall2_impl; [exact H|].
  intros e er He. simpl. rewrite steps_of_element_to_value.
  apply Forall2_fmap_l. eapply Forall2_impl; [exact He|].
  intros d a Hd. by exists d.
Qed.

Section feature_runs.
Variable round2 : spec_float → spec_float.
Variable b64encode : string → string.

Lemma feature_open now f fm :
  stream_open fm = true →
  open_feature (feature_count fm) [] (feature now f fm).
Proof.
  intros H. split; [by repeat split|].
  eexists _, []. by repeat split.
Qed.

Lemma eof_open k fr nowf now w :
  open_feature k (fr_elements fr) (fmt w) →
  ∃ w' fv, dispatch round2 b64encode (CEof nowf now) w = Done w'
           ∧ stream_open (fmt w') = true
           ∧ feature_count (fmt w') = k + 1
           ∧ out w' = out w ++ [if Nat.eqb k 0 then header else separator; Dump fv]
           ∧ feature_matches fv fr.
Proof.
  intros H. destruct (finish_open _ _ nowf _ H) as (fm1 & E1 & H1).
  destruct H as (_ & fd0 & _ & Hfd0 & _).
  destruct H1 as ((Ho & Hk & [f Hf]) & fd & els & Hfd & Hels & Hdone).
  cbn [dispatch]. unfold eof. rewrite Hfd0. unfold on_fmt at 1. rewrite E1.
  unfold and_then at 1. unfold on_fmt, update_status_data. simpl fmt.
  rewrite Hf, Hfd. unfold and_then at 1. simpl fmt. simpl feature_count.
  rewrite Hk.
  destruct (Nat.eqb k 0) eqn:Ek;
    unfold write_json_header, write_json_feature_separator, write; simpl;
    rewrite Ho; simpl; unfold write_json_feature, write; simpl;
    rewrite Ho; simpl; eexists _, _; (split; [reflexivity|]); simpl;
    (split; [done|]); (split; [lia|]);
    rewrite <- app_assoc; (split; [done|]);
    by apply (feature_to_value_matches _ els).
Qed.

Lemma feature_run_ok fr w :
  stream_open (fmt w) = true →
  forallb wf_element (fr_elements fr) = true →
  ∃ w' fv, run round2 b64encode (calls_of_feature fr) w = Done w'
           ∧ stream_open (fmt w') = true
           ∧ feature_count (fmt w') = feature_count (fmt w) + 1
           ∧ out w' = out w ++ [if Nat.eqb (feature_count (fmt w)) 0
                               then header else separator; Dump fv]
           ∧ feature_matches fv fr.
Proof.
  intros Ho Hwf. unfold calls_of_feature. cbn [run dispatch and_then].
  pose proof (feature_open (fr_now fr) (fr_feature fr) _ Ho) as H0.
  destruct (element_runs_open round2 b64encode _ (fr_elements fr) []
              (set_fmt (feature (fr_now fr) (fr_feature fr) (fmt w)) w) H0 Hwf)
    as (w1 & E1 & O1 & H1).
  rewrite run_app, E1. simpl in H1. cbn [and_then run].
  destruct (eof_open _ fr (fr_finish fr) (fr_eof fr) _ H1)
    as (w2 & fv & E2 & Ho2 & Hk2 & O2 & Hm).
  rewrite E2. exists w2, fv. simpl. split; [done|]. split; [done|].
  split; [done|]. split; [|done]. by rewrite O2, O1.
Qed.

Lemma feature_runs_ok frs : ∀ w,
  stream_open (fmt w) = true → wf_run frs = true →
  ∃ w' fvs, run round2 b64encode (frs ≫= calls_of_feature) w = Done w'
            ∧ stream_open (fmt w') = true
            ∧ feature_count (fmt w') = feature_count (fmt w) + length frs
            ∧ out w' = out w ++ feature_chunks (feature_count (fmt w)) fvs
            ∧ Forall2 feature_matches fvs frs.
Proof.
  induction frs as [|fr frs IH]; intros w Ho Hwf.
  - exists w, []. simpl. rewrite app_nil_r. repeat split; [done|lia|done].
  - simpl in Hwf. apply andb_prop in Hwf as [Hfr Hfrs].
    destruct (feature_run_ok fr w Ho Hfr) as (w1 & fv & E1 & Ho1 & Hk1 & O1 & Hm1).
    destruct (IH w1 Ho1 Hfrs) as (w2 & fvs & E2 & Ho2 & Hk2 & O2 & Hm2).
    exists w2, (fv :: fvs). rewrite bind_cons, run_app, E1. simpl.
    split; [done|]. split; [done|]. split; [lia|]. split; [|by constructor].
    rewrite O2, O1, Hk1, <- app_assoc. simpl. by rewrite Nat.add_1_r.
Qed.
End feature_runs.

Lemma feature_chunks_later k fvs :
  feature_chunks (S k) fvs = fvs ≫= λ g, [separator; Dump g].
Proof.
  revert k. induction fvs as [|fv fvs IH]; intros k; [done|].
  simpl. by rewrite IH.
Qed.

Lemma array_items_separated fvs :
  array_items ((fvs ≫= λ g, [TComma; TValue g]) ++ [TClose]) = Some fvs.
Proof.
  induction fvs as [|fv fvs IH]; [done|].
  rewrite bind_cons. cbn [app array_items]. by rewrite IH.
Qed.

Lemma tokens_separated fvs :
  tokens (fvs ≫= λ g, [separator; Dump g]) = fvs ≫= λ g, [TComma; TValue g].
Proof.
  unfold tokens. induction fvs as [|fv fvs IH]; [done|].
  rewrite !bind_cons, bind_app, IH. reflexivity.
Qed.

Lemma json_load_document fvs : json_load_output (document fvs) = Some (VList fvs).
Proof.
  destruct fvs as [|fv fvs]; [reflexivity|].
  unfold json_load_output, document.
  change (tokens (header :: Dump fv :: (fvs ≫= λ g, [separator; Dump g]) ++ [footer]))
    with (TOpen :: TValue fv :: tokens ((fvs ≫= λ g, [separator; Dump g]) ++ [footer])).
  unfold tokens at 1. rewrite bind_app. fold (tokens (fvs ≫= λ g, [separator; Dump g])).
  rewrite tokens_separated.
  change ([footer] ≫= _) with [TClose].
  by rewrite array_items_separated.
Qed.


Lemma step_index_update g fm :
  step_index (update_feature_element g fm) = step_index fm.
Proof.
  unfold update_feature_element.
  destruct (current_feature_data fm) as [fd|]; [|done].
  by destruct (fd_elements fd).
Qed.



Lemma and_then_done o k w' :
  and_then o k = Done w' → ∃ w1, o = Done w1 ∧ k w1 = Done w'.
Proof. destruct o as [w1|]; [|done]. intros H. by exists w1. Qed.

Lemma on_fmt_done f w w' :
  on_fmt f w = Done w' → f (fmt w) = Ok (fmt w') ∧ out w' = out w.
Proof.
  unfold on_fmt. destruct (f (fmt w)) as [fm|]; [|done].
  by intros [= <-].
Qed.

Lemma finish_feature_count now fm fm' :
  finish_previous_element_data now fm = Ok fm' →
  feature_count fm' = feature_count fm.
Proof.
  unfold finish_previous_element_data.
  destruct (current_feature_data fm) as [fd|] eqn:Hfd; [|by intros [= <-]].
  destruct (fd_elements fd) as [els|] eqn:Hels; [|by intros [= <-]].
  destruct (last els) as [e|]; [|done].
  destruct (String.eqb (e_type e) "scenario"); [|by intros [= <-]].
  destruct (current_scenario fm) as [sc|]; [|by intros [= <-]].
  intros [= <-]. unfold update_feature_element. by rewrite Hfd, Hels.
Qed.

(** An end of feature that returns, with a feature under construction:
    the opening bracket before the first feature, the separator before
    each later one. *)
Lemma eof_writes nowf now w w' fd :
  current_feature_data (fmt w) = Some fd →
  eof nowf now w = Done w' →
  ∃ v, out w' = out w ++ [if Nat.eqb (feature_count (fmt w)) 0
                          then header else separator; Dump v]
       ∧ feature_count (fmt w') = feature_count (fmt w) + 1.
Proof.
  intros Hfd H. unfold eof in H. rewrite Hfd in H.
  apply and_then_done in H as (w1 & H1 & H).
  apply and_then_done in H as (w2 & H2 & H).
  apply and_then_done in H as (w3 & H3 & H).
  apply on_fmt_done in H1 as [F1 O1].
  apply on_fmt_done in H2 as [F2 O2].
  apply finish_feature_count in F1.
  assert (Hk2 : feature_count (fmt w2) = feature_count (fmt w1)).
  { unfold update_status_data in F2.
    destruct (current_feature (fmt w1)); [|done].
    destruct (current_feature_data (fmt w1)); [|done].
    injection F2 as F2. by rewrite <- F2. }
  assert (H3' : out w3 = out w2 ++ [if Nat.eqb (feature_count (fmt w)) 0
                                    then header else separator]
                ∧ fmt w3 = fmt w2).
  { rewrite Hk2, F1 in H3.
    destruct (Nat.eqb (feature_count (fmt w)) 0);
      unfold write_json_header, write_json_feature_separator, write in H3;
      destruct (stream_open (fmt w2)); try done; by injection H3 as <-. }
  destruct H3' as [O3 F3].
  destruct (current_feature_data (fmt w3)) as [fd3|]; [|done].
  apply and_then_done in H as (w4 & H4 & H).
  unfold write_json_feature, write in H4.
  destruct (stream_open (fmt w3)); [|done].
  injection H4 as <-. injection H as <-.
  exists (feature_to_value fd3). cbn [out fmt set_fmt]. split.
  - rewrite O3, O2, O1, <- app_assoc. done.
  - cbn. rewrite F3, Hk2, F1. done.
Qed.

Section whole_runs.
Variable round2 : spec_float → spec_float.
Variable b64encode : string → string.


Lemma close_empty w :
  stream_open (fmt w) = true → feature_count (fmt w) = 0 →
  ∃ w', close w = Done w' ∧ out w' = out w ++ [header; footer]
        ∧ stream_open (fmt w') = false.
Proof.
  intros Ho Hk. unfold close. rewrite Hk. simpl.
  unfold write_json_header, write_json_footer, write. rewrite Ho. simpl.
  rewrite Ho. simpl. eexists. split; [done|]. simpl.
  by rewrite <- app_assoc.
Qed.

Lemma close_nonempty w :
  stream_open (fmt w) = true → feature_count (fmt w) ≠ 0 →
  ∃ w', close w = Done w' ∧ out w' = out w ++ [footer]
        ∧ stream_open (fmt w') = false.
Proof.
  intros Ho Hk. unfold close. apply Nat.eqb_neq in Hk. rewrite Hk. simpl.
  unfold write_json_footer, write. rewrite Ho. simpl. by eexists.
Qed.

Lemma whole_run frs :
  wf_run frs = true →
  ∃ w fvs, run round2 b64encode (calls_of_run frs) init_world = Done w
           ∧ out w = document fvs
           ∧ Forall2 feature_matches fvs frs.
Proof.
  intros Hwf.
  destruct (feature_runs_ok round2 b64encode frs init_world eq_refl Hwf)
    as (w1 & fvs & E1 & Ho1 & Hk1 & O1 & Hm).
  simpl in Hk1, O1. unfold calls_of_run. rewrite run_app, E1. cbn [and_then run dispatch].
  pose proof (Forall2_length _ _ _ Hm) as Hlen.
  destruct fvs as [|fv fvs].
  - destruct (close_empty w1 Ho1) as (w2 & E2 & O2 & _); [simpl in Hlen; lia|].
    rewrite E2. exists w2, []. simpl. split; [done|]. split; [|done].
    by rewrite O2, O1.
  - destruct (close_nonempty w1 Ho1) as (w2 & E2 & O2 & _); [simpl in Hlen; lia|].
    rewrite E2. exists w2, (fv :: fvs). simpl. split; [done|]. split; [|done].
    rewrite O2, O1. simpl. by rewrite feature_chunks_later.
Qed.
End whole_runs.

(** ** The formatter over a well-formed run *)





(** C6. At the end of a run with no feature written the formatter writes
    the opening and the closing bracket, and the two read back as the
    empty array; with a feature written it writes the closing bracket
    alone. Every end of feature that returns writes the opening bracket
    before the first feature and a comma before each later one. The
    output of a well-formed run is, text for text, the opening bracket,
    the features with a comma before each but the first, and the closing
    bracket; it reads back as the array of the features. *)
Theorem close_writes_brackets
  (round2 : spec_float → spec_float) (b64encode : string → string) :
  let open_bracket := Text (String "[" (String LF EmptyString)) in
  let close_bracket := Text (String LF (String "]" (String LF EmptyString))) in
  let comma := Text (String "," (String LF (String LF EmptyString))) in
  (∀ w, stream_open (fmt w) = true → feature_count (fmt w) = 0 →
        ∃ w', close w = Done w'
              ∧ out w' = out w ++ [open_bracket; close_bracket])
  ∧ json_load_output [open_bracket; close_bracket] = Some (VList [])
  ∧ (∀ w, stream_open (fmt w) = true → feature_count (fmt w) ≠ 0 →
          ∃ w', close w = Done w' ∧ out w' = out w ++ [close_bracket])
  ∧ (∀ now_finish now w w' fd,
       current_feature_data (fmt w) = Some fd →
       eof now_finish now w = Done w' →
       ∃ fv, out w' = out w ++ [if Nat.eqb (feature_count (fmt w)) 0
                                then open_bracket else comma; Dump fv]
             ∧ feature_count (fmt w') = feature_count (fmt w) + 1)
  ∧ (∀ frs, wf_run frs = true →
            ∃ w fvs,
              run round2 b64encode (calls_of_run frs) init_world = Done w
              ∧ length fvs = length frs
              ∧ out w
                = match fvs with
                  | [] => [open_bracket; close_bracket]
                  | fv :: fvs' =>
                      open_bracket :: Dump fv
                        :: (fvs' ≫= λ g, [comma; Dump g]) ++ [close_bracket]
                  end
              ∧ json_load_output (out w) = Some (VList fvs)).
Proof.
  intros open_bracket close_bracket comma.
  split; [|split; [reflexivity|split; [|split]]].
  - intros w Ho Hk. destruct (close_empty w Ho Hk) as (w' & E & O & _).
    exists w'. split; [exact E|exact O].
  - intros w Ho Hk. destruct (close_nonempty w Ho Hk) as (w' & E & O & _).
    exists w'. split; [exact E|exact O].
  - intros nowf now w w' fd Hfd H.
    exact (eof_writes nowf now w w' fd Hfd H).
  - intros frs Hwf.
    destruct (whole_run round2 b64encode frs Hwf) as (w & fvs & E & O & Hm).
    exists w, fvs. split; [exact E|]. split; [by eapply Forall2_length|].
    split; [|by rewrite O, json_load_document].
    rewrite O. by destruct fvs.
Qed.

Lemma close_writes_brackets_witness :
  ∃ w,
    close init_world = Done w
    ∧ out w = [Text (String "[" (String LF EmptyString));
               Text (String LF (String "]" (String LF EmptyString)))].
Proof.
  destruct (proj1 (close_writes_brackets (λ f, f) (λ s, s)) init_world eq_refl eq_refl)
    as (w & E & O).
  exists w. split; [exact E|exact O].
Defined.

(** ** Match arguments *)

Lemma match_argument_raises a e :
  match_argument a = Raise e → e = AssertionError.
Proof.
  unfold match_argument.
  destruct (is_json_scalar (if is_json_scalar (arg_value a) then _ else _));
    [done|]. by intros [= <-].
Qed.

Lemma match_arguments_raise a args :
  a ∈ args → match_argument a = Raise AssertionError →
  match_arguments args = Raise AssertionError.
Proof.
  intros Hin Ha. induction args as [|a0 args IH]; [by apply elem_of_nil in Hin|].
  simpl. destruct (match_argument a0) as [v|e] eqn:E0; simpl.
  - apply elem_of_cons in Hin as [->|Hin]; [congruence|].
    by rewrite (IH Hin).
  - by rewrite (match_argument_raises a0 e E0).
Qed.

Lemma match_arguments_lookup args : ∀ vs i a,
  match_arguments args = Ok vs → args !! i = Some a →
  ∃ v, vs !! i = Some v ∧ match_argument a = Ok v.
Proof.
  induction args as [|a0 args IH]; intros vs i a; [done|]. simpl.
  destruct (match_argument a0) as [v0|] eqn:E0; simpl; [|done].
  destruct (match_arguments args) as [vs0|] eqn:E; simpl; [|done].
  intros [= <-]. destruct i as [|i]; simpl.
  - intros [= <-]. by exists v0.
  - by apply IH.
Qed.

Lemma current_after_update g fm e :
  current_feature_element fm = Ok e →
  current_feature_element (update_feature_element g fm) = Ok (g e).
Proof.
  unfold current_feature_element, update_feature_element.
  destruct (current_feature_data fm) as [fd|]; [|done].
  destruct (fd_elements fd) as [els|]; [|done].
  destruct (last els) as [e0|] eqn:El; [|done]. intros [= ->]. simpl.
  apply last_Some in El as [els' ->]. by rewrite alter_last_snoc, last_snoc.
Qed.

(** A located match that returns has written its data, with the
    arguments in their order, to the step at the cursor. *)
Lemma match_writes m loc fm fm' :
  m_location m = Some loc → match_ m fm = Ok fm' →
  ∃ e s vs,
    match_arguments (m_arguments m) = Ok vs
    ∧ current_feature_element fm' = Ok e
    ∧ e_steps e !! step_index fm' = Some s
    ∧ dict_get "match" s
      = Some (VDict [("location", VStr loc); ("arguments", VList vs)]).
Proof.
  intros Hloc. unfold match_.
  destruct (match_arguments (m_arguments m)) as [vs|]; simpl; [|done].
  rewrite Hloc. simpl.
  destruct (current_feature_element fm) as [e|] eqn:E; simpl; [|done].
  destruct (e_steps e !! step_index fm) as [s|] eqn:L; [|done].
  intros [= <-]. eexists _, _, vs. split; [done|].
  split; [by apply current_after_update|].
  rewrite step_index_update. simpl. rewrite list_lookup_alter_eq, L. simpl.
  split; [done|]. apply dict_get_set_eq.
Qed.

(** C7. An argument whose bound value is no JSON scalar is serialized
    with its original text as value when that text is a JSON scalar, and
    so it stands in the match data of the step at the cursor; when the
    original is no JSON scalar either, the assertion fails: the argument
    is not serialized, and a match that carries it ends in
    [AssertionError] with nothing written. *)
Theorem match_argument_falls_back
  (round2 : spec_float → spec_float) (b64encode : string → string)
  (a : Argument) :
  is_json_scalar (arg_value a) = false →
  (is_json_scalar (arg_original a) = true →
     (∃ d, match_argument a = Ok (VDict d)
           ∧ dict_get "value" d = Some (arg_original a))
     ∧ ∀ m i loc fm fm',
         m_arguments m !! i = Some a → m_location m = Some loc →
         match_ m fm = Ok fm' →
         ∃ e s vs d,
           current_feature_element fm' = Ok e
           ∧ e_steps e !! step_index fm' = Some s
           ∧ dict_get "match" s
             = Some (VDict [("location", VStr loc); ("arguments", VList vs)])
           ∧ vs !! i = Some (VDict d)
           ∧ dict_get "value" d = Some (arg_original a))
  ∧ (is_json_scalar (arg_original a) = false →
     match_argument a = Raise AssertionError
     ∧ ∀ m w, a ∈ m_arguments m →
         dispatch round2 b64encode (CMatch m) w = Failed AssertionError w).
Proof.
  intros Hv. split; intros Ho.
  - assert (∃ d, match_argument a = Ok (VDict d)
                 ∧ dict_get "value" d = Some (arg_original a)) as (d & Hd & Hval).
    { unfold match_argument. rewrite Hv, Ho. eexists. split; [done|].
      destruct (py_ne _ _); destruct (arg_name a) as [n|];
        try destruct (String.eqb n ""); rewrite ?dict_get_set_ne by done; done. }
    split; [by exists d|].
    intros m i loc fm fm' Hi Hloc Hm.
    destruct (match_writes m loc fm fm' Hloc Hm) as (e & s & vs & Hvs & He & Hs & Hget).
    destruct (match_arguments_lookup _ vs i a Hvs Hi) as (v & Hv' & Hav).
    exists e, s, vs, d. repeat split; try done. congruence.
  - assert (match_argument a = Raise AssertionError) as Ha.
    { unfold match_argument. by rewrite Hv, Ho. }
    split; [done|]. intros m w Hin. simpl. unfold on_fmt, match_.
    by rewrite (match_arguments_raise a _ Hin Ha).
Qed.

Lemma match_argument_falls_back_witness :
  is_json_scalar (arg_value nested_argument) = false
  ∧ ∃ d, match_argument nested_argument = Ok (VDict d)
         ∧ dict_get "value" d = Some (VStr "{user: {id: 7}}").
Proof.
  split; [reflexivity|].
  exact (proj1 (proj1 (match_argument_falls_back (λ f, f) (λ s, s)
                         nested_argument eq_refl) eq_refl)).
Defined.

(** ** Step text *)

Lemma step_appends now st fm fm' :
  step now st fm = Ok fm' →
  ∃ e, current_feature_element fm' = Ok e
       ∧ last (e_steps e) = Some (step_record now st).
Proof.
  unfold step, current_feature_element, update_feature_element.
  destruct (current_feature_data fm) as [fd|]; [|done].
  destruct (fd_elements fd) as [els|]; [|done].
  destruct (last els) as [e|] eqn:El; [|done]. simpl. intros [= <-]. simpl.
  apply last_Some in El as [els' ->]. rewrite alter_last_snoc, last_snoc.
  eexists. split; [done|]. simpl. apply last_snoc.
Qed.

(** C8, as the code has it. For every step: a text that is not empty
    is stored under [text], as the string itself when it has no line
    feed and as the list of its lines when it has one; a text that is
    empty, or missing, gets no [text] entry; and the record is the last
    step of the current element once [step] returns. *)
Theorem step_text_stored (now : string) (st : Step) :
  (∀ text, st_text st = Some text → String.eqb text "" = false →
     contains_newline text = false →
     dict_get "text" (step_record now st) = Some (VStr text))
  ∧ (∀ text, st_text st = Some text → contains_newline text = true →
     dict_get "text" (step_record now st)
     = Some (VList (VStr <$> splitlines text)))
  ∧ (st_text st = Some EmptyString ∨ st_text st = None →
     dict_get "text" (step_record now st) = None)
  ∧ ∀ fm fm', step now st fm = Ok fm' →
      ∃ e, current_feature_element fm' = Ok e
           ∧ last (e_steps e) = Some (step_record now st).
Proof.
  assert (Hget : dict_get "text" (step_record now st)
                 = match st_text st with
                   | Some text =>
                       if String.eqb text "" then None
                       else Some (split_text text)
                   | None => None
                   end).
  { unfold step_record. destruct (st_text st) as [text|].
    - destruct (String.eqb text "");
        destruct (st_table st); rewrite ?dict_get_set_ne by done;
        try apply dict_get_set_eq; done.
    - destruct (st_table st); rewrite ?dict_get_set_ne by done; done. }
  split; [|split; [|split]].
  - intros text Ht Hne Hnl. rewrite Hget, Ht, Hne.
    unfold split_text. by rewrite Hnl.
  - intros text Ht Hnl. rewrite Hget, Ht.
    destruct (String.eqb_spec text "") as [->|_]; [done|].
    unfold split_text. by rewrite Hnl.
  - intros [Ht|Ht]; by rewrite Hget, Ht.
  - intros fm fm'. apply step_appends.
Qed.

Lemma step_text_stored_witness :
  st_text two_line_step = Some (String "a" (String LF (String "b" EmptyString)))
  ∧ dict_get "text" (step_record "2026-01-01 10:00:01" two_line_step)
    = Some (VList [VStr "a"; VStr "b"]).
Proof.
  split; [reflexivity|].
  exact (proj1 (proj2 (step_text_stored "2026-01-01 10:00:01" two_line_step))
           _ eq_refl eq_refl).
Defined.

(** A text block that is empty has no line feed, and is not stored. *)
Lemma step_empty_text_not_stored :
  st_text empty_text_step = Some EmptyString
  ∧ contains_newline EmptyString = false
  ∧ dict_get "text" (step_record "2026-01-01 10:00:01" empty_text_step) = None.
Proof. repeat split. Qed.

(** ** The store through [result] *)

Lemma ctx_on_fmt f : ctx_stable (on_fmt f).
Proof. intros w. unfold on_fmt. by destruct (f (fmt w)). Qed.

Lemma ctx_write c : ctx_stable (write c).
Proof. intros w. unfold write. by destruct (stream_open (fmt w)). Qed.

Lemma ctx_and_then o k :
  ctx_stable k → ctx (world_of (and_then o k)) = ctx (world_of o).
Proof. intros Hk. destruct o as [w|e w]; simpl; [apply Hk|done]. Qed.

Lemma ctx_eof nowf now : ctx_stable (eof nowf now).
Proof.
  intros w. unfold eof. destruct (current_feature_data (fmt w)); [|done].
  rewrite ctx_and_then; [apply ctx_on_fmt|]. intros w1.
  rewrite ctx_and_then; [apply ctx_on_fmt|]. intros w2.
  rewrite ctx_and_then.
  { destruct (Nat.eqb _ _); apply ctx_write. }
  intros w3. destruct (current_feature_data (fmt w3)); [|done].
  rewrite ctx_and_then; [apply ctx_write|]. by intros w4.
Qed.

Lemma ctx_close : ctx_stable close.
Proof.
  intros w. unfold close. rewrite ctx_and_then.
  { destruct (Nat.eqb _ _); [apply ctx_write|done]. }
  intros w1. rewrite ctx_and_then; [apply ctx_write|]. by intros w2.
Qed.

Lemma ctx_scenario nowf now sc : ctx_stable (scenario nowf now sc).
Proof.
  intros w. unfold scenario.
  destruct (finish_previous_element_data nowf (fmt w)); [|done].
  by destruct (add_feature_element _ _).
Qed.

Lemma ctx_embedding b64encode mime data :
  ctx_stable (embedding b64encode mime data).
Proof.
  intros w. unfold embedding.
  destruct (current_feature_element (fmt w)) as [e|]; [|done].
  destruct (e_steps e !! step_index (fmt w)); [|done].
  destruct (dict_get "embeddings" _) as [[| | | | | |]|]; try done.
  by destruct (stream_open (fmt w)).
Qed.

Lemma user_data_reset_if_drained data k key c :
  k ≠ key →
  dict_get key (CustomContext.user_data (reset_if_drained data k c))
  = dict_get key (CustomContext.user_data c).
Proof.
  intros Hne. unfold reset_if_drained.
  destruct (truthy (VDict data)); [|done].
  simpl. by apply dict_get_set_ne.
Qed.

Section store.
Variable round2 : spec_float → spec_float.
Variable b64encode : string → string.

(** The store [result] leaves, whether it returns or raises. *)
Lemma result_report_keys now st w :
  let c := CustomContext.user_data (ctx (world_of (result round2 now st w))) in
  dict_get "Input Data" c = Some (VDict (drain "inputdata" (ctx w)))
  ∧ dict_get "Output Data" c = Some (VDict (drain "outputdata" (ctx w)))
  ∧ dict_get "Screenshot Data" c = Some (VDict (drain "screenshot" (ctx w))).
Proof.
  unfold result.
  destruct (current_feature_element (fmt w)) as [e|]; simpl.
  2:{ rewrite !dict_get_set_ne by done. rewrite !dict_get_set_eq.
      rewrite !dict_get_set_ne by done. by rewrite !dict_get_set_eq. }
  destruct (e_steps e !! step_index (fmt w)); simpl.
  2:{ rewrite !dict_get_set_ne by done. rewrite !dict_get_set_eq.
      rewrite !dict_get_set_ne by done. by rewrite !dict_get_set_eq. }
  rewrite !user_data_reset_if_drained by done. simpl.
  rewrite !dict_get_set_ne by done. rewrite !dict_get_set_eq.
  rewrite !dict_get_set_ne by done. by rewrite !dict_get_set_eq.
Qed.

(** The entries [result] does not touch. *)
Lemma result_other_keys now st w key :
  key ∉ ["Input Data"; "Output Data"; "Screenshot Data";
         "inputdata"; "outputdata"; "screenshot"] →
  dict_get key (CustomContext.user_data (ctx (world_of (result round2 now st w))))
  = dict_get key (CustomContext.user_data (ctx w)).
Proof.
  intros Hkey.
  assert ("Input Data" ≠ key ∧ "Output Data" ≠ key ∧ "Screenshot Data" ≠ key
          ∧ "inputdata" ≠ key ∧ "outputdata" ≠ key ∧ "screenshot" ≠ key)
    as (H1 & H2 & H3 & H4 & H5 & H6).
  { repeat split; intros <-; apply Hkey; repeat constructor. }
  unfold result.
  destruct (current_feature_element (fmt w)) as [e|]; simpl.
  2:{ by rewrite !dict_get_set_ne by done. }
  destruct (e_steps e !! step_index (fmt w)); simpl.
  2:{ by rewrite !dict_get_set_ne by done. }
  rewrite !user_data_reset_if_drained by done. simpl.
  by rewrite !dict_get_set_ne by done.
Qed.

Lemma report_keys_dispatch c w :
  keeps_report_keys c = true →
  Forall (λ key, holds_mapping key (ctx w)) report_keys →
  Forall (λ key, holds_mapping key (ctx (world_of (dispatch round2 b64encode c w))))
    report_keys.
Proof.
  intros Hc H.
  destruct c as [now f|nowf now step_now b|nowf now sc|now st|m|now st
                |mime data|nowf now| |u];
    cbn [dispatch].
  - done.
  - by rewrite ctx_on_fmt.
  - by rewrite ctx_scenario.
  - by rewrite ctx_on_fmt.
  - by rewrite ctx_on_fmt.
  - destruct (result_report_keys now st w) as (H1 & H2 & H3).
    repeat constructor; eexists; eassumption.
  - by rewrite ctx_embedding.
  - by rewrite ctx_eof.
  - by rewrite ctx_close.
  - simpl. destruct u as [s|s|n|key v]; simpl.
    + by destruct (current_feature (fmt w)).
    + by destruct (current_scenario (fmt w)).
    + by destruct (current_scenario (fmt w)).
    + unfold keeps_report_keys in Hc. apply negb_true_iff in Hc.
      apply Forall_forall. intros k Hk.
      destruct (proj1 (Forall_forall _ _) H k Hk) as [d Hd].
      exists d. unfold CustomContext.set_user_data. simpl.
      rewrite dict_get_set_ne; [done|]. intros ->.
      assert (existsb (String.eqb k) report_keys = true) as E; [|congruence].
      apply existsb_exists. exists k. split; [by apply list_elem_of_In|].
      apply String.eqb_refl.
Qed.

Lemma report_keys_run calls : ∀ w,
  forallb keeps_report_keys calls = true →
  Forall (λ key, holds_mapping key (ctx w)) report_keys →
  Forall (λ key, holds_mapping key (ctx (world_of (run round2 b64encode calls w))))
    report_keys.
Proof.
  induction calls as [|c calls IH]; intros w Hcalls H; [done|].
  simpl in Hcalls. apply andb_prop in Hcalls as [Hc Hcalls].
  pose proof (report_keys_dispatch c w Hc H) as H1.
  cbn [run]. destruct (dispatch round2 b64encode c w) as [w1|e w1]; simpl in *.
  - by apply IH.
  - done.
Qed.
End store.

(** C1, where the code departs from it. In scenario 2 of the
    specification the step gets the two entries as [Test_data] and
    [Test_Output_data]; after the call the entries [inputdata_x] and
    [outputdata_y] of the store hold what they held before, not null:
    the reset wrote null under the bare keys [inputdata] and [outputdata]. *)
Theorem result_leaves_prefixed_entries
  (round2 : spec_float → spec_float) (b64encode : string → string) :
  ∃ w e s,
    run round2 b64encode scenario2_calls init_world = Done w
    ∧ current_feature_element (fmt w) = Ok e
    ∧ e_steps e = [s]
    ∧ dict_get "Test_data" s = Some (VDict [("inputdata_x", VDict [("a", VInt 1)])])
    ∧ dict_get "Test_Output_data" s
      = Some (VDict [("outputdata_y", VDict [("b", VInt 2)])])
    ∧ CustomContext.get_user_data "inputdata_x" (ctx w) = VDict [("a", VInt 1)]
    ∧ CustomContext.get_user_data "outputdata_y" (ctx w) = VDict [("b", VInt 2)]
    ∧ dict_get "inputdata" (CustomContext.user_data (ctx w)) = Some VNone
    ∧ dict_get "outputdata" (CustomContext.user_data (ctx w)) = Some VNone.
Proof. eexists _, _, _. repeat split. Qed.

(** C10. Whether it returns or raises, [result] leaves in the store the
    three mappings it drained, under 'Input Data', 'Output Data' and
    'Screenshot Data': the resets of the same call write to other keys.
    Through every later call of the formatter, and every store write to
    another key, the three keys go on holding a mapping. *)
Theorem result_writes_report_keys
  (round2 : spec_float → spec_float) (b64encode : string → string)
  (now : string) (st : Step) (w : world) (calls : list call) :
  forallb keeps_report_keys calls = true →
  let w' := world_of (result round2 now st w) in
  dict_get "Input Data" (CustomContext.user_data (ctx w'))
  = Some (VDict (drain "inputdata" (ctx w)))
  ∧ dict_get "Output Data" (CustomContext.user_data (ctx w'))
    = Some (VDict (drain "outputdata" (ctx w)))
  ∧ dict_get "Screenshot Data" (CustomContext.user_data (ctx w'))
    = Some (VDict (drain "screenshot" (ctx w)))
  ∧ Forall (λ key,
              holds_mapping key (ctx (world_of (run round2 b64encode calls w'))))
      report_keys.
Proof.
  intros Hcalls w'.
  destruct (result_report_keys round2 now st w) as (H1 & H2 & H3).
  split; [done|]. split; [done|]. split; [done|].
  apply report_keys_run; [done|].
  repeat constructor; eexists; eassumption.
Qed.

Lemma result_writes_report_keys_witness :
  ∃ w,
    run (λ f, f) (λ s, s) scenario2_calls init_world = Done w
    ∧ dict_get "Input Data" (CustomContext.user_data (ctx w))
      = Some (VDict [("inputdata_x", VDict [("a", VInt 1)])])
    ∧ Forall (λ key,
                holds_mapping key
                  (ctx (world_of
                          (run (λ f, f) (λ s, s)
                             [CStep "2026-01-01 10:00:03" two_line_step;
                              CResult "2026-01-01 10:00:04" two_line_step;
                              CEof "2026-01-01 10:00:05" "2026-01-01 10:00:05"; CClose] w))))
        report_keys.
Proof.
  eexists. split; [reflexivity|].
  pose proof (result_writes_report_keys (λ f, f) (λ s, s)
                "2026-01-01 10:00:02" plain_step
                (world_of (run (λ f, f) (λ s, s)
                             (take 5 scenario2_calls) init_world))
                [CStep "2026-01-01 10:00:03" two_line_step;
                 CResult "2026-01-01 10:00:04" two_line_step;
                 CEof "2026-01-01 10:00:05" "2026-01-01 10:00:05"; CClose] eq_refl) as (H1 & _ & _ & H4).
  split; [exact H1|exact H4].
Defined.

(** * Further properties of the code *)

(** ** The store: set, get and reset *)

Lemma dict_get_set k k' v d :
  dict_get k' (dict_set k v d)
  = if String.eqb k k' then Some v else dict_get k' d.
Proof.
  destruct (String.eqb k k') eqn:E.
  - apply String.eqb_eq in E as ->. apply dict_get_set_eq.
  - apply String.eqb_neq in E. by apply dict_get_set_ne.
Qed.

Lemma dict_keys_set k v d :
  dict_keys (dict_set k v d)
  = if bool_decide (k ∈ dict_keys d) then dict_keys d else dict_keys d ++ [k].
Proof.
  unfold dict_keys. induction d as [|[k0 v0] d IH].
  { cbn [dict_set]. rewrite bool_decide_eq_false_2; [done|]. apply not_elem_of_nil. }
  cbn [dict_set]. destruct (String.eqb k k0) eqn:E.
  - apply String.eqb_eq in E as ->. rewrite !fmap_cons. simpl.
    rewrite bool_decide_eq_true_2; [done|]. by left.
  - apply String.eqb_neq in E. rewrite !fmap_cons, IH. simpl.
    destruct (bool_decide (k ∈ d.*1)) eqn:Hin.
    + apply bool_decide_eq_true in Hin.
      rewrite bool_decide_eq_true_2; [done|]. by right.
    + apply bool_decide_eq_false in Hin.
      rewrite bool_decide_eq_false_2; [done|].
      intros [?|?]%elem_of_cons; congruence.
Qed.

(** X1. In each of the four namespaces a [get] after a [set] of the same
    key returns the value set, and a [get] of any other key returns what
    it returned before. *)
Theorem store_get_after_set (c : CustomContext.t) (key key' : string) (v : value) :
  CustomContext.get_user_data key' (CustomContext.set_user_data key v c)
  = (if String.eqb key key' then v else CustomContext.get_user_data key' c)
  ∧ CustomContext.get_test_data key' (CustomContext.set_test_data key v c)
    = (if String.eqb key key' then v else CustomContext.get_test_data key' c)
  ∧ CustomContext.get_step_data key' (CustomContext.set_step_data key v c)
    = (if String.eqb key key' then v else CustomContext.get_step_data key' c)
  ∧ CustomContext.get_feature_data key' (CustomContext.set_feature_data key v c)
    = (if String.eqb key key' then v else CustomContext.get_feature_data key' c).
Proof.
  unfold CustomContext.get_user_data, CustomContext.get_test_data,
    CustomContext.get_step_data, CustomContext.get_feature_data. simpl.
  rewrite !dict_get_set. by destruct (String.eqb key key').
Qed.

(** X2. A reset of a user-data key never removes it: the key is listed
    afterwards, also when it was never set; its [get] returns [None], the
    other keys keep their place and their values, and a later [set]
    brings a value back. *)
Theorem reset_user_data_keeps_key (c : CustomContext.t) (key : string) :
  let c' := CustomContext.reset_user_data key c in
  key ∈ dict_keys (CustomContext.user_data c')
  ∧ CustomContext.get_user_data key c' = VNone
  ∧ (∃ added, dict_keys (CustomContext.user_data c')
              = dict_keys (CustomContext.user_data c) ++ added)
  ∧ (∀ key', String.eqb key key' = false →
       CustomContext.get_user_data key' c' = CustomContext.get_user_data key' c)
  ∧ ∀ v, CustomContext.get_user_data key (CustomContext.set_user_data key v c') = v.
Proof.
  cbv zeta. unfold CustomContext.get_user_data, CustomContext.reset_user_data,
    CustomContext.set_user_data, CustomContext.with_user_data.
  cbn [CustomContext.user_data]. rewrite dict_keys_set.
  split.
  { destruct (bool_decide _) eqn:E.
    - by apply bool_decide_eq_true in E.
    - apply elem_of_app. right. by left. }
  split; [by rewrite dict_get_set_eq|]. split.
  { destruct (bool_decide _); [exists []; by rewrite app_nil_r|by eexists]. }
  split.
  - intros key' Hne. by rewrite dict_get_set, Hne.
  - intros v. by rewrite dict_get_set_eq.
Qed.

(** ** What [result] drains and attaches *)

Lemma dict_get_keys key d :
  dict_get key d = None ↔ key ∉ dict_keys d.
Proof.
  unfold dict_keys. induction d as [|[k v] d IH]; simpl.
  - split; [intros _; apply not_elem_of_nil|done].
  - destruct (String.eqb key k) eqn:E.
    + apply String.eqb_eq in E as ->. split; [done|]. intros H. destruct H. by left.
    + apply String.eqb_neq in E. rewrite IH. split.
      * intros H [?|?]%elem_of_cons; [done|by apply H].
      * intros H ?. apply H. by right.
Qed.

Lemma drain_fold prefix c ks : ∀ acc key,
  dict_get key
    (foldl (λ data k,
              if String.prefix prefix k
              then dict_set k (CustomContext.get_user_data k c) data
              else data) acc ks)
  = if String.prefix prefix key && bool_decide (key ∈ ks)
    then Some (CustomContext.get_user_data key c)
    else dict_get key acc.
Proof.
  induction ks as [|k ks IH]; intros acc key.
  { cbn [foldl]. rewrite bool_decide_eq_false_2 by apply not_elem_of_nil.
    by rewrite andb_false_r. }
  cbn [foldl]. rewrite IH.
  destruct (String.prefix prefix key) eqn:Hp; simpl.
  - destruct (bool_decide (key ∈ ks)) eqn:Hin.
    + apply bool_decide_eq_true in Hin.
      rewrite bool_decide_eq_true_2; [done|]. by right.
    + apply bool_decide_eq_false in Hin.
      destruct (decide (k = key)) as [->|Hne].
      * rewrite bool_decide_eq_true_2 by (by left).
        by rewrite Hp, dict_get_set_eq.
      * rewrite bool_decide_eq_false_2.
        2:{ intros [?|?]%elem_of_cons; congruence. }
        destruct (String.prefix prefix k); [|done].
        by rewrite dict_get_set_ne.
  - destruct (String.prefix prefix k) eqn:Hk; [|done].
    rewrite dict_get_set_ne; [done|]. intros ->. congruence.
Qed.

Lemma drain_get (prefix : string) (c : CustomContext.t) (key : string) :
  dict_get key (drain prefix c)
  = if String.prefix prefix key
    then dict_get key (CustomContext.user_data c)
    else None.
Proof.
  unfold drain. rewrite drain_fold. simpl.
  destruct (String.prefix prefix key); simpl; [|done].
  destruct (bool_decide _) eqn:Hin.
  - apply bool_decide_eq_true in Hin. unfold CustomContext.get_user_data.
    destruct (dict_get key (CustomContext.user_data c)) eqn:E; [done|].
    by apply dict_get_keys in E.
  - apply bool_decide_eq_false in Hin. symmetry. by apply dict_get_keys.
Qed.

(** X3. The mapping drained for a prefix holds, for every key that
    starts with the prefix, the value the store holds for it, and no
    other key. *)
Theorem drain_lookup (prefix : string) (c : CustomContext.t) (key : string) :
  dict_get key (drain prefix c)
  = if String.prefix prefix key
    then dict_get key (CustomContext.user_data c)
    else None.
Proof. apply drain_get. Qed.

Lemma alter_is_insert {A} (f : A → A) i (l : list A) x :
  l !! i = Some x → alter f i l = <[i := f x]> l.
Proof.
  intros H. apply list_eq. intros j.
  destruct (decide (i = j)) as [<-|Hne].
  - rewrite list_lookup_alter_eq, H. simpl.
    by rewrite list_lookup_insert_eq by (by eapply lookup_lt_Some).
  - by rewrite list_lookup_alter_ne, list_lookup_insert_ne.
Qed.

Section result_facts.
Variable round2 : spec_float → spec_float.

(** X4. When there is a step at the cursor, [result] returns; the step
    then holds the three drained mappings and the result record, its
    other keys are as before, the other steps of the element are as
    before, and the cursor has moved by one. *)
Theorem result_attaches (now : string) (st : Step) (w : world)
    (e : element) (s : dict) :
  current_feature_element (fmt w) = Ok e →
  e_steps e !! step_index (fmt w) = Some s →
  ∃ w' e' s',
    result round2 now st w = Done w'
    ∧ current_feature_element (fmt w') = Ok e'
    ∧ step_index (fmt w') = S (step_index (fmt w))
    ∧ e_steps e' = <[step_index (fmt w) := s']> (e_steps e)
    ∧ dict_get "Test_data" s' = Some (VDict (drain "inputdata" (ctx w)))
    ∧ dict_get "Test_Output_data" s' = Some (VDict (drain "outputdata" (ctx w)))
    ∧ dict_get "Screenshot_data" s' = Some (VDict (drain "screenshot" (ctx w)))
    ∧ dict_get "result" s' = Some (VDict (result_record round2 now st))
    ∧ ∀ key, result_key key = false → dict_get key s' = dict_get key s.
Proof.
  intros He Hs. unfold result. rewrite He, Hs.
  eexists _, _, _. split; [reflexivity|]. cbn [fmt].
  split; [by apply current_after_update|].
  split; [simpl; rewrite step_index_update; lia|].
  split.
  { unfold set_step_key. simpl.
    rewrite !list_alter_alter_eq. by apply alter_is_insert. }
  simpl. rewrite !dict_get_set_eq.
  rewrite !(dict_get_set_ne "result") by done. rewrite !dict_get_set_eq.
  rewrite !(dict_get_set_ne "Screenshot_data") by done. rewrite !dict_get_set_eq.
  rewrite !(dict_get_set_ne "Test_Output_data") by done. rewrite !dict_get_set_eq.
  repeat (split; [done|]).
  intros key Hkey. unfold result_key in Hkey. simpl in Hkey.
  repeat (apply orb_false_elim in Hkey as [? Hkey]).
  rewrite !dict_get_set_ne; [done|..]; intros <-; by rewrite String.eqb_refl in *.
Qed.
End result_facts.

Lemma update_frame g fm :
  stream_open (update_feature_element g fm) = stream_open fm
  ∧ feature_count (update_feature_element g fm) = feature_count fm
  ∧ current_feature (update_feature_element g fm) = current_feature fm
  ∧ current_scenario (update_feature_element g fm) = current_scenario fm.
Proof.
  unfold update_feature_element.
  destruct (current_feature_data fm) as [fd|]; [|done].
  by destruct (fd_elements fd).
Qed.

Section result_frames.
Variable round2 : spec_float → spec_float.

(** X5. Whether it returns or raises, [result] writes nothing to the
    output, leaves the feature count, the current feature and the current
    scenario as they were, leaves the test, step and feature data of the
    store alone, and changes no user-data entry but the three it writes
    back and the three bare prefixes it resets. *)
Theorem result_frame (now : string) (st : Step) (w : world) :
  let w' := world_of (result round2 now st w) in
  out w' = out w
  ∧ stream_open (fmt w') = stream_open (fmt w)
  ∧ feature_count (fmt w') = feature_count (fmt w)
  ∧ current_feature (fmt w') = current_feature (fmt w)
  ∧ current_scenario (fmt w') = current_scenario (fmt w)
  ∧ CustomContext.test_data (ctx w') = CustomContext.test_data (ctx w)
  ∧ CustomContext.step_data (ctx w') = CustomContext.step_data (ctx w)
  ∧ CustomContext.feature_data (ctx w') = CustomContext.feature_data (ctx w)
  ∧ ∀ key, result_store_key key = false →
      dict_get key (CustomContext.user_data (ctx w'))
      = dict_get key (CustomContext.user_data (ctx w)).
Proof.
  cbv zeta.
  assert (∀ key, result_store_key key = false →
            dict_get key (CustomContext.user_data
                            (ctx (world_of (result round2 now st w))))
            = dict_get key (CustomContext.user_data (ctx w))) as Hkeys.
  { intros key Hkey. apply result_other_keys.
    unfold result_store_key in Hkey. intros Hin.
    apply list_elem_of_In in Hin.
    assert (existsb (String.eqb key)
              ["Input Data"; "Output Data"; "Screenshot Data";
               "inputdata"; "outputdata"; "screenshot"] = true) as E; [|congruence].
    apply existsb_exists. exists key. split; [done|apply String.eqb_refl]. }
  unfold result in *.
  destruct (current_feature_element (fmt w)) as [e|]; [|by repeat split].
  destruct (e_steps e !! step_index (fmt w)); [|by repeat split].
  cbn [world_of fmt out ctx] in *.
  destruct (update_frame
              (λ e0, set_step_key (step_index (fmt w)) "result"
                       (VDict (result_record round2 now st))
                       (set_step_key (step_index (fmt w)) "Screenshot_data"
                          (VDict (drain "screenshot" (ctx w)))
                          (set_step_key (step_index (fmt w)) "Test_Output_data"
                             (VDict (drain "outputdata" (ctx w)))
                             (set_step_key (step_index (fmt w)) "Test_data"
                                (VDict (drain "inputdata" (ctx w))) e0))))
              (fmt w)) as (H1 & H2 & H3 & H4).
  repeat split; try done.
  all: unfold reset_if_drained;
    repeat (destruct (truthy _)); reflexivity.
Qed.

(** X6. With no step at the cursor the calls that write to it raise and
    leave the formatter and the output as they were: [AssertionError]
    outside a feature, [KeyError] in a feature with no element yet,
    [IndexError] when every step of the element has its result. A match
    with no location is the exception: it writes nothing and returns. *)
Theorem calls_without_step (b64encode : string → string) (w : world) (e : exn) :
  step_error (fmt w) = Some e →
  (current_feature_data (fmt w) = None → e = AssertionError)
  ∧ (∀ fd, current_feature_data (fmt w) = Some fd → fd_elements fd = None →
       e = KeyError)
  ∧ (∀ now st, ∃ w', result round2 now st w = Failed e w'
                     ∧ fmt w' = fmt w ∧ out w' = out w)
  ∧ (∀ mime data,
       dispatch round2 b64encode (CEmbedding mime data) w = Failed e w)
  ∧ (∀ m, match_serializable m = true →
       dispatch round2 b64encode (CMatch m) w
       = if m_location m is Some _ then Failed e w else Done w).
Proof.
  unfold step_error. intros He.
  split; [|split].
  { intros Hfd. unfold current_feature_element in He. rewrite Hfd in He.
    by injection He as <-. }
  { intros fd Hfd Hels. unfold current_feature_element in He.
    rewrite Hfd, Hels in He. by injection He as <-. }
  split; [|split].
  - intros now st. unfold result.
    destruct (current_feature_element (fmt w)) as [el|e0].
    + destruct (e_steps el !! step_index (fmt w)); [done|].
      injection He as <-. by eexists.
    + injection He as <-. by eexists.
  - intros mime data. cbn [dispatch]. unfold on_fmt, embedding.
    destruct (current_feature_element (fmt w)) as [el|e0]; simpl.
    + destruct (e_steps el !! step_index (fmt w)); [done|]. by injection He as <-.
    + by injection He as <-.
  - intros m Hm. cbn [dispatch]. unfold on_fmt, match_.
    destruct (match_arguments_ok _ Hm) as (vs & ->). simpl.
    destruct (m_location m); [|by destruct w].
    destruct (current_feature_element (fmt w)) as [el|e0]; simpl.
    + destruct (e_steps el !! step_index (fmt w)); [done|]. by injection He as <-.
    + by injection He as <-.
Qed.

End result_frames.

(** ** Embeddings, end of feature, finishing an element *)

Section embedding_facts.
Variable round2 : spec_float → spec_float.
Variable b64encode : string → string.

Lemma embeddings_of_add emb s :
  embeddings_of (add_embedding emb s) = embeddings_of s ++ [emb]
  ∧ ∀ key, String.eqb key "embeddings" = false →
      dict_get key (add_embedding emb s) = dict_get key s.
Proof.
  unfold embeddings_of, add_embedding. split.
  - destruct (dict_get "embeddings" s) as [[| | | | |l|]|];
      by rewrite dict_get_set_eq.
  - intros key Hkey. apply String.eqb_neq in Hkey.
    destruct (dict_get "embeddings" s) as [[| | | | |l|]|];
      by rewrite dict_get_set_ne.
Qed.

Lemma embedding_done mime data w e s :
  stream_open (fmt w) = true →
  current_feature_element (fmt w) = Ok e →
  e_steps e !! step_index (fmt w) = Some s →
  embeddings_listed s = true →
  embedding b64encode mime data w
  = Done (set_fmt
            (update_feature_element
               (λ e0, set_steps
                        (alter (add_embedding (embedding_record b64encode
                                                 (mime, data)))
                           (step_index (fmt w)) (e_steps e0)) e0)
               (fmt w)) w).
Proof.
  intros Ho He Hs Hl. unfold embedding. rewrite He, Hs, Ho.
  unfold ensure_embeddings, embeddings_listed in *.
  destruct (dict_get "embeddings" s) as [[| | | | |l|]|] eqn:Eg; try done.
  - by rewrite Eg.
  - by rewrite dict_get_set_eq.
Qed.

Lemma embeddings_listed_add emb s : embeddings_listed (add_embedding emb s) = true.
Proof.
  unfold embeddings_listed, add_embedding.
  destruct (dict_get "embeddings" s) as [[| | | | |l|]|];
    by rewrite dict_get_set_eq.
Qed.

(** One embedding after the other, as the runner hands them over. *)
Lemma embeddings_accumulate_run items : ∀ w e s,
  stream_open (fmt w) = true →
  current_feature_element (fmt w) = Ok e →
  e_steps e !! step_index (fmt w) = Some s →
  embeddings_listed s = true →
  ∃ w' e' s',
    run round2 b64encode ((λ item, CEmbedding item.1 item.2) <$> items) w
    = Done w'
    ∧ out w' = out w ∧ ctx w' = ctx w
    ∧ step_index (fmt w') = step_index (fmt w)
    ∧ current_feature_element (fmt w') = Ok e'
    ∧ e_steps e' = <[step_index (fmt w) := s']> (e_steps e)
    ∧ embeddings_of s' = embeddings_of s ++ (embedding_record b64encode <$> items)
    ∧ ∀ key, String.eqb key "embeddings" = false →
        dict_get key s' = dict_get key s.
Proof.
  induction items as [|[mime data] items IH]; intros w e s Ho He Hs Hl.
  { exists w, e, s. simpl. rewrite app_nil_r.
    repeat split; try done. by rewrite list_insert_id. }
  set (emb := embedding_record b64encode (mime, data)).
  set (fm1 := update_feature_element
                (λ e0, set_steps (alter (add_embedding emb) (step_index (fmt w))
                                    (e_steps e0)) e0) (fmt w)).
  rewrite fmap_cons. cbn [run dispatch fst snd].
  rewrite (embedding_done mime data w e s Ho He Hs Hl). cbn [and_then].
  fold emb. fold fm1.
  assert (current_feature_element fm1
          = Ok (set_steps (alter (add_embedding emb) (step_index (fmt w))
                             (e_steps e)) e))
    as He1.
  { exact (current_after_update
             (λ e0, set_steps (alter (add_embedding emb) (step_index (fmt w))
                                 (e_steps e0)) e0) (fmt w) e He). }
  assert (step_index fm1 = step_index (fmt w)) as Hi1
    by apply step_index_update.
  assert (stream_open fm1 = true) as Ho1.
  { unfold fm1. by rewrite (proj1 (update_frame _ (fmt w))). }
  destruct (IH (set_fmt fm1 w) _ (add_embedding emb s) Ho1 He1)
    as (w' & e' & s' & E & Hout & Hctx & Hi & He' & Hsteps & Hemb & Hkeys).
  { cbn [fmt set_fmt]. rewrite Hi1. simpl.
    by rewrite list_lookup_alter_eq, Hs. }
  { apply embeddings_listed_add. }
  exists w', e', s'. split; [exact E|].
  split; [exact Hout|]. split; [exact Hctx|].
  split; [cbn [fmt set_fmt] in Hi; congruence|].
  split; [done|]. destruct (embeddings_of_add emb s) as [Hadd Hother].
  split.
  { rewrite Hsteps. cbn [fmt set_fmt]. rewrite Hi1. simpl.
    rewrite (alter_is_insert _ _ _ s Hs).
    by rewrite list_insert_insert_eq. }
  split.
  { rewrite Hemb, Hadd, <- app_assoc. done. }
  intros key Hkey. rewrite Hkeys by done. by apply Hother.
Qed.

(** X7. While the stream is open, embeddings are kept in the order they
    arrive: after any number of them the step at the cursor lists what
    it listed before followed by one record for each, with the MIME
    type and the encoded data; its other keys, the other steps, the
    cursor, the output and the store are as before. Once the stream is
    closed an embedding raises [AttributeError], after it has put the
    list into the step: a step that listed no embeddings lists an empty
    list, and the rest is as before. *)
Theorem embeddings_accumulate (w : world) (e : element) (s : dict) :
  current_feature_element (fmt w) = Ok e →
  e_steps e !! step_index (fmt w) = Some s →
  embeddings_listed s = true →
  (stream_open (fmt w) = true →
   ∀ items : list (string * string),
   ∃ w' e' s',
     run round2 b64encode ((λ item, CEmbedding item.1 item.2) <$> items) w
     = Done w'
     ∧ out w' = out w ∧ ctx w' = ctx w
     ∧ step_index (fmt w') = step_index (fmt w)
     ∧ current_feature_element (fmt w') = Ok e'
     ∧ e_steps e' = <[step_index (fmt w) := s']> (e_steps e)
     ∧ embeddings_of s'
       = embeddings_of s ++ (embedding_record b64encode <$> items)
     ∧ ∀ key, String.eqb key "embeddings" = false →
         dict_get key s' = dict_get key s)
  ∧ (stream_open (fmt w) = false →
     ∀ mime data,
     ∃ w' e',
       dispatch round2 b64encode (CEmbedding mime data) w
       = Failed AttributeError w'
       ∧ out w' = out w ∧ ctx w' = ctx w
       ∧ step_index (fmt w') = step_index (fmt w)
       ∧ current_feature_element (fmt w') = Ok e'
       ∧ e_steps e'
         = <[step_index (fmt w) := ensure_embeddings s]> (e_steps e)
       ∧ embeddings_of (ensure_embeddings s) = embeddings_of s).
Proof.
  intros He Hs Hl. split.
  - intros Ho items. by apply embeddings_accumulate_run.
  - intros Ho mime data. cbn [dispatch]. unfold embedding.
    rewrite He, Hs, Ho.
    assert (Hel : ∃ l, dict_get "embeddings" (ensure_embeddings s)
                       = Some (VList l)
                       ∧ embeddings_of (ensure_embeddings s) = embeddings_of s).
    { unfold ensure_embeddings, embeddings_listed, embeddings_of in *.
      destruct (dict_get "embeddings" s) as [[| | | | |l|]|] eqn:Eg;
        try done.
      - exists l. by rewrite Eg.
      - exists []. by rewrite dict_get_set_eq. }
    destruct Hel as (l & -> & Hsame).
    eexists _, _. split; [reflexivity|]. cbn [out ctx fmt set_fmt].
    split; [done|]. split; [done|].
    split; [apply step_index_update|].
    split.
    { exact (current_after_update
               (λ e0, set_steps (alter ensure_embeddings (step_index (fmt w))
                                   (e_steps e0)) e0) (fmt w) e He). }
    split; [|exact Hsame].
    cbn [e_steps set_steps]. by apply alter_is_insert.
Qed.
End embedding_facts.

(** X8. An end of feature with no feature under construction writes
    nothing and changes nothing; in particular a second end of feature
    right after the first leaves the output with the feature written
    once. *)
Theorem eof_twice (now_finish now now_finish' now' : string) (w w' : world) :
  eof now_finish now w = Done w' →
  current_feature_data (fmt w') = None ∧ eof now_finish' now' w' = Done w'.
Proof.
  intros H.
  assert (current_feature_data (fmt w') = None) as Hnone.
  { unfold eof in H.
    destruct (current_feature_data (fmt w)) as [fd|] eqn:Hfd.
    2:{ injection H as <-. done. }
    apply and_then_done in H as (w1 & _ & H).
    apply and_then_done in H as (w2 & _ & H).
    apply and_then_done in H as (w3 & _ & H).
    destruct (current_feature_data (fmt w3)); [|done].
    apply and_then_done in H as (w4 & _ & H).
    by injection H as <-. }
  split; [done|]. unfold eof. by rewrite Hnone.
Qed.

Lemma alter_last_steps {A} (f : A → A) (l : list A) :
  length (alter_last f l) = length l
  ∧ ∀ i, S i < length l → alter_last f l !! i = l !! i.
Proof.
  destruct l as [|x l _] using rev_ind; [done|].
  rewrite alter_last_snoc, !length_app. split; [done|].
  intros i Hi. simpl in Hi.
  rewrite !lookup_app_l by lia. done.
Qed.

(** X9. Finishing the previous element never raises while the feature
    has an element or none at all; it leaves every step list and every
    element but the last as it found them; a last element that is a
    background is left alone, and a last element that is a scenario takes
    the status and the retry count of the current scenario, as they are
    at that moment, and the time of the call as its end. *)
Theorem finish_previous_element_data_last (now : string) (fm : formatter) :
  elements_ready fm = true →
  ∃ fm',
    finish_previous_element_data now fm = Ok fm'
    ∧ e_steps <$> current_elements fm' = e_steps <$> current_elements fm
    ∧ (∀ i, S i < length (current_elements fm) →
         current_elements fm' !! i = current_elements fm !! i)
    ∧ ∀ e, last (current_elements fm) = Some e →
        last (current_elements fm')
        = Some (match String.eqb (e_type e) "scenario", current_scenario fm with
                | true, Some sc =>
                    mk_element (e_type e) (e_keyword e) (e_name e) (e_tags e)
                      (e_location e) (e_steps e)
                      (VStr (Status.name (sc_status sc))) (e_start_time e)
                      (VStr now) (Some (default 0%Z (sc_retry_attempts sc)))
                      (e_description e)
                | _, _ => e
                end).
Proof.
  intros Hready.
  assert (Hold : current_elements fm ≠ []
                 ∨ (current_feature_data fm ≫= fd_elements) = None).
  { unfold elements_ready, current_elements in *.
    destruct (current_feature_data fm ≫= fd_elements) as [[|e els]|];
      [done|by left|by right]. }
  clear Hready. revert Hold.
  unfold current_elements, finish_previous_element_data.
  destruct (current_feature_data fm) as [fd|] eqn:Hfd; simpl.
  2:{ intros _. exists fm. rewrite Hfd. simpl. by repeat split. }
  destruct (fd_elements fd) as [els|] eqn:Hels; simpl.
  2:{ intros _. exists fm. rewrite Hfd. simpl. rewrite Hels. by repeat split. }
  intros [Hne|?]; [|done].
  destruct els as [|e els _] using rev_ind; [done|].
  rewrite last_snoc.
  destruct (String.eqb (e_type e) "scenario") eqn:Ht.
  2:{ exists fm. rewrite Hfd. simpl. rewrite Hels. simpl.
      repeat split; try done. intros e0. rewrite last_snoc.
      intros [= <-]. by rewrite Ht. }
  destruct (current_scenario fm) as [sc|] eqn:Hsc.
  2:{ exists fm. rewrite Hfd. simpl. rewrite Hels. simpl.
      repeat split; try done. intros e0. rewrite last_snoc.
      intros [= <-]. by rewrite Ht. }
  eexists. split; [done|].
  unfold update_feature_element. rewrite Hfd, Hels, alter_last_snoc. simpl.
  split; [by rewrite !fmap_app|].
  split.
  { intros i Hi. rewrite length_app in Hi. simpl in Hi.
    by rewrite !lookup_app_l by lia. }
  intros e0. rewrite !last_snoc. intros [= <-]. by rewrite Ht.
Qed.

Lemma result_attaches_witness :
  ∃ w',
    result (λ f, f) "2026-01-01 10:00:02" plain_step example_open_world
    = Done w'
    ∧ step_index (fmt w') = 1.
Proof.
  destruct (result_attaches (λ f, f) "2026-01-01 10:00:02" plain_step
              example_open_world _ _ eq_refl eq_refl)
    as (w' & e' & s' & E & _ & I & _).
  exists w'. split; [exact E|exact I].
Defined.

Lemma calls_without_step_witness :
  step_error (fmt init_world) = Some AssertionError
  ∧ dispatch (λ f, f) (λ s, s) (CEmbedding "image/png" "x") init_world
    = Failed AssertionError init_world.
Proof.
  split; [reflexivity|].
  destruct (calls_without_step (λ f, f) (λ s, s) init_world AssertionError
              eq_refl) as (_ & _ & _ & E & _).
  exact (E "image/png" "x").
Defined.

Lemma embeddings_accumulate_witness :
  ∃ w' e' s',
    run (λ f, f) (λ s, s)
      [CEmbedding "image/png" "a"; CEmbedding "text/plain" "b"]
      example_open_world
    = Done w'
    ∧ current_feature_element (fmt w') = Ok e'
    ∧ e_steps e' !! 0 = Some s'
    ∧ embeddings_of s'
      = [VDict [("mime_type", VStr "image/png"); ("data", VStr "a")];
         VDict [("mime_type", VStr "text/plain"); ("data", VStr "b")]].
Proof.
  destruct (proj1 (embeddings_accumulate (λ f, f) (λ s, s)
                     example_open_world _ _ eq_refl eq_refl eq_refl)
              eq_refl [("image/png", "a"); ("text/plain", "b")])
    as (w' & e' & s' & E & _ & _ & _ & C & S & Em & _).
  exists w', e', s'. split; [exact E|]. split; [exact C|].
  split; [by rewrite S|exact Em].
Defined.

Lemma eof_twice_witness :
  ∃ w',
    eof "2026-01-01 10:00:04" "2026-01-01 10:00:04" example_open_world = Done w'
    ∧ eof "2026-01-01 10:00:05" "2026-01-01 10:00:05" w' = Done w'.
Proof.
  eexists. split; [reflexivity|].
  exact (proj2 (eof_twice "2026-01-01 10:00:04" "2026-01-01 10:00:04"
                  "2026-01-01 10:00:05" "2026-01-01 10:00:05"
                  example_open_world _ eq_refl)).
Defined.

Lemma finish_previous_element_data_last_witness :
  elements_ready (fmt example_open_world) = true
  ∧ ∃ fm',
      finish_previous_element_data "2026-01-01 10:00:03"
        (fmt example_open_world) = Ok fm'
      ∧ e_steps <$> current_elements fm'
        = e_steps <$> current_elements (fmt example_open_world).
Proof.
  split; [reflexivity|].
  destruct (finish_previous_element_data_last "2026-01-01 10:00:03"
              (fmt example_open_world) eq_refl) as (fm' & E & S & _).
  exists fm'. split; [exact E|exact S].
Defined.

(** ** Generic sub-report data: the top value *)

(** X10 (HTMLReportGenerator.py, generate_html_report): the data handed
    to the template is never [None], an empty dict or an empty list;
    data that is none of the three reaches the template unchanged, at
    every depth; and preparing prepared data changes nothing. *)
Theorem generate_html_report_data_placeholder (data : value) (fmt : string) :
  needs_placeholder (HTMLReportGenerator.generate_html_report_data data fmt)
  = false
  ∧ (needs_placeholder data = false →
     HTMLReportGenerator.generate_html_report_data data fmt = data)
  ∧ HTMLReportGenerator.generate_html_report_data
      (HTMLReportGenerator.generate_html_report_data data fmt) fmt
    = HTMLReportGenerator.generate_html_report_data data fmt.
Proof.
  unfold HTMLReportGenerator.generate_html_report_data,
    HTMLReportGenerator.format_datetime.
  rewrite !handle_nested_data_id.
  split; [|split].
  - by destruct data as [| | | | |[|]|[|]].
  - by destruct data as [| | | | |[|]|[|]].
  - by destruct data as [| | | | |[|]|[|]].
Qed.

(** ** The store after a drain *)

Lemma truthy_dict_get key (d : dict) v :
  dict_get key d = Some v → truthy (VDict d) = true.
Proof. by destruct d. Qed.

Lemma prefix_refl s : String.prefix s s = true.
Proof.
  induction s as [|c s IH]; [done|]. simpl.
  by destruct (ascii_dec c c).
Qed.

(** X11 (custom_json_formatter.py, result): when the mapping drained
    for one of the three prefixes is not empty, the reset leaves the
    prefix itself in the store as a key that holds [None]. The key
    starts with the prefix, so the mapping drained for the next step
    holds it, is not empty again, and the same goes for every step
    after. *)
Theorem result_leaves_null_entry
    (round2 : spec_float → spec_float) (now : string) (st : Step)
    (w w' : world) (prefix : string) :
  drained_prefix prefix = true →
  truthy (VDict (drain prefix (ctx w))) = true →
  result round2 now st w = Done w' →
  dict_get prefix (CustomContext.user_data (ctx w')) = Some VNone
  ∧ dict_get prefix (drain prefix (ctx w')) = Some VNone
  ∧ truthy (VDict (drain prefix (ctx w'))) = true.
Proof.
  intros Hp Ht Hr.
  assert (Hget :
    dict_get prefix (CustomContext.user_data (ctx w')) = Some VNone).
  { unfold result in Hr.
    destruct (current_feature_element (fmt w)) as [e|x]; [|done].
    destruct (e_steps e !! step_index (fmt w)); [|done].
    injection Hr as <-. cbn [ctx].
    unfold drained_prefix in Hp. cbn [existsb] in Hp.
    rewrite orb_false_r in Hp.
    apply orb_prop in Hp as [Hp|Hp]; [|apply orb_prop in Hp as [Hp|Hp]];
      apply String.eqb_eq in Hp; subst prefix.
    - rewrite !user_data_reset_if_drained by done.
      unfold reset_if_drained. rewrite Ht.
      apply dict_get_set_eq.
    - rewrite user_data_reset_if_drained by done.
      unfold reset_if_drained at 1. rewrite Ht.
      apply dict_get_set_eq.
    - unfold reset_if_drained at 1. rewrite Ht.
      apply dict_get_set_eq. }
  assert (Hd : dict_get prefix (drain prefix (ctx w')) = Some VNone).
  { by rewrite drain_get, prefix_refl. }
  split; [done|]. split; [done|]. by eapply truthy_dict_get.
Qed.

(** ** Sharding of the feature files *)

Section sharding.
Import runner_parallel.
Context {A : Type}.

Lemma every_lookup k : ∀ (l : list A) i m,
  0 < k → every k i l !! m = l !! (i + m * k).
Proof.
  intros l. induction l as [|x l IH]; intros i m Hk; [done|].
  destruct i as [|i].
  - destruct m as [|m]; [done|].
    replace (0 + S m * k) with (S (k - 1 + m * k)) by lia.
    cbn [every]. rewrite !lookup_cons. by apply IH.
  - cbn [every]. replace (S i + m * k) with (S (i + m * k)) by lia.
    rewrite lookup_cons. by apply IH.
Qed.

Lemma every_cons k i x (l : list A) :
  every k i (x :: l)
  = match i with 0 => x :: every k (k - 1) l | S i' => every k i' l end.
Proof. done. Qed.

Lemma split_lookup k (l : list A) j :
  j < k → feature_dirs_split k l !! j = Some (every k j l).
Proof.
  intros Hj. unfold feature_dirs_split. rewrite list_lookup_fmap.
  by rewrite lookup_seq_lt.
Qed.

(** The split of [x :: l]: the last shard of the split of [l], with [x]
    in front, comes first, the other shards follow. *)
Lemma split_cons k x (l : list A) :
  feature_dirs_split (S k) (x :: l)
  = (x :: every (S k) k l) :: ((λ i, every (S k) i l) <$> seq 0 k).
Proof.
  unfold feature_dirs_split. cbn [seq fmap list_fmap]. rewrite every_cons.
  replace (S k - 1) with k by lia. f_equal.
  rewrite <- fmap_S_seq, <- list_fmap_compose. done.
Qed.

Lemma split_snoc k (l : list A) :
  feature_dirs_split (S k) l
  = ((λ i, every (S k) i l) <$> seq 0 k) ++ [every (S k) k l].
Proof.
  unfold feature_dirs_split. by rewrite seq_S, fmap_app.
Qed.

Lemma split_permutation k (l : list A) :
  mjoin (feature_dirs_split (S k) l) ≡ₚ l.
Proof.
  induction l as [|x l IH].
  { unfold feature_dirs_split. induction (seq 0 (S k)) as [|? ? IHs]; [done|].
    simpl. by rewrite IHs. }
  rewrite split_cons. rewrite split_snoc in IH.
  simpl. constructor. rewrite <- IH at 2.
  rewrite join_app. simpl. rewrite app_nil_r. apply Permutation_app_comm.
Qed.
End sharding.

Section sharding_facts.
Import runner_parallel.
Context {A : Type}.

Lemma every_length_lt k j (l : list A) m :
  0 < k → m < length (every k j l) ↔ j + m * k < length l.
Proof.
  intros Hk. rewrite <- !lookup_lt_is_Some. by rewrite every_lookup.
Qed.

Lemma every_balanced k j j' (l : list A) :
  0 < k → j < k → j' < k →
  length (every k j l) ≤ S (length (every k j' l)).
Proof.
  intros Hk Hj Hj'.
  destruct (decide (length (every k j l) ≤ S (length (every k j' l))))
    as [|Hn]; [done|].
  assert (H1 : length (every k j l) - 1 < length (every k j l)) by lia.
  apply every_length_lt in H1; [|done].
  assert (H2 : ¬ (length (every k j l) - 2 < length (every k j' l))) by lia.
  rewrite every_length_lt in H2 by done.
  exfalso. apply H2.
  replace (length (every k j l) - 1) with (S (length (every k j l) - 2))
    in H1 by lia.
  nia.
Qed.
End sharding_facts.

(** X12 (runner.py, run_behave_tests): the split of the feature files
    over [max_parallel_jobs] workers is round robin. There are as many
    shards as jobs; file number [j + m * jobs] is item [m] of shard [j];
    the shards together hold each file exactly once; two shards differ
    by at most one file in length; and with at least as many files as
    jobs, which is when the split is used, no shard is empty. *)
Theorem feature_dirs_split_round_robin (max_parallel_jobs : nat)
    (feature_dirs : list string) :
  0 < max_parallel_jobs →
  let shards :=
    runner_parallel.feature_dirs_split max_parallel_jobs feature_dirs in
  length shards = max_parallel_jobs
  ∧ (∀ j m, j < max_parallel_jobs →
       shards !! j ≫= (λ shard, shard !! m)
       = feature_dirs !! (j + m * max_parallel_jobs))
  ∧ mjoin shards ≡ₚ feature_dirs
  ∧ (∀ a b, a ∈ shards → b ∈ shards → length a ≤ S (length b))
  ∧ (max_parallel_jobs ≤ length feature_dirs →
     ∀ a, a ∈ shards → a ≠ []).
Proof.
  intros Hk shards. subst shards. split; [|split; [|split; [|split]]].
  - unfold runner_parallel.feature_dirs_split.
    by rewrite length_fmap, length_seq.
  - intros j m Hj. rewrite split_lookup by done. simpl.
    by apply every_lookup.
  - destruct max_parallel_jobs as [|k]; [lia|]. apply split_permutation.
  - intros a b Ha Hb.
    apply list_elem_of_lookup in Ha as [j Ha].
    apply list_elem_of_lookup in Hb as [j' Hb].
    assert (Hj : j < max_parallel_jobs).
    { apply lookup_lt_Some in Ha.
      unfold runner_parallel.feature_dirs_split in Ha.
      by rewrite length_fmap, length_seq in Ha. }
    assert (Hj' : j' < max_parallel_jobs).
    { apply lookup_lt_Some in Hb.
      unfold runner_parallel.feature_dirs_split in Hb.
      by rewrite length_fmap, length_seq in Hb. }
    rewrite split_lookup in Ha, Hb by done.
    injection Ha as <-. injection Hb as <-. by apply every_balanced.
  - intros Hle a Ha.
    apply list_elem_of_lookup in Ha as [j Ha].
    assert (Hj : j < max_parallel_jobs).
    { apply lookup_lt_Some in Ha.
      unfold runner_parallel.feature_dirs_split in Ha.
      by rewrite length_fmap, length_seq in Ha. }
    rewrite split_lookup in Ha by done. injection Ha as <-.
    intros Hnil.
    assert (H0 : 0 < length (runner_parallel.every max_parallel_jobs j feature_dirs)).
    { apply every_length_lt; [done|]. lia. }
    rewrite Hnil in H0. simpl in H0. lia.
Qed.

Lemma feature_dirs_split_round_robin_witness :
  runner_parallel.feature_dirs_split 2 ["a"; "b"; "c"; "d"; "e"]
  = [["a"; "c"; "e"]; ["b"; "d"]]
  ∧ mjoin (runner_parallel.feature_dirs_split 2 ["a"; "b"; "c"; "d"; "e"])
    ≡ₚ ["a"; "b"; "c"; "d"; "e"].
Proof.
  split; [reflexivity|].
  apply (feature_dirs_split_round_robin 2 ["a"; "b"; "c"; "d"; "e"]). lia.
Defined.

Section return_codes.
Import runner_parallel.
Context {A : Type}.

Lemma overall_return_code_snoc (results : list (A * Z)) r :
  overall_return_code (results ++ [r])
  = if (r.2 =? 0)%Z then overall_return_code results else r.2.
Proof. unfold overall_return_code. by rewrite foldl_app. Qed.

Lemma overall_return_code_last (results : list (A * Z)) :
  overall_return_code results
  = default 0%Z (last (filter (λ c, c ≠ 0%Z) results.*2)).
Proof.
  induction results as [|r results IH] using rev_ind; [done|].
  rewrite overall_return_code_snoc, fmap_app, filter_app. simpl.
  destruct (Z.eqb_spec r.2 0) as [E|E].
  - rewrite filter_cons_False by (intros H; by apply H).
    rewrite filter_nil, app_nil_r. done.
  - rewrite filter_cons_True by done. rewrite filter_nil.
    by rewrite last_snoc.
Qed.
End return_codes.

(** X13 (runner.py, run_behave_tests): the overall return code is the
    return code of the last worker, in the order of the results, that
    returned a code other than zero, and zero when there is none; so it
    is zero exactly when every worker returned zero. *)
Theorem overall_return_code_last_failure
    (results : list (option string * Z)) :
  runner_parallel.overall_return_code results
  = default 0%Z (last (filter (λ c, c ≠ 0%Z) results.*2))
  ∧ (runner_parallel.overall_return_code results = 0%Z
     ↔ Forall (λ r, r.2 = 0%Z) results).
Proof.
  split; [apply overall_return_code_last|].
  induction results as [|r results IH] using rev_ind; [done|].
  rewrite overall_return_code_snoc, Forall_app, Forall_singleton.
  destruct (Z.eqb_spec r.2 0) as [E|E]; [tauto|].
  split; [done|]. by intros [_ ?].
Qed.

(** X14 (runner.py, run_behave_tests and construct_behave_args): the
    run of the workers fails, with [ValueError], exactly when no feature
    file was found or a parallel run is asked with no job. Otherwise
    there is one report file per worker, at least one: as many as jobs
    for a parallel run with enough feature files, and one otherwise;
    and with more jobs than feature files the run is the sequential
    one. *)
Theorem run_shards_outcome
    (run_behave_test : nat → list string → option string * Z)
    (parallel_run : bool) (max_parallel_jobs : nat) (found : list string) :
  match runner_parallel.run_shards run_behave_test parallel_run
          max_parallel_jobs found with
  | Raise e =>
      e = ValueError
      ∧ (found = [] ∨ (parallel_run = true ∧ max_parallel_jobs = 0))
  | Ok (json_report_files, overall_return_code) =>
      found ≠ [] ∧ (parallel_run = true → max_parallel_jobs ≠ 0)
      ∧ 0 < length json_report_files
      ∧ length json_report_files
        = (if parallel_run && (max_parallel_jobs <=? length found)
           then max_parallel_jobs else 1)
      ∧ (length found < max_parallel_jobs →
         json_report_files = [(run_behave_test 0 found).1]
         ∧ (overall_return_code = (run_behave_test 0 found).2))
  end.
Proof.
  unfold runner_parallel.run_shards.
  destruct found as [|f found]; [by split; [|left]|].
  cbn [runner_parallel.construct_behave_args_files].
  destruct parallel_run; cbn [andb].
  - destruct (Nat.leb_spec max_parallel_jobs (length (f :: found)))
      as [Hle|Hlt].
    + destruct (Nat.eqb_spec max_parallel_jobs 0) as [->|Hk].
      { split; [done|]. by right. }
      assert (Hlen :
        length (imap run_behave_test
          (runner_parallel.feature_dirs_split max_parallel_jobs
             (f :: found))).*1 = max_parallel_jobs).
      { rewrite length_fmap, length_imap.
        unfold runner_parallel.feature_dirs_split.
        by rewrite length_fmap, length_seq. }
      split; [done|]. split; [done|]. rewrite Hlen.
      split; [lia|]. split; [done|]. lia.
    + split; [done|]. split; [lia|]. split; [simpl; lia|].
      split; [done|]. intros _. split; [done|].
      unfold runner_parallel.overall_return_code. simpl.
      by destruct (Z.eqb_spec (run_behave_test 0 (f :: found)).2 0).
  - split; [done|]. split; [done|]. split; [simpl; lia|].
    split; [done|]. intros _. split; [done|].
    unfold runner_parallel.overall_return_code. simpl.
    by destruct (Z.eqb_spec (run_behave_test 0 (f :: found)).2 0).
Qed.

(** ** The statistics of merged shards *)

Section statistics_facts.
Import runner.

Lemma add_tallies_zero t : add_tallies t (mk_tallies 0 0 0 0) = t.
Proof. destruct t. unfold add_tallies. simpl. apply tallies_eq; lia. Qed.

Lemma add_tallies_assoc t u v :
  add_tallies (add_tallies t u) v = add_tallies t (add_tallies u v).
Proof. unfold add_tallies. simpl. apply tallies_eq; lia. Qed.

(** Counting one element onto [t] is counting it from zero and adding. *)
Lemma tally_scenario_shift t e :
  tally_scenario t e
  = (u ← tally_scenario (mk_tallies 0 0 0 0) e; Ok (add_tallies t u)).
Proof.
  unfold tally_scenario. destruct (py_get "status" (VStr "unknown") e) as [s|x];
    [|done].
  cbn [mbind res_bind].
  repeat (match goal with
          | |- context [if ?b then _ else _] => destruct b
          end;
          [cbn [mbind res_bind]; f_equal; unfold add_tallies; simpl;
           apply tallies_eq; lia|]).
  cbn [mbind res_bind]. by rewrite add_tallies_zero.
Qed.

Lemma tally_scenarios_shift els : ∀ t,
  foldM tally_scenario t els
  = (u ← foldM tally_scenario (mk_tallies 0 0 0 0) els; Ok (add_tallies t u)).
Proof.
  induction els as [|e els IH]; intros t.
  - cbn [foldM mbind res_bind]. by rewrite add_tallies_zero.
  - cbn [foldM]. rewrite (tally_scenario_shift t e).
    destruct (tally_scenario (mk_tallies 0 0 0 0) e) as [u|x]; [|done].
    cbn [mbind res_bind]. rewrite (IH (add_tallies t u)), (IH u).
    destruct (foldM tally_scenario (mk_tallies 0 0 0 0) els) as [v|x];
      [|done].
    cbn [mbind res_bind]. by rewrite add_tallies_assoc.
Qed.

Lemma tally_result_shift t r :
  tally_result t r
  = (u ← tally_result (mk_tallies 0 0 0 0) r; Ok (add_tallies t u)).
Proof.
  unfold tally_result.
  destruct (py_get "elements" (VList []) r) as [els|x]; [|done].
  cbn [mbind res_bind]. destruct (py_iter els) as [scenarios|x]; [|done].
  cbn [mbind res_bind]. apply tally_scenarios_shift.
Qed.

Lemma tally_results_shift records : ∀ t,
  foldM tally_result t records
  = (u ← foldM tally_result (mk_tallies 0 0 0 0) records;
     Ok (add_tallies t u)).
Proof.
  induction records as [|r records IH]; intros t.
  - cbn [foldM mbind res_bind]. by rewrite add_tallies_zero.
  - cbn [foldM]. rewrite (tally_result_shift t r).
    destruct (tally_result (mk_tallies 0 0 0 0) r) as [u|x]; [|done].
    cbn [mbind res_bind]. rewrite (IH (add_tallies t u)), (IH u).
    destruct (foldM tally_result (mk_tallies 0 0 0 0) records) as [v|x];
      [|done].
    cbn [mbind res_bind]. by rewrite add_tallies_assoc.
Qed.

Lemma foldM_app {A B} (f : A → B → res A) l1 : ∀ a l2,
  foldM f a (l1 ++ l2) = (a' ← foldM f a l1; foldM f a' l2).
Proof.
  induction l1 as [|x l1 IH]; intros a l2; [done|].
  cbn [foldM app]. destruct (f a x) as [a'|e]; [|done].
  cbn [mbind res_bind]. apply IH.
Qed.
End statistics_facts.

(** X15 (runner.py, generate_report_statistics): the statistics of two
    lists of records put end to end are the statistics of the first and
    of the second, added counter by counter; when the first list makes
    the statistics raise, or else the second, so does the whole. With
    the merge, the statistics of a merged report are the sums of the
    statistics of its shards. *)
Theorem generate_report_statistics_app (records1 records2 : list value) :
  runner.generate_report_statistics (records1 ++ records2)
  = (t ← runner.generate_report_statistics records1;
     u ← runner.generate_report_statistics records2;
     Ok (add_tallies t u)).
Proof.
  unfold runner.generate_report_statistics. rewrite foldM_app.
  destruct (foldM runner.tally_result (runner.mk_tallies 0 0 0 0) records1)
    as [t|x]; [|done].
  cbn [mbind res_bind]. apply tally_results_shift.
Qed.

(** ** Details for the HTML report *)

Section report_values.
Import runner runner_report.

Lemma has_key_get key d :
  has_key key d = true → ∃ v, dict_get key d = Some v.
Proof. unfold has_key. intros H. by apply bool_decide_eq_true_1 in H. Qed.

Lemma strs_of_strs lines : strs_of (VStr <$> lines) = Ok lines.
Proof.
  induction lines as [|l lines IH]; [done|].
  rewrite fmap_cons. cbn [strs_of]. by rewrite IH.
Qed.

Lemma is_str_strs vs :
  forallb is_str vs = true → ∃ lines, vs = VStr <$> lines.
Proof.
  induction vs as [|v vs IH]; [by exists []|]. simpl.
  intros [Hv Hvs]%andb_prop. destruct v; try done.
  destruct (IH Hvs) as [lines ->]. by eexists (_ :: lines).
Qed.

Lemma chars_letters s : chars s = VStr <$> letters s.
Proof.
  induction s as [|c s IH]; [done|].
  cbn [chars letters]. by rewrite fmap_cons, IH.
Qed.

Lemma join_letters sep s : join sep (letters s) = spaced sep s.
Proof.
  induction s as [|c s IH]; [done|].
  simpl in *. destruct s as [|c' s]; [done|]. by rewrite IH.
Qed.

Lemma spaced_empty sep s : spaced sep s = "" → s = "".
Proof. destruct s as [|c [|c' s]]; done. Qed.

Lemma set_update_ok lines : ∀ members,
  ∃ members', foldM set_add members (VStr <$> lines) = Ok members'.
Proof.
  induction lines as [|l lines IH]; intros members; [by eexists|].
  rewrite fmap_cons. cbn [foldM]. unfold set_add at 1.
  cbn [hashable mbind res_bind]. apply IH.
Qed.

Lemma counts_eq p f s e p' f' s' e' :
  p = p' → f = f' → s = s' → e = e' →
  mk_counts p f s e = mk_counts p' f' s' e'.
Proof. by intros -> -> -> ->. Qed.

Lemma add_elements_nil c : add_elements c [] = c.
Proof. destruct c. unfold add_elements, count_in. simpl. apply counts_eq; lia. Qed.

Lemma add_elements_cons c e els :
  add_elements (add_elements c [e]) els = add_elements c (e :: els).
Proof.
  unfold add_elements. cbn [n_passed n_failed n_skipped n_error].
  rewrite !(count_in_cons _ e els), !(count_in_cons _ e []).
  rewrite (filter_cons _ e els), (filter_cons _ e []).
  unfold count_in. rewrite !filter_nil.
  destruct (decide (other e = true)); simpl; apply counts_eq; lia.
Qed.

Lemma add_elements_app c l1 : ∀ l2,
  add_elements (add_elements c l1) l2 = add_elements c (l1 ++ l2).
Proof.
  revert c. induction l1 as [|e l1 IH]; intros c l2.
  - by rewrite add_elements_nil.
  - rewrite <- (add_elements_cons c e l1), IH.
    by rewrite add_elements_cons.
Qed.

Lemma count_element c d status :
  dict_get "status" d = Some status →
  count status c = add_elements c [VDict d].
Proof.
  intros Hs. unfold count, add_elements.
  rewrite !count_in_cons. unfold count_in, other, status_is.
  rewrite !filter_cons, !filter_nil, Hs, !py_eq_str.
  destruct status as [| | | |s| |]; simpl; try (apply counts_eq; lia).
  destruct (String.eqb s "passed") eqn:E1.
  { apply String.eqb_eq in E1 as ->. simpl. apply counts_eq; lia. }
  destruct (String.eqb s "failed") eqn:E2.
  { apply String.eqb_eq in E2 as ->. simpl. apply counts_eq; lia. }
  destruct (String.eqb s "skipped") eqn:E3.
  { apply String.eqb_eq in E3 as ->. simpl. apply counts_eq; lia. }
  simpl. apply counts_eq; lia.
Qed.

Lemma other_cons e els :
  length (filter (λ e, other e = true) (e :: els))
  = (if other e then 1 else 0) + length (filter (λ e, other e = true) els).
Proof.
  rewrite filter_cons. destruct (decide (other e = true)) as [->|H]; [done|].
  by apply not_true_is_false in H as ->.
Qed.

(** The three counted statuses exclude one another. *)
Lemma other_count els :
  count_in "passed" els + count_in "failed" els + count_in "skipped" els
  + length (filter (λ e, other e = true) els) = length els.
Proof.
  induction els as [|e els IH]; [done|].
  rewrite !count_in_cons, other_cons. cbn [length].
  unfold other at 1.
  assert (Hx :
    (status_is "passed" e = true ∧ status_is "failed" e = false
     ∧ status_is "skipped" e = false)
    ∨ (status_is "passed" e = false ∧ status_is "failed" e = true
       ∧ status_is "skipped" e = false)
    ∨ (status_is "passed" e = false ∧ status_is "failed" e = false
       ∧ status_is "skipped" e = true)
    ∨ (status_is "passed" e = false ∧ status_is "failed" e = false
       ∧ status_is "skipped" e = false)).
  { unfold status_is. destruct e as [| | | | | |d]; try tauto.
    destruct (dict_get "status" d) as [[| | | |s| |]|]; try tauto.
    destruct (String.eqb s "passed") eqn:E1.
    { apply String.eqb_eq in E1 as ->. by left. }
    destruct (String.eqb s "failed") eqn:E2.
    { apply String.eqb_eq in E2 as ->. right. by left. }
    destruct (String.eqb s "skipped"); tauto. }
  destruct Hx as [(-> & -> & ->)|[(-> & -> & ->)|[(-> & -> & ->)|(-> & -> & ->)]]];
    simpl; lia.
Qed.

Lemma undefined_other els :
  count_in "undefined" els ≤ length (filter (λ e, other e = true) els).
Proof.
  induction els as [|e els IH]; [done|].
  rewrite count_in_cons, other_cons.
  destruct (status_is "undefined" e) eqn:E.
  - assert (Ho : other e = true).
    { unfold other, status_is in *. destruct e as [| | | | | |d]; try done.
      destruct (dict_get "status" d) as [[| | | |s| |]|]; try done.
      apply String.eqb_eq in E as ->. done. }
    rewrite Ho. lia.
  - destruct (other e); lia.
Qed.

Lemma feature_ok_record f : feature_ok f = true → is_feature_record f = true.
Proof.
  destruct f as [| | | | | |d]; try done. unfold feature_ok, is_feature_record.
  intros [_ He]%andb_prop.
  destruct (dict_get "elements" d) as [[| | | | |els|]|]; try done.
  induction els as [|e els IH]; [done|]. cbn [forallb] in *.
  apply andb_prop in He as [He Hels]. rewrite (IH Hels), andb_true_r.
  by destruct e.
Qed.

Lemma features_ok_records mr :
  forallb feature_ok mr = true → forallb is_feature_record mr = true.
Proof.
  induction mr as [|f mr IH]; [done|]. cbn [forallb].
  intros [Hf Hmr]%andb_prop. by rewrite (feature_ok_record f Hf), IH.
Qed.
End report_values.

Section report_facts.
Import runner runner_report.

Variable upper : string → string.
Variable datetime : Type.
Variable strptime : string → string → option datetime.
Variable total_seconds : datetime → datetime → string.
Variable list_of_set : list value → list value.

(** A step with a name and a step type: the rest of [step_details]. *)
Lemma step_details_dict d name ty :
  dict_get "name" d = Some name →
  dict_get "step_type" d = Some (VStr ty) →
  step_details upper (VDict d)
  = (error_message ←
       py_get "error_message" (VList [])
         (default (VDict []) (dict_get "result" d));
     failure_reason ← py_join " " error_message;
     Ok (VDict [("name", name); ("keyword", VStr (upper ty));
                ("result", default (VStr "N/A") (dict_get "result" d));
                ("test_data", default (VStr "N/A") (dict_get "Test_data" d));
                ("test_output_data",
                 default (VStr "N/A") (dict_get "Test_Output_data" d));
                ("screenshot", default VNone (dict_get "Screenshot_data" d));
                ("table", default (VStr "N/A") (dict_get "table" d));
                ("failure_reason", VStr (str_or failure_reason "N/A"))])).
Proof.
  intros Hn Ht. unfold step_details, py_item. rewrite Hn, Ht. done.
Qed.

Lemma step_details_ok s :
  step_ok s = true → ∃ d, step_details upper s = Ok d.
Proof.
  destruct s as [| | | | | |d]; try done. unfold step_ok.
  intros [[Hn Ht]%andb_prop Hr]%andb_prop.
  apply has_key_get in Hn as [name Hn].
  destruct (dict_get "step_type" d) as [[| | | |ty| |]|] eqn:Et; try done.
  rewrite (step_details_dict d name ty Hn Et).
  destruct (dict_get "result" d) as [[| | | | | |r]|]; try done.
  - cbn [default from_option id py_get mbind res_bind].
    destruct (dict_get "error_message" r) as [[| | | |m|ls|]|];
      try done; unfold py_join;
      cbn [default from_option id mbind res_bind py_iter].
    + rewrite chars_letters, strs_of_strs. by eexists.
    + apply is_str_strs in Hr as [lines ->].
      rewrite strs_of_strs. by eexists.
    + by eexists.
  - by eexists.
Qed.

Lemma map_res_step_details_ok steps :
  forallb step_ok steps = true →
  ∃ ds, map_res (step_details upper) steps = Ok ds.
Proof.
  induction steps as [|s steps IH]; [by exists []|]. simpl.
  intros [Hs Hsteps]%andb_prop.
  destruct (step_details_ok s Hs) as [d ->].
  destruct (IH Hsteps) as [ds ->]. simpl. by eexists.
Qed.

Lemma scenario_details_ok members c scenario :
  scenario_ok scenario = true →
  ∃ members' d,
    scenario_details upper datetime strptime total_seconds members c scenario
    = Ok (members', add_elements c [scenario], d).
Proof.
  destruct scenario as [| | | | | |d]; try done. unfold scenario_ok.
  intros [[[[[Hn Hs]%andb_prop Hst]%andb_prop He]%andb_prop
            Ht]%andb_prop Hsteps]%andb_prop.
  apply has_key_get in Hn as [name Hn].
  apply has_key_get in Hs as [status Hs].
  apply has_key_get in Hst as [start_time Hst].
  apply has_key_get in He as [end_time He].
  destruct (dict_get "tags" d) as [[| | | | |ts|]|] eqn:Et; try done.
  destruct (dict_get "steps" d) as [[| | | | |steps|]|] eqn:Esteps; try done.
  apply is_str_strs in Ht as [lines ->].
  destruct (map_res_step_details_ok steps Hsteps) as [ds Hds].
  destruct (set_update_ok lines members) as [members' Hm].
  assert (Hd : ∃ dur,
    calculate_duration datetime strptime total_seconds (VDict d) = Ok dur).
  { unfold calculate_duration.
    destruct (parse_time _ _ _); [destruct (parse_time _ _ _)|];
      by eexists. }
  destruct Hd as [dur Hd].
  exists members'. eexists.
  unfold scenario_details. rewrite Hd. unfold py_item.
  rewrite Hn, Hs, Hst, He, Et, Esteps.
  cbn [mbind res_bind mret res_ret py_iter]. rewrite Hds.
  cbn [mbind res_bind mret res_ret]. unfold set_update.
  cbn [mbind res_bind mret res_ret py_iter]. rewrite Hm.
  cbn [mbind res_bind mret res_ret].
  by rewrite (count_element c d status Hs).
Qed.

Lemma scenarios_details_ok els : ∀ members c,
  forallb scenario_ok els = true →
  ∃ members' ds,
    scenarios_details upper datetime strptime total_seconds members c els
    = Ok (members', add_elements c els, ds).
Proof.
  induction els as [|e els IH]; intros members c H.
  - exists members, []. cbn [scenarios_details].
    by rewrite add_elements_nil.
  - cbn [forallb] in H. apply andb_prop in H as [He Hels].
    destruct (scenario_details_ok members c e He) as (m1 & d & E1).
    destruct (IH m1 (add_elements c [e]) Hels) as (m2 & ds & E2).
    exists m2, (d :: ds). cbn [scenarios_details]. rewrite E1.
    cbn [mbind res_bind fst snd]. rewrite E2. cbn [mbind res_bind fst snd].
    by rewrite add_elements_cons.
Qed.

Lemma feature_details_ok acc f :
  feature_ok f = true →
  ∃ acc',
    feature_details upper datetime strptime total_seconds acc f = Ok acc'
    ∧ length (features acc') = S (length (features acc))
    ∧ feature_counts acc' = add_elements (feature_counts acc) [f]
    ∧ scenario_counts acc'
      = add_elements (scenario_counts acc) (elements_of f).
Proof.
  destruct f as [| | | | | |d]; try done. unfold feature_ok.
  intros [[[[Hn Hs]%andb_prop Hl]%andb_prop Ht]%andb_prop He]%andb_prop.
  apply has_key_get in Hn as [name Hn].
  apply has_key_get in Hs as [status Hs].
  apply has_key_get in Hl as [location Hl].
  apply has_key_get in Ht as [ftags Ht].
  destruct (dict_get "elements" d) as [[| | | | |els|]|] eqn:Ee; try done.
  destruct (scenarios_details_ok els (tags acc) (scenario_counts acc) He)
    as (m & ds & E).
  eexists. split.
  - unfold feature_details, py_item. rewrite Hn, Hs, Hl, Ht, Ee.
    cbn [mbind res_bind py_iter]. rewrite E. cbn [mbind res_bind fst snd].
    reflexivity.
  - cbn [features feature_counts scenario_counts].
    split; [rewrite length_app; simpl; lia|].
    split; [by apply count_element|].
    unfold elements_of. by rewrite Ee.
Qed.

Lemma features_details_ok mr : ∀ acc,
  forallb feature_ok mr = true →
  ∃ acc',
    foldM (feature_details upper datetime strptime total_seconds) acc mr
    = Ok acc'
    ∧ length (features acc') = length (features acc) + length mr
    ∧ feature_counts acc' = add_elements (feature_counts acc) mr
    ∧ scenario_counts acc'
      = add_elements (scenario_counts acc) (mr ≫= elements_of).
Proof.
  induction mr as [|f mr IH]; intros acc H.
  - exists acc. split; [done|]. split; [simpl; lia|].
    by rewrite !add_elements_nil.
  - cbn [forallb] in H. apply andb_prop in H as [Hf Hmr].
    destruct (feature_details_ok acc f Hf) as (a1 & E1 & L1 & F1 & S1).
    destruct (IH a1 Hmr) as (a2 & E2 & L2 & F2 & S2).
    exists a2. cbn [foldM]. rewrite E1. cbn [mbind res_bind].
    split; [done|]. split; [rewrite L2, L1; simpl; lia|].
    split.
    + by rewrite F2, F1, add_elements_cons.
    + rewrite S2, S1, add_elements_app. by rewrite bind_cons.
Qed.

Lemma extract_counts mr :
  forallb feature_ok mr = true →
  ∃ out,
    extract_report_details upper datetime strptime total_seconds list_of_set mr
    = Ok out
    ∧ dict_get "feature_count" out = Some (int (length mr))
    ∧ dict_get "passed_features" out = Some (int (count_in "passed" mr))
    ∧ dict_get "failed_features" out = Some (int (count_in "failed" mr))
    ∧ dict_get "skipped_features" out = Some (int (count_in "skipped" mr))
    ∧ dict_get "error_features" out
      = Some (int (length (filter (λ e, other e = true) mr)))
    ∧ dict_get "passed_scenarios" out
      = Some (int (count_status "passed" mr))
    ∧ dict_get "failed_scenarios" out
      = Some (int (count_status "failed" mr))
    ∧ dict_get "skipped_scenarios" out
      = Some (int (count_status "skipped" mr))
    ∧ dict_get "error_scenarios" out
      = Some (int (length (filter (λ e, other e = true)
                             (mr ≫= elements_of))))
    ∧ dict_get "scenario_count" out
      = Some (int (length (mr ≫= elements_of))).
Proof.
  intros H.
  destruct (features_details_ok mr
              (mk_details [] [] (mk_counts 0 0 0 0) (mk_counts 0 0 0 0)) H)
    as (acc & E & L & F & S).
  eexists. split.
  { unfold extract_report_details. rewrite E. cbn [mbind res_bind].
    reflexivity. }
  rewrite F, S. cbn [features] in L. rewrite L.
  unfold add_elements, count_status.
  cbn [n_passed n_failed n_skipped n_error length].
  repeat split; try reflexivity.
  cbn [dict_get]. simpl. do 2 f_equal. unfold int. f_equal.
  pose proof (other_count (mr ≫= elements_of)). lia.
Qed.
End report_facts.

(** X16 (runner.py, extract_report_details): on features that have the
    keys the extraction reads, it returns, and its scenario counters are
    the tallies as the specification words them: passed, failed and
    skipped elements each in their own counter and every other element
    in [error_scenarios]; [scenario_count] is the number of elements and
    [feature_count] the number of features. [generate_report_statistics]
    agrees on the first three counters and counts at most as many
    errors. *)
Theorem extract_report_details_counts
    (upper : string → string) (datetime : Type)
    (strptime : string → string → option datetime)
    (total_seconds : datetime → datetime → string)
    (list_of_set : list value → list value) (merged_results : list value) :
  forallb runner_report.feature_ok merged_results = true →
  ∃ out,
    runner_report.extract_report_details upper datetime strptime
      total_seconds list_of_set merged_results = Ok out
    ∧ let t := runner.computeTallies_spec merged_results in
      dict_get "passed_scenarios" out
      = Some (runner_report.int (runner.passed t))
      ∧ dict_get "failed_scenarios" out
        = Some (runner_report.int (runner.failed t))
      ∧ dict_get "skipped_scenarios" out
        = Some (runner_report.int (runner.skipped t))
      ∧ dict_get "error_scenarios" out
        = Some (runner_report.int (runner.errors t))
      ∧ dict_get "scenario_count" out
        = Some (runner_report.int
                  (length (merged_results ≫= runner.elements_of)))
      ∧ dict_get "feature_count" out
        = Some (runner_report.int (length merged_results))
      ∧ ∃ s, runner.generate_report_statistics merged_results = Ok s
             ∧ runner.passed s = runner.passed t
             ∧ runner.failed s = runner.failed t
             ∧ runner.skipped s = runner.skipped t
             ∧ runner.errors s ≤ runner.errors t.
Proof.
  intros H.
  destruct (extract_counts upper datetime strptime total_seconds list_of_set
              merged_results H)
    as (out & E & Hfc & _ & _ & _ & _ & Hp & Hf & Hs & He & Hc).
  pose proof (other_count (merged_results ≫= runner.elements_of)) as Ho.
  assert (Herr :
    runner.errors (runner.computeTallies_spec merged_results)
    = length (filter (λ e, runner_report.other e = true)
                (merged_results ≫= runner.elements_of))).
  { unfold runner.computeTallies_spec, runner.count_status.
    cbn [runner.errors]. lia. }
  exists out. split; [exact E|]. cbv zeta.
  split; [exact Hp|]. split; [exact Hf|]. split; [exact Hs|].
  split; [by rewrite Herr|]. split; [exact Hc|]. split; [exact Hfc|].
  eexists. split.
  { unfold runner.generate_report_statistics.
    apply tally_results_counts. by apply features_ok_records. }
  unfold runner.add_counts, runner.computeTallies_spec.
  cbn [runner.passed runner.failed runner.skipped runner.errors].
  split; [done|]. split; [done|]. split; [done|].
  fold (runner.computeTallies_spec merged_results).
  pose proof (undefined_other (merged_results ≫= runner.elements_of)) as Hu.
  unfold runner.computeTallies_spec, runner.count_status in *.
  cbn [runner.errors] in *. lia.
Qed.

(** X17 (custom_json_formatter.py, feature and eof; runner.py,
    extract_report_details and generate_report_statistics): a feature
    that ends before any background or scenario is written without an
    [elements] entry. The statistics read it as a feature with no
    element; the extraction of the details raises [KeyError] on it. *)
Theorem feature_without_elements_breaks_details
    (round2 : spec_float → spec_float) (b64encode : string → string)
    (upper : string → string) (datetime : Type)
    (strptime : string → string → option datetime)
    (total_seconds : datetime → datetime → string)
    (list_of_set : list value → list value)
    (now now_finish now' : string) (f : Feature) :
  ∃ w v,
    run round2 b64encode [CFeature now f; CEof now_finish now'] init_world
    = Done w
    ∧ out w = [header; Dump v]
    ∧ runner.generate_report_statistics [v] = Ok (runner.mk_tallies 0 0 0 0)
    ∧ runner_report.extract_report_details upper datetime strptime
        total_seconds list_of_set [v] = Raise KeyError.
Proof.
  eexists. eexists. split; [reflexivity|]. split; [reflexivity|].
  destruct f as [kw name tags loc [|d ds] st]; split; reflexivity.
Qed.

Lemma error_message_of_cases st :
  error_message_of st = None
  ∨ ∃ msg, msg ≠ "" ∧ error_message_of st = Some (split_text msg).
Proof.
  unfold error_message_of. destruct (st_error_message st) as [msg|]; [|by left].
  destruct (String.eqb_spec msg "") as [->|Hne]; [by left|].
  destruct (_ || _); [|by left]. right. by exists msg.
Qed.

Lemma result_record_get_error_message round2 now st :
  dict_get "error_message" (result_record round2 now st) = error_message_of st.
Proof.
  unfold result_record. destruct (error_message_of st) as [msg|]; [|done].
  apply dict_get_set_eq.
Qed.

Lemma fmap_VStr_inj (l1 : list string) :
  ∀ l2 : list string, VStr <$> l1 = VStr <$> l2 → l1 = l2.
Proof.
  induction l1 as [|x l1 IH]; intros [|y l2]; try done.
  rewrite !fmap_cons. intros [= -> H]. by rewrite (IH l2 H).
Qed.

(** X18 (runner.py, extract_report_details; custom_json_formatter.py,
    result): the failure reason extracted for a step that carries a
    result of the formatter. Without an error message it is 'N/A'. An
    error message of one line was stored as a string, and the join runs
    over its characters: the reason is the message with a space between
    every two characters. An error message of several lines was stored
    as the list of its lines, and the reason is the lines joined by
    spaces, or 'N/A' when that is empty. *)
Theorem step_details_failure_reason
    (upper : string → string) (round2 : spec_float → spec_float)
    (now : string) (st : Step) (s : dict) (name : value) (ty : string) :
  dict_get "name" s = Some name →
  dict_get "step_type" s = Some (VStr ty) →
  dict_get "result" s = Some (VDict (result_record round2 now st)) →
  ∃ d,
    runner_report.step_details upper (VDict s) = Ok (VDict d)
    ∧ dict_get "keyword" d = Some (VStr (upper ty))
    ∧ (error_message_of st = None →
       dict_get "failure_reason" d = Some (VStr "N/A"))
    ∧ (∀ msg, error_message_of st = Some (VStr msg) →
       dict_get "failure_reason" d
       = Some (VStr (runner_report.spaced " " msg)))
    ∧ (∀ lines, error_message_of st = Some (strs lines) →
       dict_get "failure_reason" d
       = Some (VStr (runner_report.str_or
                       (runner_report.join " " lines) "N/A"))).
Proof.
  intros Hn Ht Hr.
  rewrite (step_details_dict upper s name ty Hn Ht), Hr.
  cbn [default from_option id runner.py_get mbind res_bind].
  rewrite result_record_get_error_message.
  destruct (error_message_of_cases st) as [E|(msg & Hne & E)]; rewrite E.
  - eexists. split; [reflexivity|]. split; [reflexivity|].
    split; [done|]. split; intros ? [=].
  - unfold split_text in *. destruct (contains_newline msg).
    + unfold runner_report.py_join, strs.
      cbn [default from_option id runner.py_iter mbind res_bind].
      rewrite strs_of_strs. cbn [mbind res_bind].
      eexists. split; [reflexivity|]. split; [reflexivity|].
      split; [done|]. split; [intros ? [=]|].
      intros lines [= Hl]. apply fmap_VStr_inj in Hl as <-. done.
    + unfold runner_report.py_join.
      cbn [default from_option id runner.py_iter mbind res_bind].
      rewrite chars_letters, strs_of_strs. cbn [mbind res_bind].
      rewrite join_letters.
      eexists. split; [reflexivity|]. split; [reflexivity|].
      split; [done|]. split; [|intros ? [=]].
      intros ? [= <-]. cbn [dict_get]. simpl.
      unfold runner_report.str_or.
      destruct (String.eqb_spec (runner_report.spaced " " msg) "") as [E0|];
        [|done].
      by apply spaced_empty in E0.
Qed.

Lemma step_details_failure_reason_witness :
  ∃ d,
    runner_report.step_details (λ s, s)
      (VDict [("name", VStr "the user logs in"); ("step_type", VStr "when");
              ("result",
               VDict (result_record (λ f, f) "2026-01-01 10:00:03"
                        (mk_Step "When" "when" "the user logs in"
                           "features/a.feature:5" None None Status.failed
                           (NF (S754_zero false)) (Some "boom"))))])
    = Ok (VDict d)
    ∧ dict_get "failure_reason" d = Some (VStr "b o o m").
Proof.
  destruct (step_details_failure_reason (λ s, s) (λ f, f)
              "2026-01-01 10:00:03"
              (mk_Step "When" "when" "the user logs in"
                 "features/a.feature:5" None None Status.failed
                 (NF (S754_zero false)) (Some "boom"))
              [("name", VStr "the user logs in"); ("step_type", VStr "when");
               ("result",
                VDict (result_record (λ f, f) "2026-01-01 10:00:03"
                         (mk_Step "When" "when" "the user logs in"
                            "features/a.feature:5" None None Status.failed
                            (NF (S754_zero false)) (Some "boom"))))]
              (VStr "the user logs in") "when" eq_refl eq_refl eq_refl)
    as (d & E & _ & _ & Hs & _).
  exists d. split; [exact E|]. exact (Hs "boom" eq_refl).
Defined.

Lemma extract_report_details_counts_witness :
  forallb runner_report.feature_ok example_report = true
  ∧ ∃ out,
      runner_report.extract_report_details (λ s, s) unit (λ _ _, None)
        (λ _ _, "0.00") (λ l, l) example_report = Ok out
      ∧ dict_get "failed_scenarios" out = Some (VInt 1)
      ∧ dict_get "scenario_count" out = Some (VInt 1).
Proof.
  split; [reflexivity|].
  destruct (extract_report_details_counts (λ s, s) unit (λ _ _, None)
              (λ _ _, "0.00") (λ l, l) example_report eq_refl)
    as (out & E & _ & F & _ & _ & C & _).
  exists out. split; [exact E|]. split; [exact F|exact C].
Defined.

Lemma result_leaves_null_entry_witness :
  ∃ w',
    result (λ f, f) "2026-01-01 10:00:02" plain_step example_open_world
    = Done w'
    ∧ dict_get "inputdata" (drain "inputdata" (ctx w')) = Some VNone.
Proof.
  eexists. split; [reflexivity|].
  exact (proj1 (proj2 (result_leaves_null_entry (λ f, f)
                         "2026-01-01 10:00:02" plain_step example_open_world
                         _ "inputdata" eq_refl eq_refl eq_refl))).
Defined.

(** ** The instance file *)

(** X19 (runner.py, load_instance_from_file): the file is tried at most
    five times. The data returned are those of the first attempt that
    succeeds, after one sleep for each attempt that failed before it;
    when the file is missing nothing is tried, and when five attempts
    fail the function returns [None] after four sleeps. *)
Theorem load_instance_from_file_attempts
    (try_file : nat → res value) (file_exists : bool) :
  let r := runner_instance.load_instance_from_file try_file file_exists in
  r.2 ≤ 4
  ∧ match r.1 with
    | Some instance_data =>
        file_exists = true
        ∧ r.2 < 5
        ∧ try_file r.2 = Ok instance_data
        ∧ ∀ n, n < r.2 → raises (try_file n) = true
    | None =>
        (file_exists = false ∧ r.2 = 0)
        ∨ (file_exists = true ∧ r.2 = 4
           ∧ ∀ n, n < 5 → raises (try_file n) = true)
    end.
Proof.
  destruct file_exists; [|by split; [simpl; lia|left]].
  unfold runner_instance.load_instance_from_file.
  cbn [seq runner_instance.load_loop].
  destruct (try_file 0) as [v0|x0] eqn:E0.
  { cbn. split; [lia|]. split; [done|]. split; [lia|]. split; [done|]. lia. }
  destruct (try_file 1) as [v1|x1] eqn:E1.
  { cbn. split; [lia|]. split; [done|]. split; [lia|]. split; [done|].
    intros [|n] Hn; [by rewrite E0|lia]. }
  destruct (try_file 2) as [v2|x2] eqn:E2.
  { cbn. split; [lia|]. split; [done|]. split; [lia|]. split; [done|].
    intros [|[|n]] Hn; [by rewrite E0|by rewrite E1|lia]. }
  destruct (try_file 3) as [v3|x3] eqn:E3.
  { cbn. split; [lia|]. split; [done|]. split; [lia|]. split; [done|].
    intros [|[|[|n]]] Hn; [by rewrite E0|by rewrite E1|by rewrite E2|lia]. }
  destruct (try_file 4) as [v4|x4] eqn:E4.
  { cbn. split; [lia|]. split; [done|]. split; [lia|]. split; [done|].
    intros [|[|[|[|n]]]] Hn;
      [by rewrite E0|by rewrite E1|by rewrite E2|by rewrite E3|lia]. }
  cbn. split; [lia|]. right. split; [done|]. split; [done|].
  intros [|[|[|[|[|n]]]]] Hn;
    [by rewrite E0|by rewrite E1|by rewrite E2|by rewrite E3|by rewrite E4
    |lia].
Qed.

(** X20 (runner.py, save_instance_to_file): the file is written at the
    first of at most five attempts that succeeds, after one sleep for
    each attempt that failed before it; the run exits with status 2
    exactly when all five attempts fail, after four sleeps. *)
Theorem save_instance_to_file_attempts (try_file : nat → res unit) :
  let r := runner_instance.save_instance_to_file try_file in
  r.2 ≤ 4
  ∧ (∀ n, n < r.2 → raises (try_file n) = true)
  ∧ match r.1 with
    | runner_instance.Saved =>
        raises (try_file r.2) = false
    | runner_instance.Exit status =>
        status = 2%Z ∧ r.2 = 4
        ∧ raises (try_file 4) = true
    end.
Proof.
  unfold runner_instance.save_instance_to_file.
  cbn [seq runner_instance.save_loop].
  destruct (try_file 0) as [v0|x0] eqn:E0.
  { cbn. rewrite E0. split; [lia|]. split; [lia|done]. }
  destruct (try_file 1) as [v1|x1] eqn:E1.
  { cbn. rewrite E1. split; [lia|]. split; [|done].
    intros [|n] Hn; [by rewrite E0|lia]. }
  destruct (try_file 2) as [v2|x2] eqn:E2.
  { cbn. rewrite E2. split; [lia|]. split; [|done].
    intros [|[|n]] Hn; [by rewrite E0|by rewrite E1|lia]. }
  destruct (try_file 3) as [v3|x3] eqn:E3.
  { cbn. rewrite E3. split; [lia|]. split; [|done].
    intros [|[|[|n]]] Hn; [by rewrite E0|by rewrite E1|by rewrite E2|lia]. }
  destruct (try_file 4) as [v4|x4] eqn:E4.
  { cbn. rewrite E4. split; [lia|]. split; [|done].
    intros [|[|[|[|n]]]] Hn;
      [by rewrite E0|by rewrite E1|by rewrite E2|by rewrite E3|lia]. }
  cbn. split; [lia|]. split; [|done].
  intros [|[|[|[|n]]]] Hn;
    [by rewrite E0|by rewrite E1|by rewrite E2|by rewrite E3|lia].
Qed.

(** ** What the formatter writes is what the extraction reads *)

Section formatter_report.
Import runner_report.

Lemma step_ok_set key v s :
  step_ok (VDict s) = true →
  key ≠ "name" → key ≠ "step_type" → key ≠ "result" →
  step_ok (VDict (dict_set key v s)) = true.
Proof.
  intros H H1 H2 H3. unfold step_ok, has_key in *.
  by rewrite !dict_get_set_ne by done.
Qed.

Lemma split_text_ok msg :
  match split_text msg with
  | VStr _ => true
  | VList lines => forallb is_str lines
  | _ => false
  end = true.
Proof.
  unfold split_text. destruct (contains_newline msg); [|done].
  unfold strs. induction (splitlines msg) as [|l ls IH]; [done|].
  by rewrite fmap_cons.
Qed.

Lemma step_ok_result round2 now st s :
  step_ok (VDict s) = true →
  step_ok (VDict (dict_set "result" (VDict (result_record round2 now st)) s))
  = true.
Proof.
  intros H. unfold step_ok, has_key in *.
  rewrite dict_get_set_eq, !dict_get_set_ne by done.
  apply andb_prop in H as [H _]. rewrite H. cbn [andb].
  rewrite result_record_get_error_message.
  destruct (error_message_of_cases st) as [->|(msg & _ & ->)]; [done|].
  pose proof (split_text_ok msg) as Hm.
  by destruct (split_text msg).
Qed.

Lemma step_ok_record now st : step_ok (VDict (step_record now st)) = true.
Proof.
  unfold step_record.
  set (s0 := [("keyword", _); _; _; _; _; _]).
  set (s1 := match st_text st with Some _ => _ | None => _ end).
  assert (H0 : step_ok (VDict s0) = true) by done.
  assert (H1 : step_ok (VDict s1) = true).
  { subst s1. destruct (st_text st) as [text|]; [|done].
    destruct (String.eqb text ""); [done|]. by apply step_ok_set. }
  destruct (st_table st); [|done]. by apply step_ok_set.
Qed.

Lemma step_ok_embedding emb s :
  step_ok (VDict s) = true → step_ok (VDict (add_embedding emb s)) = true.
Proof.
  intros H. unfold add_embedding.
  destruct (dict_get "embeddings" s) as [[| | | | |l|]|];
    by apply step_ok_set.
Qed.

Lemma steps_ok_alter f i e :
  (∀ s, step_ok (VDict s) = true → step_ok (VDict (f s)) = true) →
  steps_ok e → steps_ok (set_steps (alter f i (e_steps e)) e).
Proof.
  unfold steps_ok. cbn [e_steps set_steps]. intros Hf H.
  apply Forall_lookup. intros j s Hj.
  destruct (decide (i = j)) as [<-|Hne].
  - rewrite list_lookup_alter_eq in Hj.
    destruct (e_steps e !! i) as [s0|] eqn:E; [|done].
    injection Hj as <-. apply Hf. by eapply Forall_lookup_1 in H.
  - rewrite list_lookup_alter_ne in Hj by done.
    by eapply Forall_lookup_1 in H.
Qed.

Lemma steps_ok_set_step_key i key v e :
  key ≠ "name" → key ≠ "step_type" → key ≠ "result" →
  steps_ok e → steps_ok (set_step_key i key v e).
Proof.
  intros H1 H2 H3. apply steps_ok_alter. intros s Hs. by apply step_ok_set.
Qed.

Lemma Forall_alter_last {A} (P : A → Prop) f (l : list A) :
  (∀ x, P x → P (f x)) → Forall P l → Forall P (alter_last f l).
Proof.
  intros Hf H. destruct l as [|x l _] using rev_ind; [done|].
  rewrite alter_last_snoc. apply Forall_app in H as [H1 H2].
  apply Forall_app. split; [done|].
  apply Forall_singleton, Hf. by inversion H2.
Qed.

Lemma formatter_ok_update f fm :
  (∀ e, steps_ok e → steps_ok (f e)) →
  formatter_ok fm → formatter_ok (update_feature_element f fm).
Proof.
  intros Hf. unfold formatter_ok, current_elements, update_feature_element.
  destruct (current_feature_data fm) as [fd|] eqn:Hfd; [|by rewrite Hfd].
  destruct (fd_elements fd) as [els|] eqn:Hels.
  - cbn. rewrite Hels. cbn. by apply Forall_alter_last.
  - by rewrite Hfd.
Qed.

Lemma formatter_ok_add e fm fm' :
  steps_ok e → formatter_ok fm →
  add_feature_element e fm = Ok fm' → formatter_ok fm'.
Proof.
  unfold add_feature_element, formatter_ok, current_elements.
  intros He H. destruct (current_feature_data fm) as [fd|]; [|done].
  intros [= <-]. cbn in *. apply Forall_app. split; [done|].
  by apply Forall_singleton.
Qed.

Lemma formatter_ok_finish now fm fm' :
  formatter_ok fm →
  finish_previous_element_data now fm = Ok fm' → formatter_ok fm'.
Proof.
  unfold finish_previous_element_data. intros H.
  destruct (current_feature_data fm) as [fd|] eqn:Hfd; [|by intros [= <-]].
  destruct (fd_elements fd) as [els|]; [|by intros [= <-]].
  destruct (last els) as [e|]; [|done].
  destruct (String.eqb (e_type e) "scenario"); [|by intros [= <-]].
  destruct (current_scenario fm) as [sc|]; [|by intros [= <-]].
  intros [= <-]. by apply formatter_ok_update.
Qed.

Lemma formatter_ok_fields fm fm' :
  current_feature_data fm' = current_feature_data fm →
  formatter_ok fm → formatter_ok fm'.
Proof. unfold formatter_ok, current_elements. by intros ->. Qed.

Lemma formatter_ok_step now st fm fm' :
  formatter_ok fm → step now st fm = Ok fm' → formatter_ok fm'.
Proof.
  unfold step. intros H.
  destruct (current_feature_element fm); [|done].
  intros [= <-]. apply formatter_ok_update; [|done].
  intros e He. unfold steps_ok in *. cbn [e_steps set_steps].
  apply Forall_app. split; [done|]. apply Forall_singleton.
  apply step_ok_record.
Qed.

Lemma formatter_ok_steps pairs : ∀ fm fm',
  formatter_ok fm →
  foldM (λ fm a, step a.1 a.2 fm) fm pairs = Ok fm' →
  formatter_ok fm'.
Proof.
  induction pairs as [|[now st] pairs IH]; intros fm fm' H;
    [by intros [= <-]|].
  cbn [foldM fst snd]. destruct (step now st fm) as [fm1|] eqn:E; [|done].
  cbn [mbind res_bind]. apply IH. by eapply formatter_ok_step.
Qed.

Lemma formatter_ok_background nowf now step_now b fm fm' :
  formatter_ok fm → background nowf now step_now b fm = Ok fm' →
  formatter_ok fm'.
Proof.
  unfold background. intros H.
  destruct (finish_previous_element_data nowf fm) as [fm1|] eqn:E1; [|done].
  cbn [mbind res_bind].
  destruct (add_feature_element _ fm1) as [fm2|] eqn:E2; [|done].
  cbn [mbind res_bind]. apply formatter_ok_steps.
  apply (formatter_ok_fields fm2); [done|].
  eapply formatter_ok_add; [|by eapply formatter_ok_finish|exact E2].
  by apply Forall_nil.
Qed.

Lemma formatter_ok_match m fm fm' :
  formatter_ok fm → match_ m fm = Ok fm' → formatter_ok fm'.
Proof.
  unfold match_. intros H.
  destruct (match_arguments (m_arguments m)); [|done].
  cbn [mbind res_bind]. destruct (m_location m); [|by intros [= <-]].
  destruct (current_feature_element fm) as [e|]; [|done].
  cbn [mbind res_bind]. destruct (e_steps e !! step_index fm); [|done].
  intros [= <-]. apply formatter_ok_update; [|done].
  intros e0. by apply steps_ok_set_step_key.
Qed.
End formatter_report.

Section formatter_written.
Import runner_report.
Variable round2 : spec_float → spec_float.
Variable b64encode : string → string.

Lemma step_ok_ensure s :
  step_ok (VDict s) = true → step_ok (VDict (ensure_embeddings s)) = true.
Proof.
  intros H. unfold ensure_embeddings.
  destruct (dict_get "embeddings" s); [done|]. by apply step_ok_set.
Qed.

Lemma element_to_value_ok e :
  steps_ok e → scenario_ok (element_to_value e) = true.
Proof.
  intros H. unfold element_to_value.
  assert (Ht : forallb is_str (VStr <$> e_tags e) = true).
  { induction (e_tags e) as [|t ts IH]; [done|]. by rewrite fmap_cons. }
  assert (Hs : forallb step_ok (VDict <$> e_steps e) = true).
  { unfold steps_ok in H. induction H as [|s ss Hs _ IH]; [done|].
    rewrite fmap_cons. cbn [forallb]. by rewrite Hs, IH. }
  destruct (String.eqb (e_type e) "background").
  - unfold scenario_ok, has_key, strs. cbn. by rewrite Ht, Hs.
  - unfold scenario_ok, has_key, strs. cbn. by rewrite Ht, Hs.
Qed.

Lemma feature_to_value_accepted fd :
  Forall steps_ok (default [] (fd_elements fd)) →
  accepted (feature_to_value fd).
Proof.
  intros H. unfold accepted, feature_to_value, has_elements.
  destruct (fd_elements fd) as [els|].
  2:{ by destruct (fd_description fd). }
  intros _. cbn [default from_option id] in H.
  assert (He : forallb scenario_ok (element_to_value <$> els) = true).
  { induction H as [|e es He _ IH]; [done|].
    rewrite fmap_cons. cbn [forallb].
    by rewrite (element_to_value_ok e He), IH. }
  unfold feature_ok, has_key.
  destruct (fd_description fd); cbn; by rewrite He.
Qed.

Lemma written_app o1 o2 : written (o1 ++ o2) = written o1 ++ written o2.
Proof. unfold written. by rewrite bind_app. Qed.

Lemma world_ok_on_fmt f w :
  (∀ fm fm', formatter_ok fm → f fm = Ok fm' → formatter_ok fm') →
  world_ok w → world_ok (world_of (on_fmt f w)).
Proof.
  intros Hf [H1 H2]. unfold on_fmt.
  destruct (f (fmt w)) as [fm'|] eqn:E; [|done].
  split; [by eapply Hf|done].
Qed.

Lemma world_ok_write_text s w :
  world_ok w → world_ok (world_of (write (Text s) w)).
Proof.
  intros [H1 H2]. unfold write. destruct (stream_open (fmt w)); [|done].
  split; [done|]. cbn [world_of out]. rewrite written_app.
  apply Forall_app. split; [done|]. by apply Forall_nil.
Qed.

Lemma world_ok_and_then o k :
  world_ok (world_of o) →
  (∀ w, world_ok w → world_ok (world_of (k w))) →
  world_ok (world_of (and_then o k)).
Proof. destruct o as [w|e w]; [|done]. intros H Hk. by apply Hk. Qed.

Lemma world_ok_embedding mime data w :
  world_ok w → world_ok (world_of (embedding b64encode mime data w)).
Proof.
  intros [H1 H2]. unfold embedding.
  destruct (current_feature_element (fmt w)) as [e|]; [|done].
  destruct (e_steps e !! step_index (fmt w)); [|done].
  assert (Hl : formatter_ok
                 (update_feature_element
                    (λ e0, set_steps
                             (alter ensure_embeddings (step_index (fmt w))
                                (e_steps e0)) e0) (fmt w))).
  { apply formatter_ok_update; [|done].
    intros e0. apply steps_ok_alter. intros s. apply step_ok_ensure. }
  destruct (dict_get "embeddings" _) as [[| | | | | |]|]; try by split.
  destruct (stream_open (fmt w)); [|by split].
  split; [|done]. cbn [world_of fmt set_fmt].
  apply formatter_ok_update; [|done].
  intros e0. apply steps_ok_alter. intros s. apply step_ok_embedding.
Qed.

Lemma world_ok_scenario nowf now sc w :
  world_ok w → world_ok (world_of (scenario nowf now sc w)).
Proof.
  intros [H1 H2]. unfold scenario.
  destruct (finish_previous_element_data nowf (fmt w)) as [fm1|] eqn:E1;
    [|done].
  assert (Hfm1 : formatter_ok (set_scenario sc fm1)).
  { apply (formatter_ok_fields fm1); [done|].
    by eapply formatter_ok_finish. }
  destruct (add_feature_element _ (set_scenario sc fm1)) as [fm2|] eqn:E2.
  - split; [|done]. cbn [world_of fmt set_fmt].
    apply (formatter_ok_fields fm2); [done|].
    eapply formatter_ok_add; [|exact Hfm1|exact E2]. by apply Forall_nil.
  - done.
Qed.

Lemma world_ok_result now st w :
  world_ok w → world_ok (world_of (result round2 now st w)).
Proof.
  intros [H1 H2]. unfold result.
  destruct (current_feature_element (fmt w)) as [e|]; [|done].
  destruct (e_steps e !! step_index (fmt w)); [|done].
  split; [|done]. cbn [world_of fmt].
  eapply formatter_ok_fields; [reflexivity|].
  apply (formatter_ok_fields (update_feature_element
    (λ e0, set_step_key (step_index (fmt w)) "result"
             (VDict (result_record round2 now st))
             (set_step_key (step_index (fmt w)) "Screenshot_data"
                (VDict (drain "screenshot" (ctx w)))
                (set_step_key (step_index (fmt w)) "Test_Output_data"
                   (VDict (drain "outputdata" (ctx w)))
                   (set_step_key (step_index (fmt w)) "Test_data"
                      (VDict (drain "inputdata" (ctx w))) e0))))
    (fmt w))); [done|].
  apply formatter_ok_update; [|done].
  intros e0 He0.
  apply steps_ok_alter; [intros s; apply step_ok_result|].
  by repeat apply steps_ok_set_step_key.
Qed.

Lemma world_ok_eof nowf now w :
  world_ok w → world_ok (world_of (eof nowf now w)).
Proof.
  intros H. unfold eof.
  destruct (current_feature_data (fmt w)); [|done].
  apply world_ok_and_then.
  { apply world_ok_on_fmt; [|done]. intros fm fm'.
    apply formatter_ok_finish. }
  intros w1 H1. apply world_ok_and_then.
  { apply world_ok_on_fmt; [|done]. intros fm fm' Hfm.
    unfold update_status_data.
    destruct (current_feature fm); [|done].
    destruct (current_feature_data fm) as [fd|] eqn:Hfd; [|done].
    intros [= <-]. unfold formatter_ok, current_elements in *.
    rewrite Hfd in Hfm. done. }
  intros w2 H2. apply world_ok_and_then.
  { destruct (Nat.eqb _ 0); by apply world_ok_write_text. }
  intros w3 [H3 H3'].
  destruct (current_feature_data (fmt w3)) as [fd|] eqn:Hfd; [|done].
  apply world_ok_and_then.
  - unfold write_json_feature, write.
    destruct (stream_open (fmt w3)); [|done].
    split; [done|]. cbn [world_of out]. rewrite written_app.
    apply Forall_app. split; [done|]. apply Forall_singleton.
    apply feature_to_value_accepted.
    unfold formatter_ok, current_elements in H3. by rewrite Hfd in H3.
  - intros w4 [_ H4]. split; [|done]. by apply Forall_nil.
Qed.

Lemma world_ok_close w : world_ok w → world_ok (world_of (close w)).
Proof.
  intros H. unfold close. apply world_ok_and_then.
  { destruct (Nat.eqb _ 0); [by apply world_ok_write_text|done]. }
  intros w1 H1. apply world_ok_and_then; [by apply world_ok_write_text|].
  intros w2 [H2 H2']. by split.
Qed.

Lemma world_ok_update u w : world_ok w → world_ok (update u w).
Proof.
  intros [H1 H2]. unfold update. destruct u as [s|s|n|key v].
  - destruct (current_feature (fmt w)); by split.
  - destruct (current_scenario (fmt w)); by split.
  - destruct (current_scenario (fmt w)); by split.
  - by split.
Qed.

Lemma world_ok_dispatch c w :
  world_ok w → world_ok (world_of (dispatch round2 b64encode c w)).
Proof.
  intros H. destruct c; cbn [dispatch].
  - destruct H as [_ H2]. split; [|done]. by apply Forall_nil.
  - apply world_ok_on_fmt; [|done]. intros fm fm'.
    apply formatter_ok_background.
  - by apply world_ok_scenario.
  - apply world_ok_on_fmt; [|done]. intros fm fm'. apply formatter_ok_step.
  - apply world_ok_on_fmt; [|done]. intros fm fm'. apply formatter_ok_match.
  - by apply world_ok_result.
  - by apply world_ok_embedding.
  - by apply world_ok_eof.
  - by apply world_ok_close.
  - by apply world_ok_update.
Qed.

Lemma world_ok_run calls : ∀ w,
  world_ok w → world_ok (world_of (run round2 b64encode calls w)).
Proof.
  induction calls as [|c calls IH]; intros w H; [done|].
  cbn [run]. apply world_ok_and_then; [by apply world_ok_dispatch|].
  intros w1. apply IH.
Qed.
End formatter_written.

(** X21 (custom_json_formatter.py, all callbacks; runner.py,
    extract_report_details): whatever calls are made, and whether or
    not one of them raises, every feature the formatter has written with
    an [elements] entry has the keys the extraction of the details
    reads: its elements have a name, a status, both times, a list of
    tags and a list of steps, and each step has a name, a step type
    and, when it has a result, an error message that is a string or a
    list of strings. So when every written feature has elements, the
    extraction returns on what was written. *)
Theorem written_features_accepted
    (round2 : spec_float → spec_float) (b64encode : string → string)
    (calls : list call) :
  let w := world_of (run round2 b64encode calls init_world) in
  Forall accepted (written (out w))
  ∧ ∀ (upper : string → string) (datetime : Type)
      (strptime : string → string → option datetime)
      (total_seconds : datetime → datetime → string)
      (list_of_set : list value → list value),
      forallb has_elements (written (out w)) = true →
      ∃ details,
        runner_report.extract_report_details upper datetime strptime
          total_seconds list_of_set (written (out w)) = Ok details
        ∧ dict_get "feature_count" details
          = Some (runner_report.int (length (written (out w)))).
Proof.
  intros w.
  assert (H : Forall accepted (written (out w))).
  { apply (world_ok_run round2 b64encode calls init_world).
    split; by apply Forall_nil. }
  split; [exact H|].
  intros upper datetime strptime total_seconds list_of_set Hall.
  assert (Hok : forallb runner_report.feature_ok (written (out w)) = true).
  { clear -H Hall. induction H as [|v vs Hv _ IH]; [done|].
    cbn [forallb] in *. apply andb_prop in Hall as [Hv' Hvs].
    by rewrite (Hv Hv'), (IH Hvs). }
  destruct (extract_counts upper datetime strptime total_seconds list_of_set
              (written (out w)) Hok) as (details & E & Hc & _).
  by exists details.
Qed.
